(** * VillageGen: the village generator of MCServer

    A shallow embedding of [src/Generating/VillageGen.cpp]: the village piece
    pool with its synthesized road pieces, the per-village density wrapper,
    the ground snapping of the assembled pieces, the road renderer and
    [cVillageGen::CreateStructure].

    Conventions.  A C++ [int] is a [Z]; the arithmetic of the file stays far
    from the 32-bit bounds (signed overflow is undefined in C++, there is no
    wrap-around to model), [/] and [%] on [int] truncate towards zero and are
    [Z.quot] and [Z.rem].  A [std::vector] indexed by [size_t] is a [list]
    with stdpp's lookup and [alter]; a [std::map] is a [gmap].  Objects held
    by pointer ([cPiece *], [cPlacedPiece *]) are values; the parent pointer
    of a placed piece is the index of the parent in the vector that owns the
    placed pieces.

    Code of the server that VillageGen.cpp calls and that lives in other
    files is either a parameter (the classes [ChunkDefs], [cNoise],
    [Generators], [PieceEngine] and [PrefabSets], and [Shared.Objects] for
    the objects that keep state between calls) or, for the small accessors
    and containers, a definition whose comment says so.

    The file has three parts: the embedding, a concrete world on which the
    embedding runs, and the properties, first in general and then on the
    concrete world. *)

From Equations Require Import Equations.
From stdpp Require Import base numbers option list gmap.

Local Open Scope Z_scope.

(** ** Geometry *)

Module Vector3i.
Record t : Type := mk { x : Z; y : Z; z : Z }.
End Vector3i.

#[global] Instance Vector3i_eq_dec : EqDecision Vector3i.t.
Proof. solve_decision. Defined.

Inductive eBlockFace : Type :=
| BLOCK_FACE_XM | BLOCK_FACE_XP
| BLOCK_FACE_YM | BLOCK_FACE_YP
| BLOCK_FACE_ZM | BLOCK_FACE_ZP.

#[global] Instance eBlockFace_eq_dec : EqDecision eBlockFace.
Proof. solve_decision. Defined.

(** [cCuboid]: two corners, not necessarily ordered. *)
Record cCuboid : Type := mkCuboid { p1 : Vector3i.t; p2 : Vector3i.t }.

(** Modelled from the spec: [cCuboid::Sort] (Cuboid.h), which orders the two
    corners of a bounding cuboid coordinate by coordinate, so that [p1]
    holds the minima and [p2] the maxima. *)
Definition cCuboid_Sort (c : cCuboid) : cCuboid :=
  {| p1 := Vector3i.mk (Z.min (Vector3i.x (p1 c)) (Vector3i.x (p2 c)))
                       (Z.min (Vector3i.y (p1 c)) (Vector3i.y (p2 c)))
                       (Z.min (Vector3i.z (p1 c)) (Vector3i.z (p2 c)));
     p2 := Vector3i.mk (Z.max (Vector3i.x (p1 c)) (Vector3i.x (p2 c)))
                       (Z.max (Vector3i.y (p1 c)) (Vector3i.y (p2 c)))
                       (Z.max (Vector3i.z (p1 c)) (Vector3i.z (p2 c))) |}.

(** ** Blocks and biomes *)

(** [BLOCKTYPE] and [NIBBLETYPE] are [unsigned char]. *)
Definition BLOCKTYPE : Type := Z.
Definition NIBBLETYPE : Type := Z.

(** [EMCSBiome]: the six enumerators [CreateStructure] names, and [biOther n]
    for every other enumerator of the enumeration (the [default:] of its
    [switch]). *)
Inductive EMCSBiome : Type :=
| biDesert | biDesertM
| biPlains | biSavanna | biSavannaM | biSunflowerPlains
| biOther (n : Z).

#[global] Instance EMCSBiome_eq_dec : EqDecision EMCSBiome.
Proof. solve_decision. Defined.

(** ** Pieces *)

(** [cPiece::cConnector] *)
Record cConnector : Type := mkConnector {
  m_Pos : Vector3i.t;
  m_Type : Z;
  m_Direction : eBlockFace
}.

#[global] Instance cConnector_eq_dec : EqDecision cConnector.
Proof. solve_decision. Defined.

(** Modelled from the spec: [cBlockArea] (BlockArea.h), a block pattern, as
    far as the road synthesis uses it: the size and the block types and
    metas, one entry per block.  [Create] makes an area of air, [Fill] sets
    every block. *)
Record cBlockArea : Type := mkBlockArea {
  ba_Size : Vector3i.t;
  ba_BlockTypes : list BLOCKTYPE;
  ba_BlockMetas : list NIBBLETYPE
}.

Definition cBlockArea_Create (a_SizeX a_SizeY a_SizeZ : Z) : cBlockArea :=
  let n := Z.to_nat (a_SizeX * a_SizeY * a_SizeZ) in
  {| ba_Size := Vector3i.mk a_SizeX a_SizeY a_SizeZ;
     ba_BlockTypes := replicate n 0;
     ba_BlockMetas := replicate n 0 |}.

Definition cBlockArea_Fill (BA : cBlockArea) (a_BlockType : BLOCKTYPE)
    (a_BlockMeta : NIBBLETYPE) : cBlockArea :=
  {| ba_Size := ba_Size BA;
     ba_BlockTypes := replicate (length (ba_BlockTypes BA)) a_BlockType;
     ba_BlockMetas := replicate (length (ba_BlockMetas BA)) a_BlockMeta |}.

(** Modelled from the spec: [cPrefab] (Prefab.h), a piece: its block
    pattern and size, its connectors, its default weight and the flag
    telling whether it must be snapped to ground; the fields the village
    generator reads. *)
Record cPrefab : Type := mkPrefab {
  m_BlockArea : cBlockArea;
  m_Size : Vector3i.t;
  m_AllowedRotations : Z;
  m_Connectors : list cConnector;
  m_DefaultWeight : Z;
  m_MoveToGround : bool
}.

(** Modelled from the spec: [cPrefab::cPrefab(const cBlockArea &, int)]
    (Prefab.cpp), a prefab of the size of the image, without connectors,
    not snapped to ground. *)
Definition cPrefab_new (a_Image : cBlockArea) (a_AllowedRotations : Z) : cPrefab :=
  {| m_BlockArea := a_Image;
     m_Size := ba_Size a_Image;
     m_AllowedRotations := a_AllowedRotations;
     m_Connectors := [];
     m_DefaultWeight := 1;
     m_MoveToGround := false |}.

Definition GetSize (P : cPrefab) : Vector3i.t := m_Size P.
Definition ShouldMoveToGround (P : cPrefab) : bool := m_MoveToGround P.

(** Modelled from the spec: [cPrefab::AddConnector] and
    [cPrefab::SetDefaultWeight] (Prefab.cpp); a connector is a local
    position, a facing direction and a type, and is added after the
    connectors the prefab has. *)
Definition AddConnector (P : cPrefab) (a_RelX a_RelY a_RelZ : Z)
    (a_Direction : eBlockFace) (a_Type : Z) : cPrefab :=
  {| m_BlockArea := m_BlockArea P;
     m_Size := m_Size P;
     m_AllowedRotations := m_AllowedRotations P;
     m_Connectors := m_Connectors P ++
       [mkConnector (Vector3i.mk a_RelX a_RelY a_RelZ) a_Type a_Direction];
     m_DefaultWeight := m_DefaultWeight P;
     m_MoveToGround := m_MoveToGround P |}.

Definition SetDefaultWeight (P : cPrefab) (a_DefaultWeight : Z) : cPrefab :=
  {| m_BlockArea := m_BlockArea P;
     m_Size := m_Size P;
     m_AllowedRotations := m_AllowedRotations P;
     m_Connectors := m_Connectors P;
     m_DefaultWeight := a_DefaultWeight;
     m_MoveToGround := m_MoveToGround P |}.

(** ** Counting loops *)

(** The values a loop variable takes in
    [for (int x = start; x < limit; x += step)]. *)
Equations? for_below (start limit : Z) (step : positive) : list Z
    by wf (Z.to_nat (limit - start)) lt :=
  for_below start limit step with decide (start < limit) => {
    | left _ => start :: for_below (start + Z.pos step) limit step;
    | right _ => [] }.
Proof. lia. Qed.

(** The values a loop variable takes in
    [for (int x = first; x <= last; x++)]. *)
Definition for_upto (first last : Z) : list Z :=
  for_below first (last + 1) 1.

(** ** Placed pieces *)

(** Modelled from the spec: [cPlacedPiece] (PieceGenerator.h), a piece
    reference, world position, rotation, generation depth and a back-reference
    to the parent.  [m_Parent] is the index of the parent in the vector
    of placed pieces ([None] for the root, whose parent pointer is null). *)
Record cPlacedPiece : Type := mkPlacedPiece {
  m_Parent : option nat;
  m_Piece : cPrefab;
  m_Coords : Vector3i.t;
  m_NumCCWRotations : Z;
  m_HitBox : cCuboid;
  m_Depth : Z;
  m_HasBeenMovedToGround : bool
}.

Definition GetPiece (P : cPlacedPiece) : cPrefab := m_Piece P.
Definition GetCoords (P : cPlacedPiece) : Vector3i.t := m_Coords P.
Definition GetDepth (P : cPlacedPiece) : Z := m_Depth P.
Definition GetHitBox (P : cPlacedPiece) : cCuboid := m_HitBox P.
Definition GetParent (P : cPlacedPiece) : option nat := m_Parent P.
Definition HasBeenMovedToGround (P : cPlacedPiece) : bool :=
  m_HasBeenMovedToGround P.

(** Modelled from the spec: [cPlacedPiece::MoveToGroundBy] (PieceGenerator.cpp)
    offsets the piece vertically and records that it has been snapped. *)
Definition MoveToGroundBy (a_OffsetY : Z) (P : cPlacedPiece) : cPlacedPiece :=
  {| m_Parent := m_Parent P;
     m_Piece := m_Piece P;
     m_Coords := Vector3i.mk (Vector3i.x (m_Coords P))
                             (Vector3i.y (m_Coords P) + a_OffsetY)
                             (Vector3i.z (m_Coords P));
     m_NumCCWRotations := m_NumCCWRotations P;
     m_HitBox := m_HitBox P;
     m_Depth := m_Depth P;
     m_HasBeenMovedToGround := true |}.

(** ** The piece pool interface *)

(** [cPiecePool]: the queries the piece generator makes.  [PiecePlaced] and
    [Reset] are notifications that the village forwards to its prefab pool;
    this record is a pool that keeps nothing between calls, so the
    notifications are not in it.  [Shared] has them, and the state they
    change. *)
Record cPiecePool : Type := mkPiecePool {
  GetPiecesWithConnector : Z -> list cPrefab;
  GetStartingPieces : list cPrefab;
  GetPieceWeight : cPlacedPiece -> cConnector -> cPrefab -> Z;
  GetStartingPieceWeight : cPrefab -> Z
}.

(** ** The collaborators of the generator

    Code of the server outside VillageGen.cpp, taken as parameters. *)

(** ChunkDef.h and BlockID.h. *)
Class ChunkDefs : Type := {
  (** [cChunkDef::Width], [cChunkDef::Height] *)
  Width : Z;
  Height : Z;
  E_BLOCK_GRAVEL : BLOCKTYPE;
  E_BLOCK_PLANKS : BLOCKTYPE;
  (** [IsBlockWater]: the block is water, flowing or still *)
  IsBlockWater : BLOCKTYPE -> bool;
  (** [IsBlockLiquid]: the block is a liquid, water or lava *)
  IsBlockLiquid : BLOCKTYPE -> bool
}.

(** [cNoise]: the integer hashes, a noise object being its seed. *)
Class cNoise : Type := {
  IntNoise2DInt : Z -> Z -> Z -> Z;
  IntNoise3DInt : Z -> Z -> Z -> Z -> Z
}.

(** Modelled from the spec: [cChunkDef::HeightMap] (ChunkDef.h), the
    per-block surface height grid of a chunk, read with
    [cChunkDef::GetHeight] at a chunk-local column. *)
Definition HeightMap : Type := Z -> Z -> Z.
Definition GetHeight (a_HeightMap : HeightMap) (a_X a_Z : Z) : Z :=
  a_HeightMap a_X a_Z.

(** [cBiomeGen] and [cTerrainHeightGen], by chunk coordinates. *)
Class Generators : Type := {
  GenBiomes : Z -> Z -> list EMCSBiome;
  GenHeightMap : Z -> Z -> HeightMap
}.

(** Modelled from the spec: [cChunkDesc] (ChunkDesc.h), the chunk-writing
    sink: the chunk coordinates and the mutable block storage of the chunk,
    read with [GetBlockType] and written with [SetBlockType] at chunk-local
    coordinates.  [m_Log] is the history of the [SetBlockType] calls
    (coordinates and block written, oldest first); it is there to state
    where a renderer writes. *)
Record cChunkDesc : Type := mkChunkDesc {
  m_ChunkX : Z;
  m_ChunkZ : Z;
  m_BlockTypes : Z -> Z -> Z -> BLOCKTYPE;
  m_Log : list (Z * Z * Z * BLOCKTYPE)
}.

Definition GetChunkX (a_Chunk : cChunkDesc) : Z := m_ChunkX a_Chunk.
Definition GetChunkZ (a_Chunk : cChunkDesc) : Z := m_ChunkZ a_Chunk.

Definition GetBlockType (a_Chunk : cChunkDesc) (a_RelX a_RelY a_RelZ : Z)
    : BLOCKTYPE :=
  m_BlockTypes a_Chunk a_RelX a_RelY a_RelZ.

Definition SetBlockType (a_Chunk : cChunkDesc) (a_RelX a_RelY a_RelZ : Z)
    (a_BlockType : BLOCKTYPE) : cChunkDesc :=
  {| m_ChunkX := m_ChunkX a_Chunk;
     m_ChunkZ := m_ChunkZ a_Chunk;
     m_BlockTypes := fun bx by_ bz =>
       if decide (bx = a_RelX /\ by_ = a_RelY /\ bz = a_RelZ)
       then a_BlockType else m_BlockTypes a_Chunk bx by_ bz;
     m_Log := m_Log a_Chunk ++ [(a_RelX, a_RelY, a_RelZ, a_BlockType)] |}.

(** Piece.cpp, Prefab.cpp, PrefabPiecePool.cpp and PieceGenerator.cpp. *)
Class PieceEngine : Type := {
  (** the rotation part of [cPiece::RotateMoveConnector]: the connector in
      the piece's own frame after the given number of CCW rotations *)
  RotateConnector : cPrefab -> cConnector -> Z -> cConnector;
  (** [cPrefab::GetPieceWeight] of the new piece *)
  cPrefab_GetPieceWeight : cPrefab -> cPlacedPiece -> cConnector -> Z;
  (** [cPrefabPiecePool::GetStartingPieceWeight] *)
  cPrefabPiecePool_GetStartingPieceWeight : cPrefab -> Z;
  (** [cBFSPieceGenerator(pool, seed).PlacePieces(x, y, z, maxDepth, out)] *)
  PlacePieces : cPiecePool -> Z -> Z -> Z -> Z -> Z -> list cPlacedPiece;
  (** [cPrefab::Draw] *)
  cPrefab_Draw : cPrefab -> cChunkDesc -> cPlacedPiece -> cChunkDesc
}.

(** The prefab definitions of the five village styles (the headers under
    Prefabs), as the prefabs built from them. *)
Class PrefabSets : Type := {
  g_SandVillagePrefabs : list cPrefab;
  g_SandVillageStartingPrefabs : list cPrefab;
  g_SandFlatRoofVillagePrefabs : list cPrefab;
  g_SandFlatRoofVillageStartingPrefabs : list cPrefab;
  g_AlchemistVillagePrefabs : list cPrefab;
  g_AlchemistVillageStartingPrefabs : list cPrefab;
  g_PlainsVillagePrefabs : list cPrefab;
  g_PlainsVillageStartingPrefabs : list cPrefab;
  g_JapaneseVillagePrefabs : list cPrefab;
  g_JapaneseVillageStartingPrefabs : list cPrefab
}.

(** ** cVillagePiecePool *)

(** The pool of one village style: the members of [cPrefabPiecePool]
    (PrefabPiecePool.h) that [cVillagePiecePool] fills. *)
Record cVillagePiecePool : Type := mkVillagePiecePool {
  m_AllPieces : list cPrefab;
  m_PiecesByConnector : gmap Z (list cPrefab);
  m_StartingPieces : list cPrefab
}.

(** [m_PiecesByConnector[a_Type].push_back(a_Piece)] *)
Definition push_back_by_connector (a_Type : Z) (a_Piece : cPrefab)
    (m : gmap Z (list cPrefab)) : gmap Z (list cPrefab) :=
  <[a_Type := default [] (m !! a_Type) ++ [a_Piece]]> m.

(** Modelled from the spec: the constructor of [cPrefabPiecePool]
    (PrefabPiecePool.cpp) holds the building pieces and the starting pieces
    of the style, and indexes the pieces by each connector type they
    expose. *)
Definition cPrefabPiecePool_new (a_PieceDefs a_StartingPieceDefs : list cPrefab)
    : cVillagePiecePool :=
  {| m_AllPieces := a_PieceDefs;
     m_PiecesByConnector :=
       foldl (fun m P =>
                foldl (fun m c => push_back_by_connector (m_Type c) P m)
                      m (m_Connectors P))
             ∅ a_PieceDefs;
     m_StartingPieces := a_StartingPieceDefs |}.

(** ** cVillageGen::cVillage *)

Record cVillage : Type := mkVillage {
  (* cGridStructGen::cStructure *)
  m_GridX : Z;
  m_GridZ : Z;
  m_OriginX : Z;
  m_OriginZ : Z;
  (* cVillage *)
  m_Seed : Z;
  m_Noise : Z;
  m_MaxSize : Z;
  m_Density : Z;
  m_Borders : cCuboid;
  m_Prefabs : cVillagePiecePool;
  m_Pieces : list cPlacedPiece;
  m_RoadBlock : BLOCKTYPE;
  m_WaterRoadBlock : BLOCKTYPE
}.

Definition set_Pieces (V : cVillage) (a_Pieces : list cPlacedPiece) : cVillage :=
  {| m_GridX := m_GridX V; m_GridZ := m_GridZ V;
     m_OriginX := m_OriginX V; m_OriginZ := m_OriginZ V;
     m_Seed := m_Seed V; m_Noise := m_Noise V;
     m_MaxSize := m_MaxSize V; m_Density := m_Density V;
     m_Borders := m_Borders V; m_Prefabs := m_Prefabs V;
     m_Pieces := a_Pieces;
     m_RoadBlock := m_RoadBlock V; m_WaterRoadBlock := m_WaterRoadBlock V |}.

(** ** cVillageGen *)

Module cVillageGen.
Record t : Type := mk {
  m_Seed : Z;
  m_Noise : Z;
  m_MaxDepth : Z;
  m_MaxSize : Z;
  m_MinDensity : Z;
  m_MaxDensity : Z
}.
End cVillageGen.

Section VillageGen.
Context `{!ChunkDefs, !cNoise, !Generators, !PieceEngine, !PrefabSets}.

(** The body of [for (int len = 27; len < 60; len += 12)]: the road piece
    of length [len]. *)
Definition RoadPiece (len : Z) : cPrefab :=
  let BA := cBlockArea_Create len 1 3 in
  let BA := cBlockArea_Fill BA E_BLOCK_GRAVEL 0 in
  let RoadPiece := cPrefab_new BA 1 in
  let RoadPiece := AddConnector RoadPiece 0 0 1 BLOCK_FACE_XM (-2) in
  let RoadPiece := AddConnector RoadPiece (len - 1) 0 1 BLOCK_FACE_XP (-2) in
  let RoadPiece := SetDefaultWeight RoadPiece 100 in
  (* Add the road connectors: *)
  let RoadPiece :=
    foldl (fun RoadPiece x =>
             let RoadPiece := AddConnector RoadPiece x 0 0 BLOCK_FACE_ZM 2 in
             AddConnector RoadPiece x 0 2 BLOCK_FACE_ZP 2)
          RoadPiece (for_below 1 len 12) in
  (* Add the buildings connectors: *)
  let RoadPiece :=
    foldl (fun RoadPiece x =>
             let RoadPiece := AddConnector RoadPiece x 0 0 BLOCK_FACE_ZM 1 in
             AddConnector RoadPiece x 0 2 BLOCK_FACE_ZP 1)
          RoadPiece (for_below 7 len 12) in
  RoadPiece.

(** The road pieces the constructor synthesizes, in the order of the loop. *)
Definition RoadPieces : list cPrefab := RoadPiece <$> for_below 27 60 12.

(** [cVillagePiecePool::cVillagePiecePool] *)
Definition cVillagePiecePool_new (a_PieceDefs a_StartingPieceDefs : list cPrefab)
    : cVillagePiecePool :=
  let super := cPrefabPiecePool_new a_PieceDefs a_StartingPieceDefs in
  foldl (fun pool len =>
           let RoadPiece := RoadPiece len in
           {| m_AllPieces := m_AllPieces pool ++ [RoadPiece];
              m_PiecesByConnector :=
                push_back_by_connector 2 RoadPiece
                  (push_back_by_connector 1 RoadPiece
                     (push_back_by_connector (-2) RoadPiece
                        (m_PiecesByConnector pool)));
              m_StartingPieces := m_StartingPieces pool |})
        super (for_below 27 60 12).

(** [cVillagePiecePool::GetPieceWeight] *)
Definition cVillagePiecePool_GetPieceWeight (a_PlacedPiece : cPlacedPiece)
    (a_ExistingConnector : cConnector) (a_NewPiece : cPrefab) : Z :=
  (* Roads cannot branch T-wise (appending -2 connector to a +2 connector on
     a 1-high piece): *)
  if bool_decide (m_Type a_ExistingConnector = 2)
     && bool_decide (GetDepth a_PlacedPiece > 0)
     && bool_decide (Vector3i.y (GetSize (GetPiece a_PlacedPiece)) = 1)
  then 0
  else cPrefab_GetPieceWeight a_NewPiece a_PlacedPiece a_ExistingConnector.

(** The pool as the piece generator sees it.  Modelled from the spec:
    [GetPiecesWithConnector] and [GetStartingPieces] are the base class's
    (PrefabPiecePool.cpp), a read of the index by connector type and of the
    starting pieces. *)
Definition cVillagePiecePool_PiecePool (pool : cVillagePiecePool) : cPiecePool :=
  {| GetPiecesWithConnector := fun a_ConnectorType =>
       default [] (m_PiecesByConnector pool !! a_ConnectorType);
     GetStartingPieces := m_StartingPieces pool;
     GetPieceWeight := cVillagePiecePool_GetPieceWeight;
     GetStartingPieceWeight := cPrefabPiecePool_GetStartingPieceWeight |}.

(** ** The operations of cVillage *)

(** Modelled from the spec: [cPlacedPiece::GetRotatedConnector]
    (PieceGenerator.cpp), the connector at its absolute world position: the
    connector of the piece, rotated as the placed piece is and moved by the
    position of the placed piece. *)
Definition GetRotatedConnector (a_Piece : cPlacedPiece) (a_Connector : cConnector)
    : cConnector :=
  let r := RotateConnector (m_Piece a_Piece) a_Connector
                           (m_NumCCWRotations a_Piece) in
  {| m_Pos := Vector3i.mk
       (Vector3i.x (m_Pos r) + Vector3i.x (m_Coords a_Piece))
       (Vector3i.y (m_Pos r) + Vector3i.y (m_Coords a_Piece))
       (Vector3i.z (m_Pos r) + Vector3i.z (m_Coords a_Piece));
     m_Type := m_Type r;
     m_Direction := m_Direction r |}.

(** [GetRotatedConnector(size_t a_Index)]; a piece without a connector of
    that index has none (the C++ indexes its vector unchecked). *)
Definition GetRotatedConnector_at (a_Piece : cPlacedPiece) (a_Index : nat)
    : option cConnector :=
  GetRotatedConnector a_Piece <$> m_Connectors (m_Piece a_Piece) !! a_Index.

(** Modelled from the spec: [cChunkDef::BlockToChunk] (ChunkDef.h), the
    chunk of a block column of the chunk-partitioned world (rounding
    down). *)
Definition BlockToChunk (a_X a_Z : Z) : Z * Z := (a_X `div` Width, a_Z `div` Width).

(** Modelled from the spec: [cChunkDef::AbsoluteToRelative] (ChunkDef.h),
    the chunk of a block column and the column in the chunk's own
    coordinates. *)
Definition AbsoluteToRelative (a_X a_Z : Z) : (Z * Z) * (Z * Z) :=
  let '(ChunkX, ChunkZ) := BlockToChunk a_X a_Z in
  ((a_X - ChunkX * Width, a_Z - ChunkZ * Width), (ChunkX, ChunkZ)).

(** [cVillage::PlacePieceOnGround]: ground level is represented by the first
    connector of the piece. *)
Definition PlacePieceOnGround (a_Piece : cPlacedPiece) : cPlacedPiece :=
  match GetRotatedConnector_at a_Piece 0 with
  | Some FirstConnector =>
      let BlockX := Vector3i.x (m_Pos FirstConnector) in
      let BlockZ := Vector3i.z (m_Pos FirstConnector) in
      let '((BlockX, BlockZ), (ChunkX, ChunkZ)) := AbsoluteToRelative BlockX BlockZ in
      let HeightMap := GenHeightMap ChunkX ChunkZ in
      let TerrainHeight := GetHeight HeightMap BlockX BlockZ in
      MoveToGroundBy (TerrainHeight - Vector3i.y (m_Pos FirstConnector) + 1) a_Piece
  | None => a_Piece
  end.

(** The loop of [cVillage::MoveAllDescendants], from index [i] on; [num] is
    the size of the vector, read once before the loop.  A piece moves when
    its parent is the pivot and it attaches strictly by connectors; its own
    descendants are then moved before the loop goes on. *)
Equations? MoveAllDescendants_from (num : nat) (a_PlacedPieces : list cPlacedPiece)
    (a_Pivot i : nat) (a_HeightDifference : Z) : list cPlacedPiece
    by wf (num - i)%nat lt :=
  MoveAllDescendants_from num a_PlacedPieces a_Pivot i a_HeightDifference
    with decide (i < num)%nat => {
    | right _ => a_PlacedPieces;
    | left _ =>
        if match a_PlacedPieces !! i with
           | Some P => bool_decide (GetParent P = Some a_Pivot)
                       && negb (ShouldMoveToGround (GetPiece P))
           | None => false
           end
        then
          MoveAllDescendants_from num
            (MoveAllDescendants_from num
               (alter (MoveToGroundBy a_HeightDifference) i a_PlacedPieces)
               i (S i) a_HeightDifference)
            a_Pivot (S i) a_HeightDifference
        else
          MoveAllDescendants_from num a_PlacedPieces a_Pivot (S i)
                                  a_HeightDifference }.
Proof. all: lia. Qed.

(** [cVillage::MoveAllDescendants] *)
Definition MoveAllDescendants (a_PlacedPieces : list cPlacedPiece)
    (a_Pivot : nat) (a_HeightDifference : Z) : list cPlacedPiece :=
  let num := length a_PlacedPieces in
  MoveAllDescendants_from num a_PlacedPieces a_Pivot (a_Pivot + 1)
                          a_HeightDifference.

(** [cVillage::GetPieceWeight]: the density check at building connectors,
    then the prefab pool's weight.  [m_Prefabs] is a [cVillagePiecePool]
    ([CreateStructure] passes one of the five global pools), so the relayed
    call is to [cVillagePiecePool::GetPieceWeight]. *)
Definition cVillage_GetPieceWeight (V : cVillage) (a_PlacedPiece : cPlacedPiece)
    (a_ExistingConnector : cConnector) (a_NewPiece : cPrefab) : Z :=
  let relay :=
    cVillagePiecePool_GetPieceWeight a_PlacedPiece a_ExistingConnector a_NewPiece in
  (* Check against the density: *)
  if bool_decide (m_Type a_ExistingConnector = 1) then
    let Coords := m_Pos (GetRotatedConnector a_PlacedPiece a_ExistingConnector) in
    let rnd :=
      (IntNoise3DInt (m_Noise V) (Vector3i.x Coords) (Vector3i.y Coords)
                     (Vector3i.z Coords) `quot` 7) `rem` 100 in
    if bool_decide (rnd > m_Density V) then 0 else relay
  else relay.

(** The village as the pool the piece generator queries: every query but
    the piece weight is relayed to [m_Prefabs]. *)
Definition cVillage_PiecePool (V : cVillage) : cPiecePool :=
  {| GetPiecesWithConnector :=
       GetPiecesWithConnector (cVillagePiecePool_PiecePool (m_Prefabs V));
     GetStartingPieces :=
       GetStartingPieces (cVillagePiecePool_PiecePool (m_Prefabs V));
     GetPieceWeight := cVillage_GetPieceWeight V;
     GetStartingPieceWeight :=
       GetStartingPieceWeight (cVillagePiecePool_PiecePool (m_Prefabs V)) |}.

(** The ground snap at the end of the constructor: the central piece, then
    its descendants that are strictly connector-driven. *)
Definition SnapToGround (a_Pieces : list cPlacedPiece) : list cPlacedPiece :=
  match a_Pieces !! 0%nat with
  | None => a_Pieces
  | Some Root =>
      if ShouldMoveToGround (GetPiece Root) then
        let OrigPosY := Vector3i.y (GetCoords Root) in
        let Root' := PlacePieceOnGround Root in
        let a_Pieces := <[0%nat := Root']> a_Pieces in
        let NewPosY := Vector3i.y (GetCoords Root') in
        MoveAllDescendants a_Pieces 0 (NewPosY - OrigPosY)
      else a_Pieces
  end.

(** The member initializers of [cVillage::cVillage]: the village before the
    body of the constructor runs, without pieces. *)
Definition cVillage_init (a_Seed a_GridX a_GridZ a_OriginX a_OriginZ
    a_MaxSize a_Density : Z) (a_Prefabs : cVillagePiecePool)
    (a_RoadBlock a_WaterRoadBlock : BLOCKTYPE) : cVillage :=
  {| m_GridX := a_GridX; m_GridZ := a_GridZ;
     m_OriginX := a_OriginX; m_OriginZ := a_OriginZ;
     m_Seed := a_Seed;
     m_Noise := a_Seed;
     m_MaxSize := a_MaxSize;
     m_Density := a_Density;
     m_Borders :=
       mkCuboid (Vector3i.mk (a_OriginX - a_MaxSize) 0 (a_OriginZ - a_MaxSize))
                (Vector3i.mk (a_OriginX + a_MaxSize) (Height - 1)
                             (a_OriginZ + a_MaxSize));
     m_Prefabs := a_Prefabs;
     m_Pieces := [];
     m_RoadBlock := a_RoadBlock;
     m_WaterRoadBlock := a_WaterRoadBlock |}.

(** [cVillage::cVillage] *)
Definition cVillage_new (a_Seed a_GridX a_GridZ a_OriginX a_OriginZ
    a_MaxRoadDepth a_MaxSize a_Density : Z) (a_Prefabs : cVillagePiecePool)
    (a_RoadBlock a_WaterRoadBlock : BLOCKTYPE) : cVillage :=
  let V := cVillage_init a_Seed a_GridX a_GridZ a_OriginX a_OriginZ
                         a_MaxSize a_Density a_Prefabs
                         a_RoadBlock a_WaterRoadBlock in
  (* Generate the pieces for this village; don't care about the Y coord: *)
  let Pieces :=
    PlacePieces (cVillage_PiecePool V) a_Seed a_OriginX 0 a_OriginZ
                (a_MaxRoadDepth + 1) in
  match Pieces with
  | [] => set_Pieces V Pieces
  | _ :: _ => set_Pieces V (SnapToGround Pieces)
  end.

(** The bounds [MinX], [MaxX], [MinZ], [MaxZ] that [cVillage::DrawRoad]
    computes: the hitbox of the road in the coordinates of the chunk, cut to
    the chunk. *)
Definition ClipRoad (a_Chunk : cChunkDesc) (a_Road : cPlacedPiece) : Z * Z * Z * Z :=
  let RoadCoords := cCuboid_Sort (GetHitBox a_Road) in
  let MinX := Z.max (Vector3i.x (p1 RoadCoords) - GetChunkX a_Chunk * Width) 0 in
  let MaxX := Z.min (Vector3i.x (p2 RoadCoords) - GetChunkX a_Chunk * Width) (Width - 1) in
  let MinZ := Z.max (Vector3i.z (p1 RoadCoords) - GetChunkZ a_Chunk * Width) 0 in
  let MaxZ := Z.min (Vector3i.z (p2 RoadCoords) - GetChunkZ a_Chunk * Width) (Width - 1) in
  (MinX, MaxX, MinZ, MaxZ).

(** The body of the loops of [cVillage::DrawRoad], for the column [x], [z]. *)
Definition DrawRoad_column (V : cVillage) (a_HeightMap : HeightMap)
    (a_Chunk : cChunkDesc) (x z : Z) : cChunkDesc :=
  if IsBlockWater (GetBlockType a_Chunk x (GetHeight a_HeightMap x z) z)
  then SetBlockType a_Chunk x (GetHeight a_HeightMap x z) z (m_WaterRoadBlock V)
  else SetBlockType a_Chunk x (GetHeight a_HeightMap x z) z (m_RoadBlock V).

(** [cVillage::DrawRoad]: the top terrain block of every column of the
    road's hitbox that lies in the chunk becomes road. *)
Definition DrawRoad (V : cVillage) (a_Chunk : cChunkDesc) (a_Road : cPlacedPiece)
    (a_HeightMap : HeightMap) : cChunkDesc :=
  let '(MinX, MaxX, MinZ, MaxZ) := ClipRoad a_Chunk a_Road in
  foldl (fun a_Chunk z =>
           foldl (fun a_Chunk x => DrawRoad_column V a_HeightMap a_Chunk x z)
                 a_Chunk (for_upto MinX MaxX))
        a_Chunk (for_upto MinZ MaxZ).

(** [cVillage::DrawIntoChunk]: roads are drawn onto the terrain, every other
    piece is placed on the ground if it asks for it and then drawn.  The
    village changes too: a piece snapped here stays snapped. *)
Definition DrawIntoChunk (V : cVillage) (a_Chunk : cChunkDesc)
    : cVillage * cChunkDesc :=
  let HeightMap := GenHeightMap (GetChunkX a_Chunk) (GetChunkZ a_Chunk) in
  let '(Pieces, a_Chunk) :=
    foldl (fun '(Pieces, a_Chunk) itr =>
      let Prefab := GetPiece itr in
      if bool_decide (Vector3i.y (GetSize (GetPiece itr)) = 1) then
        (* It's a road, special handling *)
        (Pieces ++ [itr], DrawRoad V a_Chunk itr HeightMap)
      else
        let itr :=
          if ShouldMoveToGround Prefab && negb (HasBeenMovedToGround itr)
          then PlacePieceOnGround itr else itr in
        (Pieces ++ [itr], cPrefab_Draw Prefab a_Chunk itr))
    ([], a_Chunk) (m_Pieces V) in
  (set_Pieces V Pieces, a_Chunk).

(** ** cVillageGen::CreateStructure *)

(** [cVillageGen::cVillageGen]; the grid parameters go to the base class. *)
Definition cVillageGen_new (a_Seed a_GridSize a_MaxOffset a_MaxDepth a_MaxSize
    a_MinDensity a_MaxDensity : Z) : cVillageGen.t :=
  {| cVillageGen.m_Seed := a_Seed;
     cVillageGen.m_Noise := a_Seed + 1000;
     cVillageGen.m_MaxDepth := a_MaxDepth;
     cVillageGen.m_MaxSize := a_MaxSize;
     cVillageGen.m_MinDensity := a_MinDensity;
     cVillageGen.m_MaxDensity := a_MaxDensity |}.

(** The five global pools and the two families. *)
Definition g_SandVillage : cVillagePiecePool :=
  cVillagePiecePool_new g_SandVillagePrefabs g_SandVillageStartingPrefabs.
Definition g_SandFlatRoofVillage : cVillagePiecePool :=
  cVillagePiecePool_new g_SandFlatRoofVillagePrefabs
                        g_SandFlatRoofVillageStartingPrefabs.
Definition g_AlchemistVillage : cVillagePiecePool :=
  cVillagePiecePool_new g_AlchemistVillagePrefabs g_AlchemistVillageStartingPrefabs.
Definition g_PlainsVillage : cVillagePiecePool :=
  cVillagePiecePool_new g_PlainsVillagePrefabs g_PlainsVillageStartingPrefabs.
Definition g_JapaneseVillage : cVillagePiecePool :=
  cVillagePiecePool_new g_JapaneseVillagePrefabs g_JapaneseVillageStartingPrefabs.

Definition g_DesertVillagePools : list cVillagePiecePool :=
  [g_SandVillage; g_SandFlatRoofVillage; g_AlchemistVillage].
Definition g_PlainsVillagePools : list cVillagePiecePool :=
  [g_PlainsVillage; g_JapaneseVillage].

(** [pools[index]] for one of the two global arrays.  The index is a
    remainder of the hash of the origin, which [cNoise] never makes
    negative.  For a negative hash the C++ would convert it to [size_t]
    before taking the remainder and so index inside the array; the model
    does not follow it there and reads [dflt]. *)
Definition pool_at (pools : list cVillagePiecePool) (index : Z)
    (dflt : cVillagePiecePool) : cVillagePiecePool :=
  if bool_decide (0 <= index) then default dflt (pools !! Z.to_nat index)
  else dflt.

(** The loop over the biomes of the chunk: [None] when the [switch] bails
    out, otherwise the value of [VillagePrefabs] after the last biome (a null
    pointer being [None]). *)
Fixpoint CheckBiomes (DesertVillage PlainsVillage : cVillagePiecePool)
    (Biomes : list EMCSBiome) (VillagePrefabs : option cVillagePiecePool)
    : option (option cVillagePiecePool) :=
  match Biomes with
  | [] => Some VillagePrefabs
  | b :: Biomes =>
      match b with
      | biDesert | biDesertM =>
          (* These biomes allow sand villages *)
          CheckBiomes DesertVillage PlainsVillage Biomes (Some DesertVillage)
      | biPlains | biSavanna | biSavannaM | biSunflowerPlains =>
          (* These biomes allow plains-style villages *)
          CheckBiomes DesertVillage PlainsVillage Biomes (Some PlainsVillage)
      | biOther _ =>
          (* Village-unfriendly biome, bail out with zero structure: *)
          None
      end
  end.

(** The density of the village, between [m_MinDensity] and [m_MaxDensity]. *)
Definition ChooseDensity (G : cVillageGen.t) (rnd : Z) : Z :=
  if bool_decide (cVillageGen.m_MaxDensity G > cVillageGen.m_MinDensity G)
  then cVillageGen.m_MinDensity G
       + rnd `rem` (cVillageGen.m_MaxDensity G - cVillageGen.m_MinDensity G)
  else cVillageGen.m_MinDensity G.

(** [cVillageGen::CreateStructure]; [None] is the empty [cStructurePtr]. *)
Definition CreateStructure (G : cVillageGen.t)
    (a_GridX a_GridZ a_OriginX a_OriginZ : Z) : option cVillage :=
  (* Generate the biomes for the chunk surrounding the origin: *)
  let '(ChunkX, ChunkZ) := BlockToChunk a_OriginX a_OriginZ in
  let Biomes := GenBiomes ChunkX ChunkZ in
  (* Check if all the biomes are village-friendly: *)
  let RoadBlock := E_BLOCK_GRAVEL in
  let WaterRoadBlock := E_BLOCK_PLANKS in
  let rnd := IntNoise2DInt (cVillageGen.m_Noise G) a_OriginX a_OriginZ `quot` 11 in
  let PlainsVillage :=
    pool_at g_PlainsVillagePools
            (rnd `rem` Z.of_nat (length g_PlainsVillagePools)) g_PlainsVillage in
  let DesertVillage :=
    pool_at g_DesertVillagePools
            (rnd `rem` Z.of_nat (length g_DesertVillagePools)) g_SandVillage in
  match CheckBiomes DesertVillage PlainsVillage Biomes None with
  | None => None
  | Some VillagePrefabs =>
      (* Choose density for the village: *)
      let Density := ChooseDensity G rnd in
      (* Create a village based on the chosen prefabs: *)
      match VillagePrefabs with
      | None => None
      | Some VillagePrefabs =>
          Some (cVillage_new (cVillageGen.m_Seed G) a_GridX a_GridZ
                  a_OriginX a_OriginZ
                  (cVillageGen.m_MaxDepth G) (cVillageGen.m_MaxSize G) Density
                  VillagePrefabs RoadBlock WaterRoadBlock)
      end
  end.

(** ** The vocabulary of the properties *)

Definition road_connector (a_X a_Z : Z) (a_Direction : eBlockFace) (a_Type : Z)
    : cConnector :=
  mkConnector (Vector3i.mk a_X 0 a_Z) a_Type a_Direction.

(** The pseudo-random value of the density check at a connector: the hash
    of the absolute position of the connector, reduced. *)
Definition density_rnd (V : cVillage) (a_PlacedPiece : cPlacedPiece)
    (a_ExistingConnector : cConnector) : Z :=
  let Coords := m_Pos (GetRotatedConnector a_PlacedPiece a_ExistingConnector) in
  (IntNoise3DInt (m_Noise V) (Vector3i.x Coords) (Vector3i.y Coords)
                 (Vector3i.z Coords) `quot` 7) `rem` 100.

Definition IsVillageFriendly (b : EMCSBiome) : bool :=
  match b with biOther _ => false | _ => true end.

Definition IsDesertFamily (b : EMCSBiome) : bool :=
  match b with biDesert | biDesertM => true | _ => false end.

Definition IsPlainsFamily (b : EMCSBiome) : bool :=
  match b with
  | biPlains | biSavanna | biSavannaM | biSunflowerPlains => true
  | _ => false
  end.

(** The hash of the origin that selects the style and the density. *)
Definition origin_rnd (G : cVillageGen.t) (a_OriginX a_OriginZ : Z) : Z :=
  IntNoise2DInt (cVillageGen.m_Noise G) a_OriginX a_OriginZ `quot` 11.

(** The biomes [CreateStructure] samples for an origin. *)
Definition origin_biomes (a_OriginX a_OriginZ : Z) : list EMCSBiome :=
  GenBiomes (a_OriginX `div` Width) (a_OriginZ `div` Width).

Definition origin_DesertVillage (G : cVillageGen.t) (a_OriginX a_OriginZ : Z)
    : cVillagePiecePool :=
  pool_at g_DesertVillagePools
          (origin_rnd G a_OriginX a_OriginZ `rem` 3) g_SandVillage.

Definition origin_PlainsVillage (G : cVillageGen.t) (a_OriginX a_OriginZ : Z)
    : cVillagePiecePool :=
  pool_at g_PlainsVillagePools
          (origin_rnd G a_OriginX a_OriginZ `rem` 2) g_PlainsVillage.

(** The terrain height [PlacePieceOnGround] reads for the column [a_X],
    [a_Z] of the world. *)
Definition TerrainHeightAt (a_X a_Z : Z) : Z :=
  let '((BlockX, BlockZ), (ChunkX, ChunkZ)) := AbsoluteToRelative a_X a_Z in
  GetHeight (GenHeightMap ChunkX ChunkZ) BlockX BlockZ.

(** Parents come before their children in the vector of placed pieces, as
    the piece generator appends a piece after the piece it attaches to. *)
Definition ParentsFirst (a_Pieces : list cPlacedPiece) : Prop :=
  forall (i j : nat) (P : cPlacedPiece),
    a_Pieces !! i = Some P -> GetParent P = Some j -> (j < i)%nat.

(** [CascadeChain pieces pivot c k]: the piece [k] hangs below the pivot by
    a chain of parents that starts with the child [c] of the pivot, and no
    piece of the chain, from [c] to [k], is moved to ground by its own
    rule. *)
Inductive CascadeChain (a_Pieces : list cPlacedPiece) (a_Pivot : nat)
    : nat -> nat -> Prop :=
| chain_child (c : nat) (P : cPlacedPiece) :
    a_Pieces !! c = Some P ->
    GetParent P = Some a_Pivot ->
    ShouldMoveToGround (GetPiece P) = false ->
    CascadeChain a_Pieces a_Pivot c c
| chain_step (c j k : nat) (P : cPlacedPiece) :
    CascadeChain a_Pieces a_Pivot c j ->
    a_Pieces !! k = Some P ->
    GetParent P = Some j ->
    ShouldMoveToGround (GetPiece P) = false ->
    CascadeChain a_Pieces a_Pivot c k.

(** The piece [k] is a descendant of the pivot that attaches to it strictly
    by connectors, as all the pieces between them do. *)
Definition Cascades (a_Pieces : list cPlacedPiece) (a_Pivot k : nat) : Prop :=
  exists c, CascadeChain a_Pieces a_Pivot c k.

(** The piece [k] is the piece [j] or a descendant of it. *)
Inductive BelowOrAt (a_Pieces : list cPlacedPiece) (j : nat) : nat -> Prop :=
| below_refl : BelowOrAt a_Pieces j j
| below_step (k p : nat) (P : cPlacedPiece) :
    a_Pieces !! k = Some P ->
    GetParent P = Some p ->
    BelowOrAt a_Pieces j p ->
    BelowOrAt a_Pieces j k.

(** Two vectors of placed pieces with the same pieces and the same tree. *)
Definition same_shape (a_Pieces a_Pieces' : list cPlacedPiece) : Prop :=
  forall i : nat,
    (fun P => (GetParent P, GetPiece P)) <$> a_Pieces !! i =
    (fun P => (GetParent P, GetPiece P)) <$> a_Pieces' !! i.

(** The column [a_X], [a_Z] of the world lies under the road. *)
Definition InRoadFootprint (a_Road : cPlacedPiece) (a_X a_Z : Z) : Prop :=
  let RoadCoords := GetHitBox a_Road in
  Z.min (Vector3i.x (p1 RoadCoords)) (Vector3i.x (p2 RoadCoords)) <= a_X
    <= Z.max (Vector3i.x (p1 RoadCoords)) (Vector3i.x (p2 RoadCoords))
  /\ Z.min (Vector3i.z (p1 RoadCoords)) (Vector3i.z (p2 RoadCoords)) <= a_Z
    <= Z.max (Vector3i.z (p1 RoadCoords)) (Vector3i.z (p2 RoadCoords)).

(** The column [x], [z] of the chunk is a column of the chunk that lies
    under the road: a column of the footprint clipped to the chunk. *)
Definition RoadColumn (a_Chunk : cChunkDesc) (a_Road : cPlacedPiece) (x z : Z)
    : Prop :=
  0 <= x <= Width - 1 /\ 0 <= z <= Width - 1
  /\ InRoadFootprint a_Road (x + GetChunkX a_Chunk * Width)
                            (z + GetChunkZ a_Chunk * Width).

(** The block a road puts on a surface block. *)
Definition paving (V : cVillage) (a_Surface : BLOCKTYPE) : BLOCKTYPE :=
  if IsBlockWater a_Surface then m_WaterRoadBlock V else m_RoadBlock V.

(** The [SetBlockType] calls made between two states of a chunk. *)
Definition writes_between (before after : cChunkDesc)
    : list (Z * Z * Z * BLOCKTYPE) :=
  drop (length (m_Log before)) (m_Log after).

(** Two placed pieces that differ at most by their height and by the mark
    of the ground snap: the same piece, parent, depth, rotation, x and z. *)
Definition same_but_height (P P' : cPlacedPiece) : Prop :=
  GetParent P' = GetParent P /\ GetPiece P' = GetPiece P
  /\ GetDepth P' = GetDepth P /\ m_NumCCWRotations P' = m_NumCCWRotations P
  /\ Vector3i.x (GetCoords P') = Vector3i.x (GetCoords P)
  /\ Vector3i.z (GetCoords P') = Vector3i.z (GetCoords P).

(** The placed piece is a road: [DrawIntoChunk] tells roads by their
    height. *)
Definition IsRoad (P : cPlacedPiece) : bool :=
  bool_decide (Vector3i.y (GetSize (GetPiece P)) = 1).

(** What one turn of the loop of [DrawIntoChunk] does to the piece it
    visits. *)
Definition SnapAtDraw (itr : cPlacedPiece) : cPlacedPiece :=
  if IsRoad itr then itr
  else if ShouldMoveToGround (GetPiece itr) && negb (HasBeenMovedToGround itr)
       then PlacePieceOnGround itr
       else itr.

End VillageGen.

(** ** The objects shared between calls

    What outlives a call of [CreateStructure] and is reached again by the
    next one: the five global pools, which a village holds by reference and
    to which it relays [PiecePlaced] and [Reset], and the biome and height
    generators, which the village generator and its villages hold by shared
    pointer.  In [Shared] the code of the constructor and of
    [CreateStructure] runs on an explicit store of these objects.  The noise
    objects are not in the store: a [cNoise] is its seed, and [m_Noise] is a
    member by value of the generator and of every village.

    The definitions above are this code for collaborators that keep nothing
    between calls. *)

Module Shared.

(** The address of a global pool: what [cVillagePiecePool * VillagePrefabs]
    and [cPiecePool & m_Prefabs] hold. *)
Inductive cVillagePiecePoolPtr : Type :=
  | addr_g_SandVillage
  | addr_g_SandFlatRoofVillage
  | addr_g_AlchemistVillage
  | addr_g_PlainsVillage
  | addr_g_JapaneseVillage.

#[global] Instance cVillagePiecePoolPtr_eq_dec : EqDecision cVillagePiecePoolPtr.
Proof. solve_decision. Defined.

(** What [cBFSPieceGenerator::PlacePieces] does with the pool it was built
    on: the pool is all it is given besides its seed and the arguments of
    the call, so a run is a tree of calls of the [cPiecePool] interface,
    every answer deciding how the run goes on, down to the pieces placed. *)
Inductive PoolCalls : Type :=
  | Placed (a_OutPieces : list cPlacedPiece)
  | call_GetPiecesWithConnector (a_ConnectorType : Z)
      (then_ : list cPrefab -> PoolCalls)
  | call_GetStartingPieces (then_ : list cPrefab -> PoolCalls)
  | call_GetPieceWeight (a_PlacedPiece : cPlacedPiece)
      (a_ExistingConnector : cConnector) (a_NewPiece : cPrefab)
      (then_ : Z -> PoolCalls)
  | call_GetStartingPieceWeight (a_NewPiece : cPrefab) (then_ : Z -> PoolCalls)
  | call_PiecePlaced (a_Piece : cPrefab) (then_ : PoolCalls)
  | call_Reset (then_ : PoolCalls).

(** PrefabPiecePool.cpp, PieceGenerator.cpp and the two generators, with the
    state they keep.  None of the methods is const: each takes the state of
    its object and leaves a new one.  The methods of [cPrefabPiecePool] also
    take the members that [cVillagePiecePool] fills, which do not change
    once the pool is built. *)
Class Objects : Type := {
  (** the members of a [cPrefabPiecePool] that its methods change *)
  cPrefabPiecePool_state : Type;
  cPrefabPiecePool_GetPiecesWithConnector :
    cVillagePiecePool -> Z -> cPrefabPiecePool_state
    -> list cPrefab * cPrefabPiecePool_state;
  cPrefabPiecePool_GetStartingPieces :
    cVillagePiecePool -> cPrefabPiecePool_state
    -> list cPrefab * cPrefabPiecePool_state;
  cPrefabPiecePool_GetStartingPieceWeight :
    cVillagePiecePool -> cPrefab -> cPrefabPiecePool_state
    -> Z * cPrefabPiecePool_state;
  cPrefabPiecePool_PiecePlaced :
    cVillagePiecePool -> cPrefab -> cPrefabPiecePool_state
    -> cPrefabPiecePool_state;
  cPrefabPiecePool_Reset :
    cVillagePiecePool -> cPrefabPiecePool_state -> cPrefabPiecePool_state;
  (** [cBiomeGen] and [cTerrainHeightGen] with what they keep (their
      caches) *)
  cBiomeGen_state : Type;
  GenBiomes : Z -> Z -> cBiomeGen_state -> list EMCSBiome * cBiomeGen_state;
  cTerrainHeightGen_state : Type;
  GenHeightMap : Z -> Z -> cTerrainHeightGen_state
                 -> HeightMap * cTerrainHeightGen_state;
  (** the run of [cBFSPieceGenerator(pool, seed).PlacePieces(x, y, z,
      maxDepth, out)] *)
  cBFSPieceGenerator_PlacePieces : Z -> Z -> Z -> Z -> Z -> PoolCalls
}.

Section Shared.
Context `{!ChunkDefs, !cNoise, !PieceEngine, !PrefabSets, !Objects}.

(** The shared objects: the changing members of the five global pools and
    the generators behind [m_BiomeGen] and [m_HeightGen]. *)
Record Store : Type := mkStore {
  pool_state : cVillagePiecePoolPtr -> cPrefabPiecePool_state;
  m_BiomeGen : cBiomeGen_state;
  m_HeightGen : cTerrainHeightGen_state
}.

(** Code that runs on the store: its result and the store it leaves. *)
Definition OnStore (A : Type) : Type := Store -> A * Store.

#[global] Instance OnStore_ret : MRet OnStore := fun A a σ => (a, σ).
#[global] Instance OnStore_bind : MBind OnStore := fun A B f m σ =>
  let '(a, σ) := m σ in f a σ.

(** The pool at an address, as it was built. *)
Definition deref (a_Pool : cVillagePiecePoolPtr) : cVillagePiecePool :=
  match a_Pool with
  | addr_g_SandVillage => g_SandVillage
  | addr_g_SandFlatRoofVillage => g_SandFlatRoofVillage
  | addr_g_AlchemistVillage => g_AlchemistVillage
  | addr_g_PlainsVillage => g_PlainsVillage
  | addr_g_JapaneseVillage => g_JapaneseVillage
  end.

(** A call of a method of the pool at [a_Pool]: it runs on the state of that
    pool and leaves the state of that pool changed. *)
Definition on_pool {A : Type} (a_Pool : cVillagePiecePoolPtr)
    (method : cVillagePiecePool -> cPrefabPiecePool_state
              -> A * cPrefabPiecePool_state) : OnStore A :=
  fun σ =>
    let '(a, s) := method (deref a_Pool) (pool_state σ a_Pool) in
    (a, {| pool_state := fun p => if decide (p = a_Pool) then s
                                  else pool_state σ p;
           m_BiomeGen := m_BiomeGen σ;
           m_HeightGen := m_HeightGen σ |}).

(** [m_BiomeGen->GenBiomes(ChunkX, ChunkZ, Biomes)] *)
Definition m_BiomeGen_GenBiomes (ChunkX ChunkZ : Z) : OnStore (list EMCSBiome) :=
  fun σ =>
    let '(Biomes, s) := GenBiomes ChunkX ChunkZ (m_BiomeGen σ) in
    (Biomes, {| pool_state := pool_state σ;
                m_BiomeGen := s;
                m_HeightGen := m_HeightGen σ |}).

(** [m_HeightGen->GenHeightMap(ChunkX, ChunkZ, HeightMap)] *)
Definition m_HeightGen_GenHeightMap (ChunkX ChunkZ : Z) : OnStore HeightMap :=
  fun σ =>
    let '(HeightMap, s) := GenHeightMap ChunkX ChunkZ (m_HeightGen σ) in
    (HeightMap, {| pool_state := pool_state σ;
                   m_BiomeGen := m_BiomeGen σ;
                   m_HeightGen := s |}).

(** The [cPiecePool] overrides of [cVillage], for the village with the
    members [V] and with [m_Prefabs] the pool at [a_Prefabs].  All but
    [GetPieceWeight] are relayed to [m_Prefabs], where [cVillagePiecePool]
    inherits them from [cPrefabPiecePool]. *)
Definition cVillage_GetPiecesWithConnector (a_Prefabs : cVillagePiecePoolPtr)
    (a_ConnectorType : Z) : OnStore (list cPrefab) :=
  on_pool a_Prefabs
    (fun m_Prefabs => cPrefabPiecePool_GetPiecesWithConnector m_Prefabs a_ConnectorType).

Definition cVillage_GetStartingPieces (a_Prefabs : cVillagePiecePoolPtr)
    : OnStore (list cPrefab) :=
  on_pool a_Prefabs cPrefabPiecePool_GetStartingPieces.

Definition cVillage_GetStartingPieceWeight (a_Prefabs : cVillagePiecePoolPtr)
    (a_NewPiece : cPrefab) : OnStore Z :=
  on_pool a_Prefabs
    (fun m_Prefabs => cPrefabPiecePool_GetStartingPieceWeight m_Prefabs a_NewPiece).

Definition cVillage_PiecePlaced (a_Prefabs : cVillagePiecePoolPtr)
    (a_Piece : cPrefab) : OnStore unit :=
  on_pool a_Prefabs
    (fun m_Prefabs s => (tt, cPrefabPiecePool_PiecePlaced m_Prefabs a_Piece s)).

Definition cVillage_Reset (a_Prefabs : cVillagePiecePoolPtr) : OnStore unit :=
  on_pool a_Prefabs (fun m_Prefabs s => (tt, cPrefabPiecePool_Reset m_Prefabs s)).

(** [pg.PlacePieces(...)] for [cBFSPieceGenerator pg( *this, a_Seed)]: the
    calls of the run land on the village.  [cVillage::GetPieceWeight] reads
    no shared object: after the density check it is
    [cVillagePiecePool::GetPieceWeight], which asks the new piece, a
    [const cPrefab], for its weight. *)
Fixpoint PlacePieces (V : cVillage) (a_Prefabs : cVillagePiecePoolPtr)
    (pg : PoolCalls) : OnStore (list cPlacedPiece) :=
  match pg with
  | Placed a_OutPieces => mret a_OutPieces
  | call_GetPiecesWithConnector a_ConnectorType then_ =>
      Pieces ← cVillage_GetPiecesWithConnector a_Prefabs a_ConnectorType;
      PlacePieces V a_Prefabs (then_ Pieces)
  | call_GetStartingPieces then_ =>
      Pieces ← cVillage_GetStartingPieces a_Prefabs;
      PlacePieces V a_Prefabs (then_ Pieces)
  | call_GetPieceWeight a_PlacedPiece a_ExistingConnector a_NewPiece then_ =>
      PlacePieces V a_Prefabs
        (then_ (cVillage_GetPieceWeight V a_PlacedPiece a_ExistingConnector
                                        a_NewPiece))
  | call_GetStartingPieceWeight a_NewPiece then_ =>
      Weight ← cVillage_GetStartingPieceWeight a_Prefabs a_NewPiece;
      PlacePieces V a_Prefabs (then_ Weight)
  | call_PiecePlaced a_Piece then_ =>
      _ ← cVillage_PiecePlaced a_Prefabs a_Piece;
      PlacePieces V a_Prefabs then_
  | call_Reset then_ =>
      _ ← cVillage_Reset a_Prefabs;
      PlacePieces V a_Prefabs then_
  end.

(** [cVillage::PlacePieceOnGround] *)
Definition PlacePieceOnGround (a_Piece : cPlacedPiece) : OnStore cPlacedPiece :=
  match GetRotatedConnector_at a_Piece 0 with
  | Some FirstConnector =>
      let BlockX := Vector3i.x (m_Pos FirstConnector) in
      let BlockZ := Vector3i.z (m_Pos FirstConnector) in
      let '((BlockX, BlockZ), (ChunkX, ChunkZ)) := AbsoluteToRelative BlockX BlockZ in
      HeightMap ← m_HeightGen_GenHeightMap ChunkX ChunkZ;
      let TerrainHeight := GetHeight HeightMap BlockX BlockZ in
      mret (MoveToGroundBy (TerrainHeight - Vector3i.y (m_Pos FirstConnector) + 1)
                           a_Piece)
  | None => mret a_Piece
  end.

(** The ground snap at the end of the constructor. *)
Definition SnapToGround (a_Pieces : list cPlacedPiece)
    : OnStore (list cPlacedPiece) :=
  match a_Pieces !! 0%nat with
  | None => mret a_Pieces
  | Some Root =>
      if ShouldMoveToGround (GetPiece Root) then
        let OrigPosY := Vector3i.y (GetCoords Root) in
        Root' ← PlacePieceOnGround Root;
        let a_Pieces := <[0%nat := Root']> a_Pieces in
        let NewPosY := Vector3i.y (GetCoords Root') in
        mret (MoveAllDescendants a_Pieces 0 (NewPosY - OrigPosY))
      else mret a_Pieces
  end.

(** [cVillage::cVillage] *)
Definition cVillage_new (a_Seed a_GridX a_GridZ a_OriginX a_OriginZ
    a_MaxRoadDepth a_MaxSize a_Density : Z) (a_Prefabs : cVillagePiecePoolPtr)
    (a_RoadBlock a_WaterRoadBlock : BLOCKTYPE) : OnStore cVillage :=
  let V := cVillage_init a_Seed a_GridX a_GridZ a_OriginX a_OriginZ
                         a_MaxSize a_Density (deref a_Prefabs)
                         a_RoadBlock a_WaterRoadBlock in
  (* Generate the pieces for this village; don't care about the Y coord: *)
  Pieces ← PlacePieces V a_Prefabs
             (cBFSPieceGenerator_PlacePieces a_Seed a_OriginX 0 a_OriginZ
                                             (a_MaxRoadDepth + 1));
  match Pieces with
  | [] => mret (set_Pieces V Pieces)
  | _ :: _ =>
      Pieces ← SnapToGround Pieces;
      mret (set_Pieces V Pieces)
  end.

(** The two global arrays of pool addresses. *)
Definition g_DesertVillagePools : list cVillagePiecePoolPtr :=
  [addr_g_SandVillage; addr_g_SandFlatRoofVillage; addr_g_AlchemistVillage].
Definition g_PlainsVillagePools : list cVillagePiecePoolPtr :=
  [addr_g_PlainsVillage; addr_g_JapaneseVillage].

(** [pools[index]], read as [pool_at] reads it. *)
Definition pool_at (pools : list cVillagePiecePoolPtr) (index : Z)
    (dflt : cVillagePiecePoolPtr) : cVillagePiecePoolPtr :=
  if bool_decide (0 <= index) then default dflt (pools !! Z.to_nat index)
  else dflt.

(** The loop over the biomes of the chunk, on pool addresses. *)
Fixpoint CheckBiomes (DesertVillage PlainsVillage : cVillagePiecePoolPtr)
    (Biomes : list EMCSBiome) (VillagePrefabs : option cVillagePiecePoolPtr)
    : option (option cVillagePiecePoolPtr) :=
  match Biomes with
  | [] => Some VillagePrefabs
  | b :: Biomes =>
      match b with
      | biDesert | biDesertM =>
          CheckBiomes DesertVillage PlainsVillage Biomes (Some DesertVillage)
      | biPlains | biSavanna | biSavannaM | biSunflowerPlains =>
          CheckBiomes DesertVillage PlainsVillage Biomes (Some PlainsVillage)
      | biOther _ => None
      end
  end.

(** [cVillageGen::CreateStructure] *)
Definition CreateStructure (G : cVillageGen.t)
    (a_GridX a_GridZ a_OriginX a_OriginZ : Z) : OnStore (option cVillage) :=
  (* Generate the biomes for the chunk surrounding the origin: *)
  let '(ChunkX, ChunkZ) := BlockToChunk a_OriginX a_OriginZ in
  Biomes ← m_BiomeGen_GenBiomes ChunkX ChunkZ;
  (* Check if all the biomes are village-friendly: *)
  let RoadBlock := E_BLOCK_GRAVEL in
  let WaterRoadBlock := E_BLOCK_PLANKS in
  let rnd := IntNoise2DInt (cVillageGen.m_Noise G) a_OriginX a_OriginZ `quot` 11 in
  let PlainsVillage :=
    pool_at g_PlainsVillagePools
            (rnd `rem` Z.of_nat (length g_PlainsVillagePools))
            addr_g_PlainsVillage in
  let DesertVillage :=
    pool_at g_DesertVillagePools
            (rnd `rem` Z.of_nat (length g_DesertVillagePools))
            addr_g_SandVillage in
  match CheckBiomes DesertVillage PlainsVillage Biomes None with
  | None => mret None
  | Some VillagePrefabs =>
      (* Choose density for the village: *)
      let Density := ChooseDensity G rnd in
      (* Create a village based on the chosen prefabs: *)
      match VillagePrefabs with
      | None => mret None
      | Some VillagePrefabs =>
          V ← cVillage_new (cVillageGen.m_Seed G) a_GridX a_GridZ
                a_OriginX a_OriginZ
                (cVillageGen.m_MaxDepth G) (cVillageGen.m_MaxSize G) Density
                VillagePrefabs RoadBlock WaterRoadBlock;
          mret (Some V)
      end
  end.

(** *** The vocabulary of the properties *)

(** The generators answer by the chunk asked for, whatever they keep. *)
Definition GeneratorsRepeat : Prop :=
  (forall ChunkX ChunkZ s s',
     (GenBiomes ChunkX ChunkZ s).1 = (GenBiomes ChunkX ChunkZ s').1)
  /\ (forall ChunkX ChunkZ s s' BlockX BlockZ,
        GetHeight (GenHeightMap ChunkX ChunkZ s).1 BlockX BlockZ
        = GetHeight (GenHeightMap ChunkX ChunkZ s').1 BlockX BlockZ).

(** The queries of a pool answer by the pieces of the pool, whatever the
    pool keeps. *)
Definition ReadOnlyPools : Prop :=
  (forall m_Prefabs a_ConnectorType s s',
     (cPrefabPiecePool_GetPiecesWithConnector m_Prefabs a_ConnectorType s).1
     = (cPrefabPiecePool_GetPiecesWithConnector m_Prefabs a_ConnectorType s').1)
  /\ (forall m_Prefabs s s',
        (cPrefabPiecePool_GetStartingPieces m_Prefabs s).1
        = (cPrefabPiecePool_GetStartingPieces m_Prefabs s').1)
  /\ (forall m_Prefabs a_NewPiece s s',
        (cPrefabPiecePool_GetStartingPieceWeight m_Prefabs a_NewPiece s).1
        = (cPrefabPiecePool_GetStartingPieceWeight m_Prefabs a_NewPiece s').1).

(** [Reset] leaves a pool as it is after any other [Reset]. *)
Definition ResetClears : Prop :=
  forall m_Prefabs s s',
    cPrefabPiecePool_Reset m_Prefabs s = cPrefabPiecePool_Reset m_Prefabs s'.

(** The piece generator starts every run by resetting its pool.
    VillageGen.cpp resets no pool of its own accord: the village relays the
    [Reset] of the piece generator. *)
Definition ResetsFirst : Prop :=
  forall a_Seed a_BlockX a_BlockY a_BlockZ a_MaxDepth,
    exists then_,
      cBFSPieceGenerator_PlacePieces a_Seed a_BlockX a_BlockY a_BlockZ a_MaxDepth
      = call_Reset then_.

(** Two stores in which the pool at [a_Pool] is in the same state. *)
Definition same_pool (a_Pool : cVillagePiecePoolPtr) (σ σ' : Store) : Prop :=
  pool_state σ a_Pool = pool_state σ' a_Pool.

(** The pieces of a structure with their positions and rotations. *)
Definition composition (V : cVillage) : list (cPrefab * Vector3i.t * Z) :=
  (fun P => (GetPiece P, GetCoords P, m_NumCCWRotations P)) <$> m_Pieces V.

(** Two results of [CreateStructure] are both none, or two structures of
    the same composition. *)
Definition same_result (r r' : option cVillage) : Prop :=
  (r = None /\ r' = None)
  \/ exists V V', r = Some V /\ r' = Some V' /\ composition V = composition V'.

End Shared.
End Shared.

(** *** Collaborators that keep nothing *)

Section Stateless.
Context `{!ChunkDefs, !cNoise, !Generators, !PieceEngine, !PrefabSets,
          !Shared.Objects}.

(** The run of the piece generator on a pool that is its queries alone:
    the notifications change nothing. *)
Fixpoint PlacePieces_on (a_Pool : cPiecePool) (pg : Shared.PoolCalls)
    : list cPlacedPiece :=
  match pg with
  | Shared.Placed a_OutPieces => a_OutPieces
  | Shared.call_GetPiecesWithConnector a_ConnectorType then_ =>
      PlacePieces_on a_Pool (then_ (GetPiecesWithConnector a_Pool a_ConnectorType))
  | Shared.call_GetStartingPieces then_ =>
      PlacePieces_on a_Pool (then_ (GetStartingPieces a_Pool))
  | Shared.call_GetPieceWeight a_PlacedPiece a_ExistingConnector a_NewPiece then_ =>
      PlacePieces_on a_Pool
        (then_ (GetPieceWeight a_Pool a_PlacedPiece a_ExistingConnector a_NewPiece))
  | Shared.call_GetStartingPieceWeight a_NewPiece then_ =>
      PlacePieces_on a_Pool (then_ (GetStartingPieceWeight a_Pool a_NewPiece))
  | Shared.call_PiecePlaced _ then_ => PlacePieces_on a_Pool then_
  | Shared.call_Reset then_ => PlacePieces_on a_Pool then_
  end.

(** The shared objects answer as the collaborators of the first part do,
    whatever their state: the generators, the queries of the pools, and the
    piece generator, whose [PlacePieces] is its run. *)
Definition Stateless : Prop :=
  (forall ChunkX ChunkZ s, (Shared.GenBiomes ChunkX ChunkZ s).1 = GenBiomes ChunkX ChunkZ)
  /\ (forall ChunkX ChunkZ s BlockX BlockZ,
        GetHeight (Shared.GenHeightMap ChunkX ChunkZ s).1 BlockX BlockZ
        = GetHeight (GenHeightMap ChunkX ChunkZ) BlockX BlockZ)
  /\ (forall m_Prefabs a_ConnectorType s,
        (Shared.cPrefabPiecePool_GetPiecesWithConnector m_Prefabs a_ConnectorType s).1
        = GetPiecesWithConnector (cVillagePiecePool_PiecePool m_Prefabs) a_ConnectorType)
  /\ (forall m_Prefabs s,
        (Shared.cPrefabPiecePool_GetStartingPieces m_Prefabs s).1
        = GetStartingPieces (cVillagePiecePool_PiecePool m_Prefabs))
  /\ (forall m_Prefabs a_NewPiece s,
        (Shared.cPrefabPiecePool_GetStartingPieceWeight m_Prefabs a_NewPiece s).1
        = GetStartingPieceWeight (cVillagePiecePool_PiecePool m_Prefabs) a_NewPiece)
  /\ (forall a_Pool a_Seed a_BlockX a_BlockY a_BlockZ a_MaxDepth,
        PlacePieces a_Pool a_Seed a_BlockX a_BlockY a_BlockZ a_MaxDepth
        = PlacePieces_on a_Pool
            (Shared.cBFSPieceGenerator_PlacePieces a_Seed a_BlockX a_BlockY
                                                   a_BlockZ a_MaxDepth)).

End Stateless.

(** ** A concrete world

    One choice of the collaborators, on which the definitions above run: the
    usual chunk of 16 by 16 columns, a sign-masked integer hash, terrain
    that depends on the chunk, and a piece generator that places a well, a
    road and two houses at the origin and nothing elsewhere. *)

Module Sample.

#[export] Instance chunk_defs : ChunkDefs :=
  {| Width := 16;
     Height := 256;
     E_BLOCK_GRAVEL := 13;
     E_BLOCK_PLANKS := 5;
     IsBlockWater := fun b => bool_decide (b = 8 \/ b = 9);
     IsBlockLiquid := fun b => bool_decide (8 <= b <= 11) |}.

#[export] Instance noise : cNoise :=
  {| IntNoise2DInt := fun seed a b =>
       Z.land (seed * 185193 + a + b * 57) 2147483647;
     IntNoise3DInt := fun seed a b c =>
       Z.land (seed * 185193 + a + b * 57 + c * 3249) 2147483647 |}.

(** Chunk column 0 is plains, column 1 is half desert and half plains,
    column 2 is plains with one ocean column, the rest is ocean.  The
    terrain is 70 high in chunk column 0 and 64 high elsewhere. *)
#[export] Instance generators : Generators :=
  {| GenBiomes := fun ChunkX ChunkZ =>
       if bool_decide (ChunkX = 0) then replicate 256 biPlains
       else if bool_decide (ChunkX = 1)
            then replicate 128 biDesert ++ replicate 128 biPlains
       else if bool_decide (ChunkX = 2)
            then replicate 255 biPlains ++ [biOther 0]
       else replicate 256 (biOther 0);
     GenHeightMap := fun ChunkX ChunkZ bx bz =>
       if bool_decide (ChunkX = 0) then 70 else 64 |}.

Definition well : cPrefab :=
  {| m_BlockArea := cBlockArea_Create 4 5 4;
     m_Size := Vector3i.mk 4 5 4;
     m_AllowedRotations := 1;
     m_Connectors := [mkConnector (Vector3i.mk 2 1 0) 2 BLOCK_FACE_ZM];
     m_DefaultWeight := 1;
     m_MoveToGround := true |}.

Definition house : cPrefab :=
  {| m_BlockArea := cBlockArea_Create 5 4 5;
     m_Size := Vector3i.mk 5 4 5;
     m_AllowedRotations := 7;
     m_Connectors := [mkConnector (Vector3i.mk 2 0 0) (-1) BLOCK_FACE_ZM];
     m_DefaultWeight := 10;
     m_MoveToGround := false |}.

(** A house that follows its own ground rule. *)
Definition farm : cPrefab :=
  {| m_BlockArea := cBlockArea_Create 7 2 9;
     m_Size := Vector3i.mk 7 2 9;
     m_AllowedRotations := 7;
     m_Connectors := [mkConnector (Vector3i.mk 3 0 0) (-1) BLOCK_FACE_ZM];
     m_DefaultWeight := 10;
     m_MoveToGround := true |}.

Definition placed (a_Parent : option nat) (a_Piece : cPrefab)
    (a_X a_Y a_Z a_Depth : Z) : cPlacedPiece :=
  {| m_Parent := a_Parent;
     m_Piece := a_Piece;
     m_Coords := Vector3i.mk a_X a_Y a_Z;
     m_NumCCWRotations := 0;
     m_HitBox :=
       mkCuboid (Vector3i.mk a_X a_Y a_Z)
                (Vector3i.mk (a_X + Vector3i.x (m_Size a_Piece) - 1)
                             (a_Y + Vector3i.y (m_Size a_Piece) - 1)
                             (a_Z + Vector3i.z (m_Size a_Piece) - 1));
     m_Depth := a_Depth;
     m_HasBeenMovedToGround := false |}.

(** A road at depth 1, one of its side connectors and one of its building
    slots. *)
Definition road : cPlacedPiece := placed (Some 0%nat) (RoadPiece 27) 2 65 (-3) 1.
Definition side : cConnector := road_connector 13 0 BLOCK_FACE_ZM 2.
Definition slot : cConnector := road_connector 7 0 BLOCK_FACE_ZM 1.

(** A well at height 64, the road on it, a house and a farm on the road, and
    a shed (a house) on the farm. *)
Definition pieces : list cPlacedPiece :=
  [ placed None well 0 64 0 0;
    road;
    placed (Some 1%nat) house 9 65 (-8) 2;
    placed (Some 1%nat) farm 21 65 (-12) 2;
    placed (Some 3%nat) house 21 65 (-20) 3 ].

#[export] Instance engine : PieceEngine :=
  {| RotateConnector := fun _ c _ => c;
     cPrefab_GetPieceWeight := fun P _ _ => m_DefaultWeight P;
     cPrefabPiecePool_GetStartingPieceWeight := fun P => m_DefaultWeight P;
     PlacePieces := fun _ _ a_X _ a_Z _ =>
       if bool_decide (a_X = 0 /\ a_Z = 0) then pieces else [];
     cPrefab_Draw := fun _ a_Chunk _ => a_Chunk |}.

#[export] Instance prefab_sets : PrefabSets :=
  {| g_SandVillagePrefabs := [house];
     g_SandVillageStartingPrefabs := [well];
     g_SandFlatRoofVillagePrefabs := [house; farm];
     g_SandFlatRoofVillageStartingPrefabs := [well];
     g_AlchemistVillagePrefabs := [farm];
     g_AlchemistVillageStartingPrefabs := [well];
     g_PlainsVillagePrefabs := [house; farm];
     g_PlainsVillageStartingPrefabs := [well];
     g_JapaneseVillagePrefabs := [house];
     g_JapaneseVillageStartingPrefabs := [well] |}.

(** A generator with seed 1, densities between 50 and 80, depth 2, size 128. *)
Definition gen : cVillageGen.t := cVillageGen_new 1 384 128 2 128 50 80.

(** The village at the origin: Japanese style, density 53. *)
Definition village : cVillage :=
  cVillage_new 1 0 0 0 0 2 128 53 g_JapaneseVillage E_BLOCK_GRAVEL E_BLOCK_PLANKS.

(** A chunk of stone with still water at height 64 in its column (3, 14)
    and lava at height 64 in its column (4, 14). *)
Definition chunk (a_ChunkX a_ChunkZ : Z) : cChunkDesc :=
  {| m_ChunkX := a_ChunkX;
     m_ChunkZ := a_ChunkZ;
     m_BlockTypes := fun bx by_ bz =>
       if bool_decide (bx = 3 /\ by_ = 64 /\ bz = 14) then 9
       else if bool_decide (bx = 4 /\ by_ = 64 /\ bz = 14) then 10
       else 1;
     m_Log := [] |}.

(** The building slot on the other edge of the road, and the farm as it is
    placed. *)
Definition slot_south : cConnector := road_connector 7 2 BLOCK_FACE_ZP 1.
Definition farm_piece : cPlacedPiece := placed (Some 1%nat) farm 21 65 (-12) 2.

(** The village at the origin with other densities. *)
Definition village_at (a_Density : Z) : cVillage :=
  cVillage_new 1 0 0 0 0 2 128 a_Density g_JapaneseVillage
               E_BLOCK_GRAVEL E_BLOCK_PLANKS.

(** A road across the first one. *)
Definition cross_road : cPlacedPiece :=
  placed (Some 1%nat) (RoadPiece 27) 3 65 (-2) 2.

(** Shared objects that keep state.  A pool counts the pieces placed since
    its last reset: it offers its starting pieces only while none is placed,
    and no piece once two are placed.  The generators count the calls they
    have served.  The piece generator resets the pool and then places the
    first starting piece where it is told to and, when the pool offers roads
    and the first of them has a weight, that road on the starting piece. *)
Definition place (a_X a_Y a_Z : Z) : Shared.PoolCalls :=
  Shared.call_GetStartingPieces (fun Starting =>
    match Starting with
    | [] => Shared.Placed []
    | Start :: _ =>
        let Root := placed None Start a_X a_Y a_Z 0 in
        Shared.call_PiecePlaced Start
          (Shared.call_GetPiecesWithConnector (-2) (fun Roads =>
             match Roads, m_Connectors Start with
             | Road :: _, Connector :: _ =>
                 Shared.call_GetPieceWeight Root Connector Road (fun Weight =>
                   if bool_decide (Weight = 0) then Shared.Placed [Root]
                   else
                     Shared.call_PiecePlaced Road
                       (Shared.Placed
                          [Root;
                           placed (Some 0%nat) Road (a_X + 2) (a_Y + 1)
                                  (a_Z - 3) 1]))
             | _, _ => Shared.Placed [Root]
             end))
    end).

#[export] Instance objects : Shared.Objects :=
  {| Shared.cPrefabPiecePool_state := nat;
     Shared.cPrefabPiecePool_GetPiecesWithConnector := fun m_Prefabs a_Type n =>
       (if bool_decide (n < 2)%nat
        then default [] (m_PiecesByConnector m_Prefabs !! a_Type) else [], n);
     Shared.cPrefabPiecePool_GetStartingPieces := fun m_Prefabs n =>
       (if bool_decide (n = 0%nat) then m_StartingPieces m_Prefabs else [], n);
     Shared.cPrefabPiecePool_GetStartingPieceWeight := fun _ a_NewPiece n =>
       (m_DefaultWeight a_NewPiece, n);
     Shared.cPrefabPiecePool_PiecePlaced := fun _ _ n => S n;
     Shared.cPrefabPiecePool_Reset := fun _ _ => 0%nat;
     Shared.cBiomeGen_state := nat;
     Shared.GenBiomes := fun ChunkX ChunkZ n => (GenBiomes ChunkX ChunkZ, S n);
     Shared.cTerrainHeightGen_state := nat;
     Shared.GenHeightMap := fun ChunkX ChunkZ n =>
       (GenHeightMap ChunkX ChunkZ, S n);
     Shared.cBFSPieceGenerator_PlacePieces := fun _ a_X a_Y a_Z _ =>
       Shared.call_Reset (place a_X a_Y a_Z) |}.

(** The shared objects before any call, and after some use. *)
Definition fresh : Shared.Store :=
  {| Shared.pool_state := fun _ => 0%nat;
     Shared.m_BiomeGen := 0%nat;
     Shared.m_HeightGen := 0%nat |}.
Definition used : Shared.Store :=
  {| Shared.pool_state := fun _ => 5%nat;
     Shared.m_BiomeGen := 7%nat;
     Shared.m_HeightGen := 9%nat |}.

(** Shared objects that keep nothing: the collaborators above. *)
Definition stateless : Shared.Objects :=
  {| Shared.cPrefabPiecePool_state := unit;
     Shared.cPrefabPiecePool_GetPiecesWithConnector := fun m_Prefabs a_Type s =>
       (GetPiecesWithConnector (cVillagePiecePool_PiecePool m_Prefabs) a_Type, s);
     Shared.cPrefabPiecePool_GetStartingPieces := fun m_Prefabs s =>
       (GetStartingPieces (cVillagePiecePool_PiecePool m_Prefabs), s);
     Shared.cPrefabPiecePool_GetStartingPieceWeight := fun m_Prefabs a_NewPiece s =>
       (GetStartingPieceWeight (cVillagePiecePool_PiecePool m_Prefabs) a_NewPiece, s);
     Shared.cPrefabPiecePool_PiecePlaced := fun _ _ s => s;
     Shared.cPrefabPiecePool_Reset := fun _ s => s;
     Shared.cBiomeGen_state := unit;
     Shared.GenBiomes := fun ChunkX ChunkZ s => (GenBiomes ChunkX ChunkZ, s);
     Shared.cTerrainHeightGen_state := unit;
     Shared.GenHeightMap := fun ChunkX ChunkZ s => (GenHeightMap ChunkX ChunkZ, s);
     Shared.cBFSPieceGenerator_PlacePieces := fun _ a_X _ a_Z _ =>
       Shared.Placed (if bool_decide (a_X = 0 /\ a_Z = 0) then pieces else []) |}.

End Sample.

(** * Properties *)

(** Decides a closed decidable proposition by running its decision
    procedure. *)
Ltac by_computation := apply (bool_decide_unpack _); vm_compute; exact I.

(** ** Counting loops *)

Lemma for_below_eq (start limit : Z) (step : positive) :
  for_below start limit step =
  if decide (start < limit)
  then start :: for_below (start + Z.pos step) limit step
  else [].
Proof.
  rewrite for_below_equation_1. unfold for_below_unfold_clause_1.
  destruct (decide (start < limit)); reflexivity.
Qed.

(** Induction on the number of iterations left. *)
Lemma for_below_steps_ind (limit : Z) (step : positive) (P : Z -> Prop) :
  (forall start, (start < limit -> P (start + Z.pos step)) -> P start) ->
  forall start, P start.
Proof.
  intros IH start.
  remember (Z.to_nat (limit - start)) as n eqn:Hn.
  revert start Hn.
  induction n as [n IHn] using lt_wf_ind.
  intros start ->. apply IH. intros Hlt.
  apply (IHn (Z.to_nat (limit - (start + Z.pos step)))); [lia | reflexivity].
Qed.

Lemma elem_of_for_below (start limit : Z) (step : positive) (v : Z) :
  v ∈ for_below start limit step <->
  exists k, 0 <= k /\ v = start + k * Z.pos step /\ v < limit.
Proof.
  revert start. apply (for_below_steps_ind limit step). intros start IH.
  rewrite for_below_eq.
  destruct (decide (start < limit)) as [Hlt|Hge].
  - rewrite elem_of_cons, (IH Hlt). split.
    + intros [->|(k & Hk & -> & Hv)].
      * exists 0. lia.
      * exists (k + 1). lia.
    + intros (k & Hk & -> & Hv).
      destruct (decide (k = 0)) as [->|Hk0]; [left; lia|].
      right. exists (k - 1). lia.
  - split; [intros Hin; inversion Hin|].
    intros (k & Hk & -> & Hv). lia.
Qed.

Lemma for_below_lower (start limit : Z) (step : positive) (v : Z) :
  v ∈ for_below start limit step -> start <= v < limit.
Proof. rewrite elem_of_for_below. intros (k & Hk & -> & Hv). lia. Qed.

Lemma NoDup_for_below (start limit : Z) (step : positive) :
  NoDup (for_below start limit step).
Proof.
  revert start. apply (for_below_steps_ind limit step). intros start IH.
  rewrite for_below_eq.
  destruct (decide (start < limit)) as [Hlt|Hge]; [|constructor].
  constructor; [|auto].
  intros Hin%for_below_lower. lia.
Qed.

Lemma elem_of_for_upto (first last v : Z) :
  v ∈ for_upto first last <-> first <= v <= last.
Proof.
  unfold for_upto. rewrite elem_of_for_below. split.
  - intros (k & Hk & -> & Hv). lia.
  - intros Hv. exists (v - first). lia.
Qed.

Lemma NoDup_for_upto (first last : Z) : NoDup (for_upto first last).
Proof. apply NoDup_for_below. Qed.

Lemma for_upto_empty (first last : Z) : last < first -> for_upto first last = [].
Proof.
  intros Hlt. unfold for_upto. rewrite for_below_eq.
  destruct (decide (first < last + 1)); [lia | reflexivity].
Qed.

Section VillageGenProofs.
Context `{!ChunkDefs, !cNoise, !Generators, !PieceEngine, !PrefabSets}.

(** ** The road pieces *)

Lemma AddConnector_foldl_connectors (type : Z) (xs : list Z) (P : cPrefab) :
  m_Connectors
    (foldl (fun RoadPiece x =>
              AddConnector (AddConnector RoadPiece x 0 0 BLOCK_FACE_ZM type)
                           x 0 2 BLOCK_FACE_ZP type) P xs) =
  m_Connectors P ++
  (xs ≫= fun x => [road_connector x 0 BLOCK_FACE_ZM type;
                   road_connector x 2 BLOCK_FACE_ZP type]).
Proof.
  revert P. induction xs as [|x xs IH]; intros P; simpl.
  - by rewrite app_nil_r.
  - rewrite IH. simpl. by rewrite <- !app_assoc.
Qed.

Lemma AddConnector_foldl_size (type : Z) (xs : list Z) (P : cPrefab) :
  m_Size
    (foldl (fun RoadPiece x =>
              AddConnector (AddConnector RoadPiece x 0 0 BLOCK_FACE_ZM type)
                           x 0 2 BLOCK_FACE_ZP type) P xs) = m_Size P.
Proof. revert P. induction xs as [|x xs IH]; intros P; simpl; [done|by rewrite IH]. Qed.

Lemma RoadPiece_size (len : Z) : GetSize (RoadPiece len) = Vector3i.mk len 1 3.
Proof. unfold GetSize, RoadPiece. by rewrite !AddConnector_foldl_size. Qed.

Lemma RoadPiece_connectors (len : Z) :
  m_Connectors (RoadPiece len) =
  [road_connector 0 1 BLOCK_FACE_XM (-2);
   road_connector (len - 1) 1 BLOCK_FACE_XP (-2)]
  ++ (for_below 1 len 12 ≫= fun x =>
        [road_connector x 0 BLOCK_FACE_ZM 2; road_connector x 2 BLOCK_FACE_ZP 2])
  ++ (for_below 7 len 12 ≫= fun x =>
        [road_connector x 0 BLOCK_FACE_ZM 1; road_connector x 2 BLOCK_FACE_ZP 1]).
Proof.
  unfold RoadPiece. rewrite !AddConnector_foldl_connectors. simpl.
  reflexivity.
Qed.

(** Which connectors a road of length [len] has. *)
Lemma elem_of_RoadPiece_connectors (len : Z) (c : cConnector) :
  c ∈ m_Connectors (RoadPiece len) <->
    c = road_connector 0 1 BLOCK_FACE_XM (-2)
    \/ c = road_connector (len - 1) 1 BLOCK_FACE_XP (-2)
    \/ (exists k, 0 <= k /\ 1 + 12 * k < len /\
          (c = road_connector (1 + 12 * k) 0 BLOCK_FACE_ZM 2
           \/ c = road_connector (1 + 12 * k) 2 BLOCK_FACE_ZP 2))
    \/ (exists k, 0 <= k /\ 7 + 12 * k < len /\
          (c = road_connector (7 + 12 * k) 0 BLOCK_FACE_ZM 1
           \/ c = road_connector (7 + 12 * k) 2 BLOCK_FACE_ZP 1)).
Proof.
  rewrite RoadPiece_connectors.
  rewrite !elem_of_app, !list_elem_of_bind, !elem_of_cons, elem_of_nil.
  setoid_rewrite elem_of_for_below.
  setoid_rewrite elem_of_cons. setoid_rewrite elem_of_cons.
  setoid_rewrite elem_of_nil.
  split.
  - intros [[?|[?|[]]]|[(v & Hc & k & Hk & -> & Hv)|(v & Hc & k & Hk & -> & Hv)]].
    + by left.
    + by right; left.
    + right; right; left. exists k.
      replace (1 + 12 * k) with (1 + k * 12) by lia.
      split; [lia|split; [lia|]].
      destruct Hc as [->|[->|[]]]; [by left|by right].
    + right; right; right. exists k.
      replace (7 + 12 * k) with (7 + k * 12) by lia.
      split; [lia|split; [lia|]].
      destruct Hc as [->|[->|[]]]; [by left|by right].
  - intros [?|[?|[(k & Hk & Hv & Hc)|(k & Hk & Hv & Hc)]]].
    + left. by left.
    + left. right. by left.
    + right. left. exists (1 + 12 * k).
      split; [destruct Hc as [->| ->]; [by left|by right; left]|].
      exists k. lia.
    + right. right. exists (7 + 12 * k).
      split; [destruct Hc as [->| ->]; [by left|by right; left]|].
      exists k. lia.
Qed.

Lemma road_lengths : for_below 27 60 12 = [27; 39; 51].
Proof. vm_compute. reflexivity. Qed.

Lemma RoadPieces_eq : RoadPieces = [RoadPiece 27; RoadPiece 39; RoadPiece 51].
Proof. unfold RoadPieces. rewrite road_lengths. reflexivity. Qed.

Lemma RoadPiece_connectors_NoDup (len : Z) :
  len = 27 \/ len = 39 \/ len = 51 -> NoDup (m_Connectors (RoadPiece len)).
Proof.
  intros Hlen. rewrite RoadPiece_connectors.
  apply (bool_decide_unpack _).
  destruct Hlen as [->|[->| ->]]; vm_compute; exact I.
Qed.

(** The pool of a style holds the pieces of the style and then the three
    roads, and nothing else. *)
Lemma cVillagePiecePool_new_AllPieces (a_PieceDefs a_StartingPieceDefs : list cPrefab) :
  m_AllPieces (cVillagePiecePool_new a_PieceDefs a_StartingPieceDefs) =
  a_PieceDefs ++ RoadPieces.
Proof.
  unfold cVillagePiecePool_new. rewrite RoadPieces_eq, road_lengths. simpl.
  by rewrite <- !app_assoc.
Qed.

(** C5: every road piece synthesized into a style pool (the pieces the
    constructor adds after those of the style) is 1 high, 3 wide and 27, 39
    or 51 long; its connectors of type -2 are exactly the two at the
    far ends (x = 0 and x = L - 1), its connectors of type 2 are exactly
    those at x = 1, 13, 25, ... below L on both long edges (z = 0 and z = 2),
    its connectors of type 1 are exactly those at x = 7, 19, ... below L on
    both long edges, and it has no connector of another type. *)
Theorem road_pieces_layout (a_PieceDefs a_StartingPieceDefs : list cPrefab)
    (P : cPrefab) :
  let pool := cVillagePiecePool_new a_PieceDefs a_StartingPieceDefs in
  P ∈ drop (length a_PieceDefs) (m_AllPieces pool) ->
  exists L,
    (L = 27 \/ L = 39 \/ L = 51) /\
    GetSize P = Vector3i.mk L 1 3 /\
    NoDup (m_Connectors P) /\
    (forall c, c ∈ m_Connectors P ->
       m_Type c = -2 \/ m_Type c = 2 \/ m_Type c = 1) /\
    (forall c, c ∈ m_Connectors P /\ m_Type c = -2 <->
       c = road_connector 0 1 BLOCK_FACE_XM (-2)
       \/ c = road_connector (L - 1) 1 BLOCK_FACE_XP (-2)) /\
    (forall c, c ∈ m_Connectors P /\ m_Type c = 2 <->
       exists k, 0 <= k /\ 1 + 12 * k < L /\
         (c = road_connector (1 + 12 * k) 0 BLOCK_FACE_ZM 2
          \/ c = road_connector (1 + 12 * k) 2 BLOCK_FACE_ZP 2)) /\
    (forall c, c ∈ m_Connectors P /\ m_Type c = 1 <->
       exists k, 0 <= k /\ 7 + 12 * k < L /\
         (c = road_connector (7 + 12 * k) 0 BLOCK_FACE_ZM 1
          \/ c = road_connector (7 + 12 * k) 2 BLOCK_FACE_ZP 1)).
Proof.
  simpl. rewrite cVillagePiecePool_new_AllPieces, drop_app_length, RoadPieces_eq.
  intros HP.
  assert (exists L, (L = 27 \/ L = 39 \/ L = 51) /\ P = RoadPiece L)
    as (L & HL & ->).
  { apply elem_of_cons in HP as [->|HP]; [exists 27; auto|].
    apply elem_of_cons in HP as [->|HP]; [exists 39; auto|].
    apply elem_of_cons in HP as [->|HP]; [exists 51; auto|].
    inversion HP. }
  exists L. split; [exact HL|].
  split; [apply RoadPiece_size|].
  split; [by apply RoadPiece_connectors_NoDup|].
  split; [|split; [|split]]; intros c.
  - intros Hc. apply elem_of_RoadPiece_connectors in Hc.
    destruct Hc as [->|[->|[(k & _ & _ & [->| ->])|(k & _ & _ & [->| ->])]]];
      simpl; auto.
  - split.
    + intros [Hc Ht]. apply elem_of_RoadPiece_connectors in Hc.
      destruct Hc as [->|[->|[(k & _ & _ & [->| ->])|(k & _ & _ & [->| ->])]]];
        simpl in Ht; try discriminate; auto.
    + intros Hc. split; [apply elem_of_RoadPiece_connectors; tauto|].
      by destruct Hc as [->| ->].
  - split.
    + intros [Hc Ht]. apply elem_of_RoadPiece_connectors in Hc.
      destruct Hc as [->|[->|[(k & ? & ? & Hc)|(k & _ & _ & [->| ->])]]];
        simpl in Ht; try discriminate.
      exists k. auto.
    + intros (k & ? & ? & Hc). split.
      * apply elem_of_RoadPiece_connectors. right; right; left. exists k. auto.
      * by destruct Hc as [->| ->].
  - split.
    + intros [Hc Ht]. apply elem_of_RoadPiece_connectors in Hc.
      destruct Hc as [->|[->|[(k & _ & _ & [->| ->])|(k & ? & ? & Hc)]]];
        simpl in Ht; try discriminate.
      exists k. auto.
    + intros (k & ? & ? & Hc). split.
      * apply elem_of_RoadPiece_connectors. right; right; right. exists k. auto.
      * by destruct Hc as [->| ->].
Qed.

(** ** The weights *)

(** C1: at a connector of type 2 of a placed piece of height 1 (a road) with
    depth greater than 0, the pool's piece weight is 0 for every candidate,
    and so is the weight of every village that relays to the pool; at a
    connector of type 1 the pool's rule does not apply, whatever the placed
    piece and its depth: the weight is the candidate's own. *)
Theorem road_branch_weight (a_PlacedPiece : cPlacedPiece)
    (a_ExistingConnector : cConnector) (a_NewPiece : cPrefab) :
  (Vector3i.y (GetSize (GetPiece a_PlacedPiece)) = 1 ->
   GetDepth a_PlacedPiece > 0 ->
   m_Type a_ExistingConnector = 2 ->
   cVillagePiecePool_GetPieceWeight a_PlacedPiece a_ExistingConnector a_NewPiece = 0
   /\ forall V : cVillage,
        cVillage_GetPieceWeight V a_PlacedPiece a_ExistingConnector a_NewPiece = 0)
  /\
  (m_Type a_ExistingConnector = 1 ->
   cVillagePiecePool_GetPieceWeight a_PlacedPiece a_ExistingConnector a_NewPiece =
   cPrefab_GetPieceWeight a_NewPiece a_PlacedPiece a_ExistingConnector).
Proof.
  split.
  - intros Hheight Hdepth Htype.
    assert (cVillagePiecePool_GetPieceWeight a_PlacedPiece a_ExistingConnector
              a_NewPiece = 0) as Hpool.
    { unfold cVillagePiecePool_GetPieceWeight.
      by rewrite !bool_decide_eq_true_2. }
    split; [exact Hpool|].
    intros V. unfold cVillage_GetPieceWeight.
    rewrite bool_decide_eq_false_2; [exact Hpool | lia].
  - intros Htype. unfold cVillagePiecePool_GetPieceWeight.
    rewrite (bool_decide_eq_false_2 (m_Type a_ExistingConnector = 2)); [done | lia].
Qed.

(** C2: at an existing connector of type 1 the village hashes the absolute
    position of the connector with its seeded noise and reduces the hash to
    a value that lies in [0, 100) (the hash not being negative); the weight
    is 0 when the value exceeds the density and the pool's weight otherwise.
    At a connector of any other type the weight is the pool's. *)
Theorem village_piece_weight (V : cVillage) (a_PlacedPiece : cPlacedPiece)
    (a_ExistingConnector : cConnector) (a_NewPiece : cPrefab) :
  let Coords := m_Pos (GetRotatedConnector a_PlacedPiece a_ExistingConnector) in
  let rnd := density_rnd V a_PlacedPiece a_ExistingConnector in
  let pool :=
    cVillagePiecePool_GetPieceWeight a_PlacedPiece a_ExistingConnector a_NewPiece in
  let weight :=
    cVillage_GetPieceWeight V a_PlacedPiece a_ExistingConnector a_NewPiece in
  (m_Type a_ExistingConnector = 1 ->
     (0 <= IntNoise3DInt (m_Noise V) (Vector3i.x Coords) (Vector3i.y Coords)
                         (Vector3i.z Coords) ->
      0 <= rnd < 100)
     /\ (rnd > m_Density V -> weight = 0)
     /\ (rnd <= m_Density V -> weight = pool))
  /\ (m_Type a_ExistingConnector <> 1 -> weight = pool).
Proof.
  simpl. unfold cVillage_GetPieceWeight, density_rnd. split.
  - intros Htype. rewrite (bool_decide_eq_true_2 _ Htype). repeat split.
    + apply Z.rem_nonneg; [lia|]. by apply Z.quot_pos.
    + apply Z.rem_bound_pos; [|lia]. by apply Z.quot_pos.
    + intros Hgt. by rewrite bool_decide_eq_true_2.
    + intros Hle. rewrite bool_decide_eq_false_2; [done | lia].
  - intros Htype. by rewrite (bool_decide_eq_false_2 _ Htype).
Qed.

(** ** CreateStructure *)

Lemma CheckBiomes_unfriendly (D P : cVillagePiecePool) (Biomes : list EMCSBiome)
    (init : option cVillagePiecePool) :
  CheckBiomes D P Biomes init = None <->
  exists b, b ∈ Biomes /\ IsVillageFriendly b = false.
Proof.
  revert init. induction Biomes as [|b Biomes IH]; intros init; simpl.
  - split; [discriminate|]. intros (b & Hb & _). inversion Hb.
  - destruct b; rewrite ?IH; split;
      try (intros (b' & Hb' & Hf); exists b'; split; [by right|done]);
      try (intros (b' & [->|Hb']%elem_of_cons & Hf);
           [discriminate | by exists b']);
      try done.
    intros _. exists (biOther n). split; [by left|done].
Qed.

(** After a friendly sample the chosen pool is the one of the family of the
    last biome sampled. *)
Lemma CheckBiomes_friendly (D P : cVillagePiecePool) (Biomes : list EMCSBiome)
    (init : option cVillagePiecePool) :
  Forall (fun b => IsVillageFriendly b = true) Biomes ->
  CheckBiomes D P Biomes init =
  Some (match last Biomes with
        | Some b => Some (if IsDesertFamily b then D else P)
        | None => init
        end).
Proof.
  intros Hall. revert init.
  induction Hall as [|b Biomes Hb Hall IH]; intros init; [done|].
  simpl. rewrite last_cons.
  destruct b; try discriminate Hb; rewrite IH;
    by destruct (last Biomes).
Qed.

Lemma cVillage_new_fields (a_Seed a_GridX a_GridZ a_OriginX a_OriginZ
    a_MaxRoadDepth a_MaxSize a_Density : Z) (a_Prefabs : cVillagePiecePool)
    (a_RoadBlock a_WaterRoadBlock : BLOCKTYPE) :
  let V := cVillage_new a_Seed a_GridX a_GridZ a_OriginX a_OriginZ
             a_MaxRoadDepth a_MaxSize a_Density a_Prefabs
             a_RoadBlock a_WaterRoadBlock in
  m_Density V = a_Density /\ m_Prefabs V = a_Prefabs /\ m_Noise V = a_Seed /\
  m_RoadBlock V = a_RoadBlock /\ m_WaterRoadBlock V = a_WaterRoadBlock.
Proof.
  simpl. unfold cVillage_new.
  destruct (PlacePieces _ _ _ _ _ _); simpl; auto.
Qed.

(** What [CreateStructure] returns, case by case. *)
Lemma CreateStructure_eq (G : cVillageGen.t) (a_GridX a_GridZ a_OriginX a_OriginZ : Z) :
  CreateStructure G a_GridX a_GridZ a_OriginX a_OriginZ =
  match CheckBiomes (origin_DesertVillage G a_OriginX a_OriginZ)
                    (origin_PlainsVillage G a_OriginX a_OriginZ)
                    (origin_biomes a_OriginX a_OriginZ) None with
  | Some (Some VillagePrefabs) =>
      Some (cVillage_new (cVillageGen.m_Seed G) a_GridX a_GridZ a_OriginX a_OriginZ
              (cVillageGen.m_MaxDepth G) (cVillageGen.m_MaxSize G)
              (ChooseDensity G (origin_rnd G a_OriginX a_OriginZ))
              VillagePrefabs E_BLOCK_GRAVEL E_BLOCK_PLANKS)
  | _ => None
  end.
Proof. reflexivity. Qed.

(** C8: the density of the structure made for an accepted origin is
    [minDensity + hash % (maxDensity - minDensity)] when the maximum is
    greater than the minimum, and the minimum itself otherwise; [hash] is the
    hash of the origin (the 2D integer noise of the origin over 11). *)
Theorem village_density (G : cVillageGen.t) (a_GridX a_GridZ a_OriginX a_OriginZ : Z)
    (V : cVillage) :
  CreateStructure G a_GridX a_GridZ a_OriginX a_OriginZ = Some V ->
  let hash := origin_rnd G a_OriginX a_OriginZ in
  let minDensity := cVillageGen.m_MinDensity G in
  let maxDensity := cVillageGen.m_MaxDensity G in
  (maxDensity > minDensity ->
   m_Density V = minDensity + hash `rem` (maxDensity - minDensity))
  /\ (maxDensity <= minDensity -> m_Density V = minDensity).
Proof.
  rewrite CreateStructure_eq. intros Hcreate. simpl.
  destruct (CheckBiomes _ _ _ _) as [[pool|]|]; try discriminate Hcreate.
  injection Hcreate as <-.
  match goal with |- context [m_Density ?W] =>
    replace (m_Density W)
      with (ChooseDensity G (origin_rnd G a_OriginX a_OriginZ))
      by (symmetry; apply cVillage_new_fields) end.
  unfold ChooseDensity. split; intros Hcmp.
  - by rewrite bool_decide_eq_true_2.
  - rewrite bool_decide_eq_false_2; [done | lia].
Qed.

(** C3, as the code has it: a sample whose biomes are all village-friendly
    is not rejected, also when it holds biomes of both families; the
    structure is made, and its pool is the one chosen for the family of the
    last biome of the sample. *)
Theorem mixed_biomes_last_wins (G : cVillageGen.t)
    (a_GridX a_GridZ a_OriginX a_OriginZ : Z) :
  let Biomes := origin_biomes a_OriginX a_OriginZ in
  Forall (fun b => IsVillageFriendly b = true) Biomes ->
  (exists b, b ∈ Biomes /\ IsDesertFamily b = true) ->
  (exists b, b ∈ Biomes /\ IsPlainsFamily b = true) ->
  exists V b,
    CreateStructure G a_GridX a_GridZ a_OriginX a_OriginZ = Some V
    /\ last Biomes = Some b
    /\ m_Prefabs V =
         if IsDesertFamily b then origin_DesertVillage G a_OriginX a_OriginZ
         else origin_PlainsVillage G a_OriginX a_OriginZ.
Proof.
  simpl. intros Hall (d & Hd & _) _.
  rewrite CreateStructure_eq, (CheckBiomes_friendly _ _ _ _ Hall).
  destruct (last (origin_biomes a_OriginX a_OriginZ)) as [b|] eqn:Hlast.
  - eexists _, b. split; [reflexivity|]. split; [reflexivity|].
    apply cVillage_new_fields.
  - apply last_None in Hlast. rewrite Hlast in Hd. inversion Hd.
Qed.

(** C6, as the code has it: for the sample of a chunk (which is not empty)
    [CreateStructure] returns none exactly when some sampled biome is
    village-unfriendly; a structure whose piece assembly yields no piece is
    returned all the same, with an empty piece list. *)
Theorem CreateStructure_none_iff (G : cVillageGen.t)
    (a_GridX a_GridZ a_OriginX a_OriginZ : Z) :
  origin_biomes a_OriginX a_OriginZ <> [] ->
  (CreateStructure G a_GridX a_GridZ a_OriginX a_OriginZ = None <->
   exists b, b ∈ origin_biomes a_OriginX a_OriginZ /\ IsVillageFriendly b = false)
  /\
  (forall V,
     CreateStructure G a_GridX a_GridZ a_OriginX a_OriginZ = Some V ->
     PlacePieces (cVillage_PiecePool V) (cVillageGen.m_Seed G) a_OriginX 0
                 a_OriginZ (cVillageGen.m_MaxDepth G + 1) = [] ->
     m_Pieces V = []).
Proof.
  intros Hne. rewrite CreateStructure_eq. split.
  - rewrite <- (CheckBiomes_unfriendly (origin_DesertVillage G a_OriginX a_OriginZ)
                 (origin_PlainsVillage G a_OriginX a_OriginZ) _ None).
    destruct (CheckBiomes _ _ _ _) as [[pool|]|] eqn:Hcheck; try done.
    exfalso.
    assert (Forall (fun b => IsVillageFriendly b = true)
                   (origin_biomes a_OriginX a_OriginZ)) as Hall.
    { apply Forall_forall. intros b Hb.
      destruct (IsVillageFriendly b) eqn:Hf; [done|].
      assert (CheckBiomes (origin_DesertVillage G a_OriginX a_OriginZ)
                (origin_PlainsVillage G a_OriginX a_OriginZ)
                (origin_biomes a_OriginX a_OriginZ) None = None) as Hnone
        by (apply CheckBiomes_unfriendly; eauto).
      congruence. }
    rewrite (CheckBiomes_friendly _ _ _ _ Hall) in Hcheck.
    destruct (last (origin_biomes a_OriginX a_OriginZ)) eqn:Hlast;
      [discriminate|].
    by apply last_None in Hlast.
  - intros V HV Hempty.
    destruct (CheckBiomes _ _ _ _) as [[pool|]|]; try discriminate HV.
    injection HV as <-. revert Hempty. unfold cVillage_new.
    match goal with |- context [match ?pp with [] => _ | _ :: _ => _ end] =>
      destruct pp as [|Root rest] eqn:Hpieces end; [done|].
    intros Hempty.
    match type of Hpieces with ?lhs = _ =>
      change (lhs = []) in Hempty end.
    congruence.
Qed.

(** ** Drawing a road *)

(** The columns the two loops of [DrawRoad] visit, in order. *)
Lemma DrawRoad_loops (V : cVillage) (hm : HeightMap) (xs zs : list Z)
    (a_Chunk : cChunkDesc) :
  foldl (fun a_Chunk z =>
           foldl (fun a_Chunk x => DrawRoad_column V hm a_Chunk x z) a_Chunk xs)
        a_Chunk zs =
  foldl (fun a_Chunk col => DrawRoad_column V hm a_Chunk col.1 col.2) a_Chunk
        (zs ≫= fun z => (fun x => (x, z)) <$> xs).
Proof.
  revert a_Chunk. induction zs as [|z zs IH]; intros a_Chunk; [done|].
  simpl. rewrite foldl_app, IH. f_equal.
  generalize a_Chunk. clear.
  induction xs as [|x xs IHx]; intros a_Chunk; [done|]. simpl. by rewrite IHx.
Qed.

Lemma elem_of_columns (xs zs : list Z) (x z : Z) :
  (x, z) ∈ (zs ≫= fun z => (fun x => (x, z)) <$> xs) <-> x ∈ xs /\ z ∈ zs.
Proof.
  rewrite list_elem_of_bind. setoid_rewrite list_elem_of_fmap. split.
  - intros (z' & (x' & Heq & Hx) & Hz). by injection Heq as -> ->.
  - intros [Hx Hz]. exists z. split; [by exists x|done].
Qed.

Lemma NoDup_columns (xs zs : list Z) :
  NoDup xs -> NoDup zs -> NoDup (zs ≫= fun z => (fun x => (x, z)) <$> xs).
Proof.
  intros Hxs Hzs. induction Hzs as [|z zs Hz Hzs IH]; [constructor|].
  simpl. apply NoDup_app. split; [|split; [|exact IH]].
  - apply NoDup_fmap_2; [|exact Hxs]. intros x x' Heq. by injection Heq.
  - intros [x' z'] (x & Heq & Hx)%list_elem_of_fmap Hin.
    injection Heq as -> ->. apply elem_of_columns in Hin. tauto.
Qed.

Lemma DrawRoad_column_chunk (V : cVillage) (hm : HeightMap) (a_Chunk : cChunkDesc)
    (x z : Z) :
  m_ChunkX (DrawRoad_column V hm a_Chunk x z) = m_ChunkX a_Chunk
  /\ m_ChunkZ (DrawRoad_column V hm a_Chunk x z) = m_ChunkZ a_Chunk.
Proof. unfold DrawRoad_column. by destruct (IsBlockWater _). Qed.

Lemma DrawRoad_column_log (V : cVillage) (hm : HeightMap) (a_Chunk : cChunkDesc)
    (x z : Z) :
  m_Log (DrawRoad_column V hm a_Chunk x z) =
  m_Log a_Chunk ++
  [(x, GetHeight hm x z, z,
    paving V (GetBlockType a_Chunk x (GetHeight hm x z) z))].
Proof. unfold DrawRoad_column, paving. by destruct (IsBlockWater _). Qed.

Lemma DrawRoad_column_blocks (V : cVillage) (hm : HeightMap) (a_Chunk : cChunkDesc)
    (x z bx by_ bz : Z) :
  GetBlockType (DrawRoad_column V hm a_Chunk x z) bx by_ bz =
  if decide (bx = x /\ by_ = GetHeight hm x z /\ bz = z)
  then paving V (GetBlockType a_Chunk x (GetHeight hm x z) z)
  else GetBlockType a_Chunk bx by_ bz.
Proof.
  unfold DrawRoad_column, paving.
  destruct (IsBlockWater _); reflexivity.
Qed.

(** One pass over distinct columns: every visited column gets its paving,
    chosen by the block that was there before the pass, and nothing else
    changes. *)
Lemma DrawRoad_columns (V : cVillage) (hm : HeightMap) (cols : list (Z * Z))
    (a_Chunk : cChunkDesc) :
  NoDup cols ->
  let after :=
    foldl (fun a_Chunk col => DrawRoad_column V hm a_Chunk col.1 col.2)
          a_Chunk cols in
  m_Log after =
    m_Log a_Chunk ++
    ((fun col => (col.1, GetHeight hm col.1 col.2, col.2,
                  paving V (GetBlockType a_Chunk col.1
                              (GetHeight hm col.1 col.2) col.2))) <$> cols)
  /\ forall bx by_ bz,
       GetBlockType after bx by_ bz =
       if decide ((bx, bz) ∈ cols /\ by_ = GetHeight hm bx bz)
       then paving V (GetBlockType a_Chunk bx by_ bz)
       else GetBlockType a_Chunk bx by_ bz.
Proof.
  intros Hnodup. revert a_Chunk.
  induction Hnodup as [|[x z] cols Hnotin Hnodup IH]; intros a_Chunk.
  - cbn [foldl fmap list_fmap]. split; [by rewrite app_nil_r|].
    intros bx by_ bz. rewrite decide_False; [done|].
    intros [Hin _]. inversion Hin.
  - cbn [foldl fst snd].
    destruct (IH (DrawRoad_column V hm a_Chunk x z)) as [IHlog IHblocks].
    assert (forall x' z', (x', z') ∈ cols ->
              GetBlockType (DrawRoad_column V hm a_Chunk x z) x'
                           (GetHeight hm x' z') z'
              = GetBlockType a_Chunk x' (GetHeight hm x' z') z') as Hother.
    { intros x' z' Hin. rewrite DrawRoad_column_blocks.
      rewrite decide_False; [done|]. by intros (-> & _ & ->). }
    split.
    + rewrite IHlog, DrawRoad_column_log, <- app_assoc. simpl.
      do 2 f_equal. apply list_fmap_ext. intros i [x' z'] Hlook. simpl.
      rewrite Hother; [done|]. eapply list_elem_of_lookup_2, Hlook.
    + intros bx by_ bz. rewrite IHblocks.
      destruct (decide ((bx, bz) ∈ cols /\ by_ = GetHeight hm bx bz))
        as [[Hin ->]|Hout].
      * rewrite Hother by done.
        rewrite decide_True; [done|]. split; [by right|done].
      * rewrite DrawRoad_column_blocks.
        destruct (decide (bx = x /\ by_ = GetHeight hm x z /\ bz = z))
          as [(-> & -> & ->)|Hne].
        -- rewrite decide_True; [done|]. split; [by left|done].
        -- rewrite decide_False; [done|].
           intros [[Heq|Hin]%elem_of_cons Hh]; [|tauto].
           injection Heq as -> ->. tauto.
Qed.

Lemma ClipRoad_column (a_Chunk : cChunkDesc) (a_Road : cPlacedPiece) (x z : Z) :
  RoadColumn a_Chunk a_Road x z <->
  (ClipRoad a_Chunk a_Road).1.1.1 <= x <= (ClipRoad a_Chunk a_Road).1.1.2
  /\ (ClipRoad a_Chunk a_Road).1.2 <= z <= (ClipRoad a_Chunk a_Road).2.
Proof.
  unfold RoadColumn, InRoadFootprint, ClipRoad, cCuboid_Sort. simpl. lia.
Qed.

(** [DrawRoad] paves exactly the columns of the clipped footprint. *)
Lemma DrawRoad_spec (V : cVillage) (a_Chunk : cChunkDesc) (a_Road : cPlacedPiece)
    (hm : HeightMap) :
  exists cols : list (Z * Z),
    NoDup cols
    /\ (forall x z, (x, z) ∈ cols <-> RoadColumn a_Chunk a_Road x z)
    /\ m_Log (DrawRoad V a_Chunk a_Road hm) =
         m_Log a_Chunk ++
         ((fun col => (col.1, GetHeight hm col.1 col.2, col.2,
                       paving V (GetBlockType a_Chunk col.1
                                   (GetHeight hm col.1 col.2) col.2))) <$> cols)
    /\ forall bx by_ bz,
         GetBlockType (DrawRoad V a_Chunk a_Road hm) bx by_ bz =
         if decide ((bx, bz) ∈ cols /\ by_ = GetHeight hm bx bz)
         then paving V (GetBlockType a_Chunk bx by_ bz)
         else GetBlockType a_Chunk bx by_ bz.
Proof.
  pose proof (ClipRoad_column a_Chunk a_Road) as Hclip.
  unfold DrawRoad. destruct (ClipRoad a_Chunk a_Road) as [[[MinX MaxX] MinZ] MaxZ].
  simpl in Hclip. rewrite DrawRoad_loops.
  set (cols := for_upto MinZ MaxZ ≫= fun z => (fun x => (x, z)) <$> for_upto MinX MaxX).
  assert (NoDup cols) as Hnodup
    by (apply NoDup_columns; apply NoDup_for_upto).
  exists cols. split; [done|]. split.
  - intros x z. unfold cols. rewrite elem_of_columns, !elem_of_for_upto.
    symmetry. apply Hclip.
  - by apply DrawRoad_columns.
Qed.

Lemma DrawRoad_writes (V : cVillage) (a_Chunk : cChunkDesc) (a_Road : cPlacedPiece)
    (hm : HeightMap) (w : Z * Z * Z * BLOCKTYPE) :
  w ∈ writes_between a_Chunk (DrawRoad V a_Chunk a_Road hm) <->
  exists x z,
    RoadColumn a_Chunk a_Road x z
    /\ w = (x, GetHeight hm x z, z,
            paving V (GetBlockType a_Chunk x (GetHeight hm x z) z)).
Proof.
  destruct (DrawRoad_spec V a_Chunk a_Road hm) as (cols & _ & Hcols & Hlog & _).
  unfold writes_between. rewrite Hlog, drop_app_length, list_elem_of_fmap.
  split.
  - intros ([x z] & -> & Hin). exists x, z. split; [by apply Hcols|done].
  - intros (x & z & Hcol & ->). exists (x, z). split; [done|by apply Hcols].
Qed.

(** C7, as the code has it: drawing a road into a chunk replaces, in every
    column of the road's footprint clipped to the chunk, the block at the
    surface height of the column: by the water-crossing material if the
    block that was there is water ([IsBlockWater]; another liquid does not
    count), by the paving material otherwise.  That is the one write made in
    the column, and the blocks of the column at other heights stay. *)
Theorem road_paving (V : cVillage) (a_Chunk : cChunkDesc) (a_Road : cPlacedPiece)
    (a_HeightMap : HeightMap) (x z : Z) :
  RoadColumn a_Chunk a_Road x z ->
  let h := GetHeight a_HeightMap x z in
  let after := DrawRoad V a_Chunk a_Road a_HeightMap in
  GetBlockType after x h z =
    (if IsBlockWater (GetBlockType a_Chunk x h z)
     then m_WaterRoadBlock V else m_RoadBlock V)
  /\ (forall y b,
        (x, y, z, b) ∈ writes_between a_Chunk after <->
        y = h /\ b = if IsBlockWater (GetBlockType a_Chunk x h z)
                     then m_WaterRoadBlock V else m_RoadBlock V)
  /\ (forall y, y <> h -> GetBlockType after x y z = GetBlockType a_Chunk x y z).
Proof.
  intros Hcol h after.
  destruct (DrawRoad_spec V a_Chunk a_Road a_HeightMap)
    as (cols & _ & Hcols & _ & Hblocks).
  split; [|split].
  - unfold after. rewrite Hblocks, decide_True; [done|].
    split; [by apply Hcols|done].
  - intros y b. unfold after. rewrite DrawRoad_writes. split.
    + intros (x' & z' & _ & Heq). by injection Heq as -> -> -> ->.
    + intros [-> ->]. by exists x, z.
  - intros y Hy. unfold after. rewrite Hblocks, decide_False; [done|].
    by intros [_ ->].
Qed.

(** C10: drawing a road into a chunk writes only at chunk-local x and z in
    [0, Width - 1]: the bounds of the loops are the footprint of the road cut
    to the chunk with max and min, every write is in a column within these
    bounds, and when the cut range is empty (the road does not meet the
    chunk) nothing is written and no block changes. *)
Theorem road_writes_in_chunk (V : cVillage) (a_Chunk : cChunkDesc)
    (a_Road : cPlacedPiece) (a_HeightMap : HeightMap) :
  let after := DrawRoad V a_Chunk a_Road a_HeightMap in
  let '(MinX, MaxX, MinZ, MaxZ) := ClipRoad a_Chunk a_Road in
  (0 <= MinX /\ MaxX <= Width - 1 /\ 0 <= MinZ /\ MaxZ <= Width - 1)
  /\ m_Log after = m_Log a_Chunk ++ writes_between a_Chunk after
  /\ (forall x y z b,
        (x, y, z, b) ∈ writes_between a_Chunk after ->
        (MinX <= x <= MaxX /\ MinZ <= z <= MaxZ)
        /\ 0 <= x <= Width - 1 /\ 0 <= z <= Width - 1)
  /\ (MaxX < MinX \/ MaxZ < MinZ ->
      writes_between a_Chunk after = []
      /\ forall x y z, GetBlockType after x y z = GetBlockType a_Chunk x y z).
Proof.
  intros after.
  pose proof (ClipRoad_column a_Chunk a_Road) as Hclip.
  assert (let '(MinX, MaxX, MinZ, MaxZ) := ClipRoad a_Chunk a_Road in
          0 <= MinX /\ MaxX <= Width - 1 /\ 0 <= MinZ /\ MaxZ <= Width - 1)
    as Hbounds by (unfold ClipRoad; simpl; lia).
  destruct (DrawRoad_spec V a_Chunk a_Road a_HeightMap)
    as (cols & _ & Hcols & Hlog & Hblocks).
  destruct (ClipRoad a_Chunk a_Road) as [[[MinX MaxX] MinZ] MaxZ].
  simpl in Hclip. split; [exact Hbounds|]. split; [|split].
  - unfold writes_between, after. by rewrite Hlog, drop_app_length.
  - intros x y z b Hw. apply DrawRoad_writes in Hw as (x' & z' & Hcol & Heq).
    injection Heq as -> -> -> ->. apply Hclip in Hcol. lia.
  - intros Hempty.
    assert (cols = []) as ->.
    { destruct cols as [|[x z] cols]; [done|].
      assert (RoadColumn a_Chunk a_Road x z) as Hcol%Hclip
        by (apply Hcols; by left).
      lia. }
    split.
    + unfold writes_between, after. rewrite Hlog. simpl.
      by rewrite app_nil_r, drop_all.
    + intros x y z. unfold after. rewrite Hblocks, decide_False; [done|].
      intros [Hin _]. inversion Hin.
Qed.

(** ** Ground snapping *)

Lemma MoveAllDescendants_from_eq (num : nat) (a_PlacedPieces : list cPlacedPiece)
    (a_Pivot i : nat) (dh : Z) :
  MoveAllDescendants_from num a_PlacedPieces a_Pivot i dh =
  if decide (i < num)%nat then
    if match a_PlacedPieces !! i with
       | Some P => bool_decide (GetParent P = Some a_Pivot)
                   && negb (ShouldMoveToGround (GetPiece P))
       | None => false
       end
    then MoveAllDescendants_from num
           (MoveAllDescendants_from num
              (alter (MoveToGroundBy dh) i a_PlacedPieces) i (S i) dh)
           a_Pivot (S i) dh
    else MoveAllDescendants_from num a_PlacedPieces a_Pivot (S i) dh
  else a_PlacedPieces.
Proof.
  rewrite MoveAllDescendants_from_equation_1 at 1.
  unfold MoveAllDescendants_from_unfold_clause_1.
  by destruct (decide (i < num)%nat).
Qed.

Lemma same_shape_refl (ps : list cPlacedPiece) : same_shape ps ps.
Proof. by intros i. Qed.

Lemma same_shape_sym (ps ps' : list cPlacedPiece) :
  same_shape ps ps' -> same_shape ps' ps.
Proof. intros Hs i. by rewrite Hs. Qed.

Lemma same_shape_trans (ps ps' ps'' : list cPlacedPiece) :
  same_shape ps ps' -> same_shape ps' ps'' -> same_shape ps ps''.
Proof. intros Hs Hs' i. by rewrite Hs, Hs'. Qed.

Lemma same_shape_alter (ps : list cPlacedPiece) (i : nat) (dh : Z) :
  same_shape ps (alter (MoveToGroundBy dh) i ps).
Proof.
  intros k. destruct (decide (i = k)) as [->|Hne].
  - rewrite list_lookup_alter_eq. by destruct (ps !! k).
  - by rewrite list_lookup_alter_ne.
Qed.

Lemma same_shape_lookup (ps ps' : list cPlacedPiece) (i : nat) (P' : cPlacedPiece) :
  same_shape ps ps' -> ps' !! i = Some P' ->
  exists P, ps !! i = Some P /\ GetParent P = GetParent P'
            /\ GetPiece P = GetPiece P'.
Proof.
  intros Hs HP'. specialize (Hs i). rewrite HP' in Hs.
  destruct (ps !! i) as [P|]; [|discriminate].
  exists P. simpl in Hs. by injection Hs as -> ->.
Qed.

Lemma same_shape_length (ps ps' : list cPlacedPiece) :
  same_shape ps ps' -> length ps = length ps'.
Proof.
  intros Hs.
  assert (forall qs qs' : list cPlacedPiece,
            same_shape qs qs' -> (length qs' <= length qs)%nat) as Hle.
  { intros qs qs' Hq. apply lookup_ge_None.
    specialize (Hq (length qs)). rewrite (lookup_ge_None_2 qs) in Hq by lia.
    by destruct (qs' !! length qs). }
  apply Nat.le_antisymm; [apply Hle, same_shape_sym, Hs | apply Hle, Hs].
Qed.

Lemma ParentsFirst_shape (ps ps' : list cPlacedPiece) :
  same_shape ps ps' -> ParentsFirst ps -> ParentsFirst ps'.
Proof.
  intros Hs Hpf i j P' HP' Hparent.
  destruct (same_shape_lookup _ _ _ _ Hs HP') as (P & HP & Hpar & _).
  apply (Hpf i j P HP). congruence.
Qed.

Lemma CascadeChain_shape (ps ps' : list cPlacedPiece) (pivot c k : nat) :
  same_shape ps ps' -> CascadeChain ps' pivot c k -> CascadeChain ps pivot c k.
Proof.
  intros Hs. induction 1 as [c P' HP' Hparent Hground
                            |c j k P' _ IH HP' Hparent Hground].
  - destruct (same_shape_lookup _ _ _ _ Hs HP') as (P & HP & Hpar & Hpiece).
    apply (chain_child _ _ c P); congruence.
  - destruct (same_shape_lookup _ _ _ _ Hs HP') as (P & HP & Hpar & Hpiece).
    apply (chain_step _ _ c j k P); congruence.
Qed.

Lemma CascadeChain_first (ps : list cPlacedPiece) (pivot c k : nat) :
  CascadeChain ps pivot c k -> CascadeChain ps pivot c c.
Proof. induction 1; [by eapply chain_child|done]. Qed.

Lemma CascadeChain_bounds (ps : list cPlacedPiece) (pivot c k : nat) :
  ParentsFirst ps -> CascadeChain ps pivot c k ->
  (pivot < c /\ c <= k /\ k < length ps)%nat.
Proof.
  intros Hpf. induction 1 as [c P HP Hparent _|c j k P _ IH HP Hparent _].
  - pose proof (Hpf _ _ _ HP Hparent). apply lookup_lt_Some in HP. lia.
  - pose proof (Hpf _ _ _ HP Hparent). apply lookup_lt_Some in HP. lia.
Qed.

(** A piece hangs below a pivot by one chain only. *)
Lemma CascadeChain_unique (ps : list cPlacedPiece) (pivot c c' k : nat) :
  ParentsFirst ps ->
  CascadeChain ps pivot c k -> CascadeChain ps pivot c' k -> c = c'.
Proof.
  intros Hpf Hc. revert c'.
  induction Hc as [c P HP Hparent _|c j k P Hj IH HP Hparent _];
    intros c' Hc'.
  - inversion Hc' as [? P' HP' Hparent' _|? j' ? P' Hj' HP' Hparent' _];
      subst; [done|].
    assert (j' = pivot) as -> by congruence.
    apply (CascadeChain_bounds _ _ _ _ Hpf) in Hj'. lia.
  - inversion Hc' as [? P' HP' Hparent' _|? j' ? P' Hj' HP' Hparent' _]; subst.
    + assert (j = pivot) as -> by congruence.
      apply (CascadeChain_bounds _ _ _ _ Hpf) in Hj. lia.
    + assert (j' = j) as -> by congruence. by apply IH.
Qed.

(** A chain below a child of the pivot is the tail of a chain below the
    pivot. *)
Lemma CascadeChain_extend (ps : list cPlacedPiece) (pivot i c k : nat) :
  CascadeChain ps pivot i i -> CascadeChain ps i c k -> CascadeChain ps pivot i k.
Proof.
  intros Hi. induction 1 as [c P HP Hparent Hground|c j k P _ IH HP Hparent Hground].
  - by apply (chain_step _ _ i i c P).
  - by apply (chain_step _ _ i j k P).
Qed.

Lemma CascadeChain_split (ps : list cPlacedPiece) (pivot c k : nat) :
  CascadeChain ps pivot c k -> k = c \/ exists c', CascadeChain ps c c' k.
Proof.
  induction 1 as [c P HP Hparent Hground|c j k P _ IH HP Hparent Hground];
    [by left|right].
  destruct IH as [->|(c' & Hc')].
  - exists k. by apply (chain_child _ _ k P).
  - exists c'. by apply (chain_step _ _ c' j k P).
Qed.

(** The test of the loop: the piece is a child of the pivot that attaches
    strictly by connectors. *)
Lemma moves_iff_child (ps : list cPlacedPiece) (pivot i : nat) :
  ParentsFirst ps ->
  match ps !! i with
  | Some P => bool_decide (GetParent P = Some pivot)
              && negb (ShouldMoveToGround (GetPiece P))
  | None => false
  end = true <-> CascadeChain ps pivot i i.
Proof.
  intros Hpf. split.
  - destruct (ps !! i) as [P|] eqn:HP; [|discriminate].
    intros [Hparent%bool_decide_eq_true Hground%negb_true_iff]%andb_true_iff.
    by apply (chain_child _ _ i P).
  - inversion 1 as [? P HP Hparent Hground|? j ? P Hj HP Hparent Hground]; subst.
    + rewrite HP, Hground. by rewrite bool_decide_eq_true_2.
    + pose proof (Hpf _ _ _ HP Hparent).
      apply (CascadeChain_bounds _ _ _ _ Hpf) in Hj. lia.
Qed.

(** The loop from [i] on moves, once, the pieces that hang below the pivot
    by a chain whose first piece is at [i] or later, and no other piece. *)
Lemma MoveAllDescendants_from_spec (dh : Z) (num m : nat) :
  forall (i : nat) (ps : list cPlacedPiece) (pivot : nat),
    (num - i)%nat = m -> length ps = num -> ParentsFirst ps -> (pivot < i)%nat ->
    same_shape ps (MoveAllDescendants_from num ps pivot i dh)
    /\ forall k,
         ((exists c, (i <= c)%nat /\ CascadeChain ps pivot c k) ->
          MoveAllDescendants_from num ps pivot i dh !! k
          = MoveToGroundBy dh <$> ps !! k)
         /\ (~ (exists c, (i <= c)%nat /\ CascadeChain ps pivot c k) ->
             MoveAllDescendants_from num ps pivot i dh !! k = ps !! k).
Proof.
  induction m as [m IHm] using lt_wf_ind.
  intros i ps pivot Hm Hlen Hpf Hpivot.
  rewrite MoveAllDescendants_from_eq.
  destruct (decide (i < num)%nat) as [Hlt|Hge].
  2:{ split; [apply same_shape_refl|]. intros k. split; [|done].
      intros (c & Hc & Hchain).
      apply (CascadeChain_bounds _ _ _ _ Hpf) in Hchain. lia. }
  pose proof (moves_iff_child ps pivot i Hpf) as Hcond.
  destruct (match ps !! i with Some _ => _ | None => _ end).
  - (* the piece at [i] moves, then its descendants, then the loop goes on *)
    assert (CascadeChain ps pivot i i) as Hi by by apply Hcond.
    set (ps1 := alter (MoveToGroundBy dh) i ps).
    assert (same_shape ps ps1) as Hs1 by apply same_shape_alter.
    destruct (IHm (num - S i)%nat ltac:(lia) (S i) ps1 i eq_refl)
      as [Hs2 Hsub];
      [by rewrite <- (same_shape_length _ _ Hs1)
      |by apply (ParentsFirst_shape _ _ Hs1) | lia |].
    set (ps2 := MoveAllDescendants_from num ps1 i (S i) dh) in *.
    assert (same_shape ps ps2) as Hs12 by by eapply same_shape_trans.
    destruct (IHm (num - S i)%nat ltac:(lia) (S i) ps2 pivot eq_refl)
      as [Hs3 Hrest];
      [by rewrite <- (same_shape_length _ _ Hs12)
      |by apply (ParentsFirst_shape _ _ Hs12) | lia |].
    split; [by eapply same_shape_trans|].
    intros k.
    (* whether [k] hangs below [i], and whether it hangs below a later child *)
    assert ((exists c, (S i <= c)%nat /\ CascadeChain ps1 i c k) <->
            (exists c, CascadeChain ps i c k)) as Hbelow_i.
    { split.
      - intros (c & _ & Hc). exists c. by apply (CascadeChain_shape _ _ _ _ _ Hs1).
      - intros (c & Hc). exists c. split.
        + apply (CascadeChain_bounds _ _ _ _ Hpf) in Hc. lia.
        + by apply (CascadeChain_shape _ _ _ _ _ (same_shape_sym _ _ Hs1)). }
    assert ((exists c, (S i <= c)%nat /\ CascadeChain ps2 pivot c k) <->
            (exists c, (S i <= c)%nat /\ CascadeChain ps pivot c k)) as Hlater.
    { split; intros (c & Hle & Hc); exists c; (split; [done|]).
      - by apply (CascadeChain_shape _ _ _ _ _ Hs12).
      - by apply (CascadeChain_shape _ _ _ _ _ (same_shape_sym _ _ Hs12)). }
    destruct (Hsub k) as [Hsub_in Hsub_out].
    destruct (Hrest k) as [Hrest_in Hrest_out].
    rewrite Hbelow_i in Hsub_in, Hsub_out. rewrite Hlater in Hrest_in, Hrest_out.
    split.
    + intros (c & Hle & Hc).
      destruct (decide (c = i)) as [->|Hci].
      * (* [k] is [i] or hangs below [i] *)
        rewrite Hrest_out.
        2:{ intros (c' & Hle' & Hc').
            pose proof (CascadeChain_unique _ _ _ _ _ Hpf Hc Hc'). lia. }
        destruct (CascadeChain_split _ _ _ _ Hc) as [->|(c' & Hc')].
        -- rewrite Hsub_out.
           2:{ intros (c' & Hc').
               apply (CascadeChain_bounds _ _ _ _ Hpf) in Hc'. lia. }
           apply list_lookup_alter_eq.
        -- rewrite Hsub_in by by exists c'.
           unfold ps1. rewrite list_lookup_alter_ne; [done|].
           apply (CascadeChain_bounds _ _ _ _ Hpf) in Hc'. lia.
      * (* [k] hangs below a later child of the pivot *)
        rewrite Hrest_in by (exists c; split; [lia|done]).
        rewrite Hsub_out.
        2:{ intros (c' & Hc').
            pose proof (CascadeChain_extend _ _ _ _ _ Hi Hc') as Hik.
            pose proof (CascadeChain_unique _ _ _ _ _ Hpf Hc Hik). lia. }
        unfold ps1. rewrite list_lookup_alter_ne; [done|].
        intros <-. pose proof (CascadeChain_unique _ _ _ _ _ Hpf Hc Hi). lia.
    + intros Hnot.
      rewrite Hrest_out.
      2:{ intros (c & Hle & Hc). apply Hnot. exists c. split; [lia|done]. }
      rewrite Hsub_out.
      2:{ intros (c' & Hc'). apply Hnot. exists i. split; [lia|].
          by eapply CascadeChain_extend. }
      unfold ps1. rewrite list_lookup_alter_ne; [done|].
      intros <-. apply Hnot. exists i. split; [lia|done].
  - (* the piece at [i] stays *)
    assert (~ CascadeChain ps pivot i i) as Hi
      by (intros Hi%Hcond; discriminate).
    destruct (IHm (num - S i)%nat ltac:(lia) (S i) ps pivot eq_refl Hlen Hpf)
      as [Hs Hrest]; [lia|].
    split; [done|]. intros k. destruct (Hrest k) as [Hrest_in Hrest_out].
    split.
    + intros (c & Hle & Hc). apply Hrest_in. exists c. split; [|done].
      destruct (decide (c = i)) as [->|]; [|lia].
      by apply CascadeChain_first in Hc.
    + intros Hnot. apply Hrest_out. intros (c & Hle & Hc). apply Hnot.
      exists c. split; [lia|done].
Qed.

(** [MoveAllDescendants] shifts the pieces that cascade from the pivot, each
    of them once, and leaves every other piece as it is. *)
Lemma MoveAllDescendants_spec (ps : list cPlacedPiece) (pivot : nat) (dh : Z) :
  ParentsFirst ps ->
  same_shape ps (MoveAllDescendants ps pivot dh)
  /\ forall k,
       (Cascades ps pivot k ->
        MoveAllDescendants ps pivot dh !! k = MoveToGroundBy dh <$> ps !! k)
       /\ (~ Cascades ps pivot k ->
           MoveAllDescendants ps pivot dh !! k = ps !! k).
Proof.
  intros Hpf. unfold MoveAllDescendants, Cascades.
  destruct (MoveAllDescendants_from_spec dh (length ps)
              (length ps - (pivot + 1))%nat (pivot + 1)%nat ps pivot
              eq_refl eq_refl Hpf ltac:(lia)) as [Hs Hk].
  split; [done|]. intros k. destruct (Hk k) as [Hin Hout]. split.
  - intros (c & Hc). apply Hin. exists c. split; [|done].
    apply (CascadeChain_bounds _ _ _ _ Hpf) in Hc. lia.
  - intros Hnot. apply Hout. intros (c & _ & Hc). apply Hnot. by exists c.
Qed.

Lemma same_shape_insert (ps : list cPlacedPiece) (i : nat) (P P' : cPlacedPiece) :
  ps !! i = Some P -> GetParent P' = GetParent P -> GetPiece P' = GetPiece P ->
  same_shape ps (<[i := P']> ps).
Proof.
  intros HP Hparent Hpiece k. destruct (decide (i = k)) as [<-|Hne].
  - rewrite list_lookup_insert_eq by by eapply lookup_lt_Some.
    rewrite HP. simpl. by rewrite Hparent, Hpiece.
  - by rewrite list_lookup_insert_ne.
Qed.

(** A piece that cascades from the root has no piece that follows its own
    ground rule on its way up to the root, itself included. *)
Lemma Cascades_no_ground_rule (ps : list cPlacedPiece) (j k : nat)
    (Pj : cPlacedPiece) :
  ParentsFirst ps -> Cascades ps 0 k -> BelowOrAt ps j k -> j <> 0%nat ->
  ps !! j = Some Pj -> ShouldMoveToGround (GetPiece Pj) = false.
Proof.
  intros Hpf (c & Hc) Hbelow Hj HPj.
  induction Hc as [c P HP Hparent Hground|c i k P Hi IH HP Hparent Hground].
  - inversion Hbelow as [|? p P' HP' Hparent' Hbelow']; subst; [congruence|].
    assert (p = 0%nat) as -> by congruence.
    inversion Hbelow' as [|? p0 P0 HP0 Hparent0 _]; subst; [done|].
    pose proof (Hpf _ _ _ HP0 Hparent0). lia.
  - inversion Hbelow as [|? p P' HP' Hparent' Hbelow']; subst; [congruence|].
    assert (p = i) as -> by congruence. by apply IH.
Qed.

Lemma PlacePieceOnGround_eq (a_Piece : cPlacedPiece) (c0 : cConnector) :
  m_Connectors (GetPiece a_Piece) !! 0%nat = Some c0 ->
  let FirstConnector := GetRotatedConnector a_Piece c0 in
  PlacePieceOnGround a_Piece =
  MoveToGroundBy
    (TerrainHeightAt (Vector3i.x (m_Pos FirstConnector))
                     (Vector3i.z (m_Pos FirstConnector))
     - Vector3i.y (m_Pos FirstConnector) + 1) a_Piece.
Proof.
  intros Hc0. unfold PlacePieceOnGround, GetRotatedConnector_at.
  unfold GetPiece in Hc0. rewrite Hc0. reflexivity.
Qed.

(** The ground snap of the constructor, on the assembled pieces. *)
Lemma SnapToGround_spec (a_Pieces : list cPlacedPiece) (Root : cPlacedPiece)
    (c0 : cConnector) :
  ParentsFirst a_Pieces ->
  a_Pieces !! 0%nat = Some Root ->
  ShouldMoveToGround (GetPiece Root) = true ->
  m_Connectors (GetPiece Root) !! 0%nat = Some c0 ->
  let after := SnapToGround a_Pieces in
  let FirstConnector := GetRotatedConnector Root c0 in
  let TerrainHeight :=
    TerrainHeightAt (Vector3i.x (m_Pos FirstConnector))
                    (Vector3i.z (m_Pos FirstConnector)) in
  exists (Root' : cPlacedPiece) (delta : Z),
    after !! 0%nat = Some Root'
    /\ Root' = MoveToGroundBy delta Root
    /\ delta = Vector3i.y (GetCoords Root') - Vector3i.y (GetCoords Root)
    /\ Vector3i.y (m_Pos (GetRotatedConnector Root' c0)) = TerrainHeight + 1
    /\ (forall k P,
          a_Pieces !! k = Some P -> Cascades a_Pieces 0 k ->
          after !! k = Some (MoveToGroundBy delta P))
    /\ (forall k P,
          a_Pieces !! k = Some P -> k <> 0%nat -> ~ Cascades a_Pieces 0 k ->
          after !! k = Some P)
    /\ (forall j k Pj P,
          j <> 0%nat -> a_Pieces !! j = Some Pj ->
          ShouldMoveToGround (GetPiece Pj) = true ->
          BelowOrAt a_Pieces j k -> a_Pieces !! k = Some P ->
          after !! k = Some P).
Proof.
  intros Hpf HRoot Hground Hc0 after FirstConnector TerrainHeight.
  set (delta := TerrainHeight - Vector3i.y (m_Pos FirstConnector) + 1).
  assert (PlacePieceOnGround Root = MoveToGroundBy delta Root) as Hplace
    by by apply PlacePieceOnGround_eq.
  set (ps1 := <[0%nat := MoveToGroundBy delta Root]> a_Pieces).
  assert (after = MoveAllDescendants ps1 0 delta) as Hafter.
  { unfold after, SnapToGround. rewrite HRoot, Hground, Hplace.
    unfold ps1, GetCoords. simpl. f_equal. lia. }
  assert (same_shape a_Pieces ps1) as Hs1
    by by apply (same_shape_insert _ _ Root).
  assert (ParentsFirst ps1) as Hpf1 by by apply (ParentsFirst_shape _ _ Hs1).
  destruct (MoveAllDescendants_spec ps1 0 delta Hpf1) as [_ Hmoves].
  assert (forall k, Cascades ps1 0 k <-> Cascades a_Pieces 0 k) as Hcasc.
  { intros k. split; intros (c & Hc); exists c.
    - by apply (CascadeChain_shape _ _ _ _ _ Hs1).
    - by apply (CascadeChain_shape _ _ _ _ _ (same_shape_sym _ _ Hs1)). }
  assert (forall k, Cascades a_Pieces 0 k -> k <> 0%nat) as Hnonroot.
  { intros k (c & Hc) ->.
    apply (CascadeChain_bounds _ _ _ _ Hpf) in Hc. lia. }
  assert (forall k P, a_Pieces !! k = Some P -> k <> 0%nat ->
            ~ Cascades a_Pieces 0 k -> after !! k = Some P) as Hstay.
  { intros k P HP Hk Hnot. rewrite Hafter.
    destruct (Hmoves k) as [_ Hout]. rewrite Hout by by rewrite Hcasc.
    unfold ps1. by rewrite list_lookup_insert_ne. }
  exists (MoveToGroundBy delta Root), delta.
  split; [|split; [done|split; [|split; [|split; [|split]]]]].
  - rewrite Hafter. destruct (Hmoves 0%nat) as [_ Hout]. rewrite Hout.
    + unfold ps1. apply list_lookup_insert_eq. by eapply lookup_lt_Some.
    + rewrite Hcasc. intros Hc. by apply (Hnonroot _ Hc).
  - unfold GetCoords. simpl. lia.
  - unfold delta, FirstConnector, GetRotatedConnector. simpl. lia.
  - intros k P HP Hc. rewrite Hafter.
    destruct (Hmoves k) as [Hin _]. rewrite Hin by by rewrite Hcasc.
    unfold ps1. rewrite list_lookup_insert_ne.
    + by rewrite HP.
    + intros Hk. by apply (Hnonroot _ Hc).
  - exact Hstay.
  - intros j k Pj P Hj HPj Hgroundj Hbelow HP. apply Hstay; [done| |].
    + intros ->. inversion Hbelow as [|? p P0 HP0 Hparent0 _]; subst; [done|].
      pose proof (Hpf _ _ _ HP0 Hparent0). lia.
    + intros Hc.
      pose proof (Cascades_no_ground_rule _ _ _ _ Hpf Hc Hbelow Hj HPj).
      congruence.
Qed.

(** The pieces of a new village are the assembled pieces, snapped. *)
Lemma cVillage_new_pieces (a_Seed a_GridX a_GridZ a_OriginX a_OriginZ
    a_MaxRoadDepth a_MaxSize a_Density : Z) (a_Prefabs : cVillagePiecePool)
    (a_RoadBlock a_WaterRoadBlock : BLOCKTYPE) :
  let V := cVillage_new a_Seed a_GridX a_GridZ a_OriginX a_OriginZ
             a_MaxRoadDepth a_MaxSize a_Density a_Prefabs
             a_RoadBlock a_WaterRoadBlock in
  m_Pieces V =
  SnapToGround (PlacePieces (cVillage_PiecePool V) a_Seed a_OriginX 0 a_OriginZ
                            (a_MaxRoadDepth + 1)).
Proof.
  simpl.
  assert (cVillage_PiecePool
            (cVillage_new a_Seed a_GridX a_GridZ a_OriginX a_OriginZ
               a_MaxRoadDepth a_MaxSize a_Density a_Prefabs
               a_RoadBlock a_WaterRoadBlock)
          = cVillage_PiecePool
              (cVillage_init a_Seed a_GridX a_GridZ a_OriginX a_OriginZ
                 a_MaxSize a_Density a_Prefabs a_RoadBlock a_WaterRoadBlock))
    as ->.
  { unfold cVillage_new. by destruct (PlacePieces _ _ _ _ _ _). }
  unfold cVillage_new. by destruct (PlacePieces _ _ _ _ _ _).
Qed.

(** C4: after assembly, when the root piece (index 0) is to be moved to
    ground, it is moved so that its first connector comes one block above
    the terrain height read at the x and z of that connector; every piece
    that hangs below the root by a chain of pieces none of which follows its
    own ground rule is shifted by the very offset the root was moved by;
    every other piece stays, in particular every piece that follows its own
    ground rule and everything below such a piece. *)
Theorem ground_snap_cascade (a_Seed a_GridX a_GridZ a_OriginX a_OriginZ
    a_MaxRoadDepth a_MaxSize a_Density : Z) (a_Prefabs : cVillagePiecePool)
    (a_RoadBlock a_WaterRoadBlock : BLOCKTYPE)
    (Root : cPlacedPiece) (c0 : cConnector) :
  let V := cVillage_new a_Seed a_GridX a_GridZ a_OriginX a_OriginZ
             a_MaxRoadDepth a_MaxSize a_Density a_Prefabs
             a_RoadBlock a_WaterRoadBlock in
  let assembled :=
    PlacePieces (cVillage_PiecePool V) a_Seed a_OriginX 0 a_OriginZ
                (a_MaxRoadDepth + 1) in
  ParentsFirst assembled ->
  assembled !! 0%nat = Some Root ->
  ShouldMoveToGround (GetPiece Root) = true ->
  m_Connectors (GetPiece Root) !! 0%nat = Some c0 ->
  let FirstConnector := GetRotatedConnector Root c0 in
  let TerrainHeight :=
    TerrainHeightAt (Vector3i.x (m_Pos FirstConnector))
                    (Vector3i.z (m_Pos FirstConnector)) in
  exists (Root' : cPlacedPiece) (delta : Z),
    m_Pieces V !! 0%nat = Some Root'
    /\ Root' = MoveToGroundBy delta Root
    /\ delta = Vector3i.y (GetCoords Root') - Vector3i.y (GetCoords Root)
    /\ Vector3i.y (m_Pos (GetRotatedConnector Root' c0)) = TerrainHeight + 1
    /\ (forall k P,
          assembled !! k = Some P -> Cascades assembled 0 k ->
          m_Pieces V !! k = Some (MoveToGroundBy delta P))
    /\ (forall k P,
          assembled !! k = Some P -> k <> 0%nat -> ~ Cascades assembled 0 k ->
          m_Pieces V !! k = Some P)
    /\ (forall j k Pj P,
          j <> 0%nat -> assembled !! j = Some Pj ->
          ShouldMoveToGround (GetPiece Pj) = true ->
          BelowOrAt assembled j k -> assembled !! k = Some P ->
          m_Pieces V !! k = Some P).
Proof.
  intros V assembled Hpf HRoot Hground Hc0.
  unfold V. rewrite cVillage_new_pieces.
  by apply SnapToGround_spec.
Qed.

End VillageGenProofs.

(** ** The objects shared between calls *)

Section SharedProofs.
Context `{!ChunkDefs, !cNoise, !PieceEngine, !PrefabSets, !Shared.Objects}.

(** A method of a pool reads and writes the state of that pool only. *)
Lemma on_pool_result {A : Type} (a_Pool : Shared.cVillagePiecePoolPtr)
    (method : cVillagePiecePool -> Shared.cPrefabPiecePool_state
              -> A * Shared.cPrefabPiecePool_state) (σ : Shared.Store) :
  (Shared.on_pool a_Pool method σ).1
  = (method (Shared.deref a_Pool) (Shared.pool_state σ a_Pool)).1.
Proof.
  unfold Shared.on_pool. by destruct (method _ _).
Qed.

Lemma on_pool_state {A : Type} (a_Pool : Shared.cVillagePiecePoolPtr)
    (method : cVillagePiecePool -> Shared.cPrefabPiecePool_state
              -> A * Shared.cPrefabPiecePool_state) (σ : Shared.Store) :
  Shared.pool_state (Shared.on_pool a_Pool method σ).2 a_Pool
  = (method (Shared.deref a_Pool) (Shared.pool_state σ a_Pool)).2.
Proof.
  unfold Shared.on_pool. destruct (method _ _) as [a s]. simpl.
  by rewrite decide_True.
Qed.

Lemma on_pool_same_pool {A : Type} (a_Pool : Shared.cVillagePiecePoolPtr)
    (method : cVillagePiecePool -> Shared.cPrefabPiecePool_state
              -> A * Shared.cPrefabPiecePool_state) (σ σ' : Shared.Store) :
  Shared.same_pool a_Pool σ σ' ->
  (Shared.on_pool a_Pool method σ).1 = (Shared.on_pool a_Pool method σ').1
  /\ Shared.same_pool a_Pool (Shared.on_pool a_Pool method σ).2
                             (Shared.on_pool a_Pool method σ').2.
Proof.
  intros Hsame. unfold Shared.same_pool in *.
  by rewrite !on_pool_result, !on_pool_state, Hsame.
Qed.

(** One step of a run of the piece generator. *)
Lemma PlacePieces_bind {A : Type} (V : cVillage)
    (a_Prefabs : Shared.cVillagePiecePoolPtr) (call : Shared.OnStore A)
    (then_ : A -> Shared.PoolCalls) (σ : Shared.Store) :
  (x ← call; Shared.PlacePieces V a_Prefabs (then_ x)) σ
  = Shared.PlacePieces V a_Prefabs (then_ (call σ).1) (call σ).2.
Proof.
  unfold mbind, Shared.OnStore_bind. by destruct (call σ).
Qed.

(** The run of the piece generator for a village depends on the store
    through the state of the village's pool only, and leaves that state the
    same from any two stores where it was the same. *)
Lemma PlacePieces_same_pool (V : cVillage)
    (a_Prefabs : Shared.cVillagePiecePoolPtr) (pg : Shared.PoolCalls)
    (σ σ' : Shared.Store) :
  Shared.same_pool a_Prefabs σ σ' ->
  (Shared.PlacePieces V a_Prefabs pg σ).1
  = (Shared.PlacePieces V a_Prefabs pg σ').1
  /\ Shared.same_pool a_Prefabs (Shared.PlacePieces V a_Prefabs pg σ).2
                                (Shared.PlacePieces V a_Prefabs pg σ').2.
Proof.
  revert σ σ'.
  induction pg as [out|t k IH|k IH|pp c np k IH|np k IH|p k IH|k IH];
    intros σ σ' Hsame; cbn [Shared.PlacePieces].
  - done.
  - rewrite !(PlacePieces_bind V a_Prefabs _ k).
    destruct (on_pool_same_pool a_Prefabs
      (fun m_Prefabs => Shared.cPrefabPiecePool_GetPiecesWithConnector m_Prefabs t)
      σ σ' Hsame) as [Hr Hs].
    unfold Shared.cVillage_GetPiecesWithConnector. rewrite Hr. by apply IH.
  - rewrite !(PlacePieces_bind V a_Prefabs _ k).
    destruct (on_pool_same_pool a_Prefabs
      Shared.cPrefabPiecePool_GetStartingPieces σ σ' Hsame) as [Hr Hs].
    unfold Shared.cVillage_GetStartingPieces. rewrite Hr. by apply IH.
  - by apply IH.
  - rewrite !(PlacePieces_bind V a_Prefabs _ k).
    destruct (on_pool_same_pool a_Prefabs
      (fun m_Prefabs => Shared.cPrefabPiecePool_GetStartingPieceWeight m_Prefabs np)
      σ σ' Hsame) as [Hr Hs].
    unfold Shared.cVillage_GetStartingPieceWeight. rewrite Hr. by apply IH.
  - rewrite !(PlacePieces_bind V a_Prefabs _ (fun _ => k)).
    apply IH. unfold Shared.cVillage_PiecePlaced.
    by apply on_pool_same_pool.
  - rewrite !(PlacePieces_bind V a_Prefabs _ (fun _ => k)).
    apply IH. unfold Shared.cVillage_Reset.
    by apply on_pool_same_pool.
Qed.

(** What [PlacePieceOnGround] makes of a piece does not depend on what the
    height generator keeps. *)
Lemma PlacePieceOnGround_any_store (a_Piece : cPlacedPiece) (σ σ' : Shared.Store) :
  Shared.GeneratorsRepeat ->
  (Shared.PlacePieceOnGround a_Piece σ).1 = (Shared.PlacePieceOnGround a_Piece σ').1.
Proof.
  intros [_ Hheight]. unfold Shared.PlacePieceOnGround.
  destruct (GetRotatedConnector_at a_Piece 0) as [FirstConnector|]; [|done].
  destruct (AbsoluteToRelative _ _) as [[BlockX BlockZ] [ChunkX ChunkZ]].
  unfold mbind, Shared.OnStore_bind, Shared.m_HeightGen_GenHeightMap.
  specialize (Hheight ChunkX ChunkZ (Shared.m_HeightGen σ) (Shared.m_HeightGen σ')
                      BlockX BlockZ).
  destruct (Shared.GenHeightMap ChunkX ChunkZ (Shared.m_HeightGen σ)).
  destruct (Shared.GenHeightMap ChunkX ChunkZ (Shared.m_HeightGen σ')).
  simpl in *. by rewrite Hheight.
Qed.

Lemma SnapToGround_any_store (a_Pieces : list cPlacedPiece) (σ σ' : Shared.Store) :
  Shared.GeneratorsRepeat ->
  (Shared.SnapToGround a_Pieces σ).1 = (Shared.SnapToGround a_Pieces σ').1.
Proof.
  intros Hgen. unfold Shared.SnapToGround.
  destruct (a_Pieces !! 0%nat) as [Root|]; [|done].
  destruct (ShouldMoveToGround (GetPiece Root)); [|done].
  unfold mbind, Shared.OnStore_bind.
  pose proof (PlacePieceOnGround_any_store Root σ σ' Hgen) as Hroot.
  destruct (Shared.PlacePieceOnGround Root σ).
  destruct (Shared.PlacePieceOnGround Root σ').
  simpl in *. by rewrite Hroot.
Qed.

(** A pool whose queries answer by its pieces gives the piece generator
    the same run on any store. *)
Lemma PlacePieces_read_only (V : cVillage)
    (a_Prefabs : Shared.cVillagePiecePoolPtr) (pg : Shared.PoolCalls)
    (σ σ' : Shared.Store) :
  Shared.ReadOnlyPools ->
  (Shared.PlacePieces V a_Prefabs pg σ).1
  = (Shared.PlacePieces V a_Prefabs pg σ').1.
Proof.
  intros (Hpieces & Hstarting & Hweight). revert σ σ'.
  induction pg as [out|t k IH|k IH|pp c np k IH|np k IH|p k IH|k IH];
    intros σ σ'; cbn [Shared.PlacePieces].
  - done.
  - rewrite !(PlacePieces_bind V a_Prefabs _ k).
    unfold Shared.cVillage_GetPiecesWithConnector. rewrite !on_pool_result.
    rewrite (Hpieces _ t _ (Shared.pool_state σ' a_Prefabs)). apply IH.
  - rewrite !(PlacePieces_bind V a_Prefabs _ k).
    unfold Shared.cVillage_GetStartingPieces. rewrite !on_pool_result.
    rewrite (Hstarting _ _ (Shared.pool_state σ' a_Prefabs)). apply IH.
  - apply IH.
  - rewrite !(PlacePieces_bind V a_Prefabs _ k).
    unfold Shared.cVillage_GetStartingPieceWeight. rewrite !on_pool_result.
    rewrite (Hweight _ np _ (Shared.pool_state σ' a_Prefabs)). apply IH.
  - rewrite !(PlacePieces_bind V a_Prefabs _ (fun _ => k)). apply IH.
  - rewrite !(PlacePieces_bind V a_Prefabs _ (fun _ => k)). apply IH.
Qed.

(** A piece generator that starts by resetting the pool has the same run on
    any store, when a reset clears the pool: the village relays the
    [Reset]. *)
Lemma PlacePieces_reset (V : cVillage)
    (a_Prefabs : Shared.cVillagePiecePoolPtr) (then_ : Shared.PoolCalls)
    (σ σ' : Shared.Store) :
  Shared.ResetClears ->
  (Shared.PlacePieces V a_Prefabs (Shared.call_Reset then_) σ).1
  = (Shared.PlacePieces V a_Prefabs (Shared.call_Reset then_) σ').1.
Proof.
  intros Hclears. cbn [Shared.PlacePieces].
  rewrite !(PlacePieces_bind V a_Prefabs _ (fun _ => then_)).
  apply PlacePieces_same_pool.
  unfold Shared.same_pool, Shared.cVillage_Reset.
  rewrite !on_pool_state. simpl. apply Hclears.
Qed.

(** The village that the constructor builds does not depend on the store it
    runs on: the generators answer by the chunk, and the pool answers by its
    pieces or is reset before it is asked anything. *)
Lemma cVillage_new_any_store (a_Seed a_GridX a_GridZ a_OriginX a_OriginZ
    a_MaxRoadDepth a_MaxSize a_Density : Z)
    (a_Prefabs : Shared.cVillagePiecePoolPtr)
    (a_RoadBlock a_WaterRoadBlock : BLOCKTYPE) (σ σ' : Shared.Store) :
  Shared.GeneratorsRepeat ->
  Shared.ReadOnlyPools \/ (Shared.ResetClears /\ Shared.ResetsFirst) ->
  (Shared.cVillage_new a_Seed a_GridX a_GridZ a_OriginX a_OriginZ
     a_MaxRoadDepth a_MaxSize a_Density a_Prefabs a_RoadBlock a_WaterRoadBlock σ).1
  = (Shared.cVillage_new a_Seed a_GridX a_GridZ a_OriginX a_OriginZ
       a_MaxRoadDepth a_MaxSize a_Density a_Prefabs a_RoadBlock a_WaterRoadBlock σ').1.
Proof.
  intros Hgen Hpools. unfold Shared.cVillage_new.
  set (V := cVillage_init _ _ _ _ _ _ _ _ _ _).
  set (pg := Shared.cBFSPieceGenerator_PlacePieces _ _ _ _ _).
  assert ((Shared.PlacePieces V a_Prefabs pg σ).1
          = (Shared.PlacePieces V a_Prefabs pg σ').1) as Hpieces.
  { destruct Hpools as [Hreadonly|[Hclears Hfirst]].
    - by apply PlacePieces_read_only.
    - subst pg.
      destruct (Hfirst a_Seed a_OriginX 0 a_OriginZ (a_MaxRoadDepth + 1))
        as [then_ ->].
      by apply PlacePieces_reset. }
  unfold mbind at 1 3. unfold Shared.OnStore_bind.
  destruct (Shared.PlacePieces V a_Prefabs pg σ) as [Pieces τ].
  destruct (Shared.PlacePieces V a_Prefabs pg σ') as [Pieces' τ'].
  simpl in Hpieces. subst Pieces'.
  destruct Pieces as [|Root Pieces]; [done|].
  unfold mbind, Shared.OnStore_bind.
  pose proof (SnapToGround_any_store (Root :: Pieces) τ τ' Hgen) as Hsnap.
  destruct (Shared.SnapToGround (Root :: Pieces) τ).
  destruct (Shared.SnapToGround (Root :: Pieces) τ').
  simpl in *. by rewrite Hsnap.
Qed.

(** What [CreateStructure] returns does not depend on the store. *)
Lemma CreateStructure_any_store (G : cVillageGen.t)
    (a_GridX a_GridZ a_OriginX a_OriginZ : Z) (σ σ' : Shared.Store) :
  Shared.GeneratorsRepeat ->
  Shared.ReadOnlyPools \/ (Shared.ResetClears /\ Shared.ResetsFirst) ->
  (Shared.CreateStructure G a_GridX a_GridZ a_OriginX a_OriginZ σ).1
  = (Shared.CreateStructure G a_GridX a_GridZ a_OriginX a_OriginZ σ').1.
Proof.
  intros Hgen Hpools. unfold Shared.CreateStructure.
  destruct (BlockToChunk a_OriginX a_OriginZ) as [ChunkX ChunkZ].
  unfold mbind at 1 3. unfold Shared.OnStore_bind, Shared.m_BiomeGen_GenBiomes.
  pose proof (proj1 Hgen ChunkX ChunkZ (Shared.m_BiomeGen σ) (Shared.m_BiomeGen σ'))
    as Hbiomes.
  destruct (Shared.GenBiomes ChunkX ChunkZ (Shared.m_BiomeGen σ)) as [Biomes s].
  destruct (Shared.GenBiomes ChunkX ChunkZ (Shared.m_BiomeGen σ')) as [Biomes' s'].
  simpl in Hbiomes. subst Biomes'.
  destruct (Shared.CheckBiomes _ _ Biomes None) as [[VillagePrefabs|]|]; [|done..].
  unfold mbind, Shared.OnStore_bind.
  match goal with
  | |- (let '(_, _) := ?new ?τ in _).1 = (let '(_, _) := ?new ?τ' in _).1 =>
      pose proof (cVillage_new_any_store
        (cVillageGen.m_Seed G) a_GridX a_GridZ a_OriginX a_OriginZ
        (cVillageGen.m_MaxDepth G) (cVillageGen.m_MaxSize G)
        (ChooseDensity G
           (IntNoise2DInt (cVillageGen.m_Noise G) a_OriginX a_OriginZ `quot` 11))
        VillagePrefabs E_BLOCK_GRAVEL E_BLOCK_PLANKS τ τ' Hgen Hpools)
        as Hnew;
      destruct (new τ); destruct (new τ')
  end.
  simpl in *. by rewrite Hnew.
Qed.

(** C9: [CreateStructure] is deterministic.  For a generator of any
    configuration and any grid and origin coordinates, a second call returns
    what the first one returned, although it runs on the global pools and
    the generators as the first call left them; and so does a call on these
    shared objects in any other state.  The results are both none, or two
    structures with the same pieces at the same positions and with the same
    rotations.  The code outside VillageGen.cpp is taken to be repeatable:
    the generators answer by the chunk; and the pools answer by their
    pieces, or else the piece generator resets its pool before it asks it
    anything and a reset clears the pool. *)
Theorem CreateStructure_deterministic
    (a_Seed a_GridSize a_MaxOffset a_MaxDepth a_MaxSize a_MinDensity a_MaxDensity : Z)
    (a_GridX a_GridZ a_OriginX a_OriginZ : Z) (σ σ' : Shared.Store) :
  Shared.GeneratorsRepeat ->
  Shared.ReadOnlyPools \/ (Shared.ResetClears /\ Shared.ResetsFirst) ->
  let G := cVillageGen_new a_Seed a_GridSize a_MaxOffset a_MaxDepth a_MaxSize
                           a_MinDensity a_MaxDensity in
  let first := Shared.CreateStructure G a_GridX a_GridZ a_OriginX a_OriginZ σ in
  let second :=
    Shared.CreateStructure G a_GridX a_GridZ a_OriginX a_OriginZ first.2 in
  let other := Shared.CreateStructure G a_GridX a_GridZ a_OriginX a_OriginZ σ' in
  second.1 = first.1
  /\ other.1 = first.1
  /\ Shared.same_result first.1 second.1
  /\ Shared.same_result first.1 other.1.
Proof.
  intros Hgen Hpools G first second other.
  assert (second.1 = first.1) as Hsecond
    by apply (CreateStructure_any_store G _ _ _ _ _ _ Hgen Hpools).
  assert (other.1 = first.1) as Hother
    by apply (CreateStructure_any_store G _ _ _ _ _ _ Hgen Hpools).
  split; [done|]. split; [done|].
  rewrite Hsecond, Hother. unfold Shared.same_result.
  destruct first.1 as [V|].
  - split; right; by exists V, V.
  - split; by left.
Qed.

End SharedProofs.

(** ** Collaborators that keep nothing *)

Section StatelessProofs.
Context `{!ChunkDefs, !cNoise, !Generators, !PieceEngine, !PrefabSets,
          !Shared.Objects}.

Lemma PlacePieces_stateless (V : cVillage)
    (a_Prefabs : Shared.cVillagePiecePoolPtr) (pg : Shared.PoolCalls)
    (σ : Shared.Store) :
  Stateless -> m_Prefabs V = Shared.deref a_Prefabs ->
  (Shared.PlacePieces V a_Prefabs pg σ).1 = PlacePieces_on (cVillage_PiecePool V) pg.
Proof.
  intros (_ & _ & Hpieces & Hstarting & Hweight & _) Hprefabs. revert σ.
  induction pg as [out|t k IH|k IH|pp c np k IH|np k IH|p k IH|k IH];
    intros σ; cbn [Shared.PlacePieces PlacePieces_on].
  - done.
  - rewrite (PlacePieces_bind V a_Prefabs _ k), IH.
    unfold Shared.cVillage_GetPiecesWithConnector.
    rewrite on_pool_result, Hpieces. simpl. by rewrite Hprefabs.
  - rewrite (PlacePieces_bind V a_Prefabs _ k), IH.
    unfold Shared.cVillage_GetStartingPieces.
    rewrite on_pool_result, Hstarting. simpl. by rewrite Hprefabs.
  - by rewrite IH.
  - rewrite (PlacePieces_bind V a_Prefabs _ k), IH.
    unfold Shared.cVillage_GetStartingPieceWeight.
    by rewrite on_pool_result, Hweight.
  - by rewrite (PlacePieces_bind V a_Prefabs _ (fun _ => k)), IH.
  - by rewrite (PlacePieces_bind V a_Prefabs _ (fun _ => k)), IH.
Qed.

Lemma PlacePieceOnGround_stateless (a_Piece : cPlacedPiece) (σ : Shared.Store) :
  Stateless ->
  (Shared.PlacePieceOnGround a_Piece σ).1 = PlacePieceOnGround a_Piece.
Proof.
  intros (_ & Hheight & _).
  unfold Shared.PlacePieceOnGround, PlacePieceOnGround.
  destruct (GetRotatedConnector_at a_Piece 0) as [FirstConnector|]; [|done].
  destruct (AbsoluteToRelative _ _) as [[BlockX BlockZ] [ChunkX ChunkZ]].
  unfold mbind, Shared.OnStore_bind, Shared.m_HeightGen_GenHeightMap.
  specialize (Hheight ChunkX ChunkZ (Shared.m_HeightGen σ) BlockX BlockZ).
  destruct (Shared.GenHeightMap ChunkX ChunkZ (Shared.m_HeightGen σ)).
  simpl in *. by rewrite Hheight.
Qed.

Lemma SnapToGround_stateless (a_Pieces : list cPlacedPiece) (σ : Shared.Store) :
  Stateless ->
  (Shared.SnapToGround a_Pieces σ).1 = SnapToGround a_Pieces.
Proof.
  intros Hstateless. unfold Shared.SnapToGround, SnapToGround.
  destruct (a_Pieces !! 0%nat) as [Root|]; [|done].
  destruct (ShouldMoveToGround (GetPiece Root)); [|done].
  unfold mbind, Shared.OnStore_bind.
  pose proof (PlacePieceOnGround_stateless Root σ Hstateless) as Hroot.
  destruct (Shared.PlacePieceOnGround Root σ).
  simpl in *. by rewrite Hroot.
Qed.

Lemma cVillage_new_stateless (a_Seed a_GridX a_GridZ a_OriginX a_OriginZ
    a_MaxRoadDepth a_MaxSize a_Density : Z)
    (a_Prefabs : Shared.cVillagePiecePoolPtr)
    (a_RoadBlock a_WaterRoadBlock : BLOCKTYPE) (σ : Shared.Store) :
  Stateless ->
  (Shared.cVillage_new a_Seed a_GridX a_GridZ a_OriginX a_OriginZ
     a_MaxRoadDepth a_MaxSize a_Density a_Prefabs a_RoadBlock a_WaterRoadBlock σ).1
  = cVillage_new a_Seed a_GridX a_GridZ a_OriginX a_OriginZ
      a_MaxRoadDepth a_MaxSize a_Density (Shared.deref a_Prefabs)
      a_RoadBlock a_WaterRoadBlock.
Proof.
  intros Hstateless. unfold Shared.cVillage_new, cVillage_new.
  set (V := cVillage_init _ _ _ _ _ _ _ _ _ _).
  destruct Hstateless as (Hb & Hh & Hp & Hs & Hw & Hrun) eqn:E. clear E.
  rewrite Hrun.
  pose proof (PlacePieces_stateless V a_Prefabs
    (Shared.cBFSPieceGenerator_PlacePieces a_Seed a_OriginX 0 a_OriginZ
                                           (a_MaxRoadDepth + 1)) σ
    (conj Hb (conj Hh (conj Hp (conj Hs (conj Hw Hrun))))) eq_refl) as Hpieces.
  unfold mbind at 1. unfold Shared.OnStore_bind.
  destruct (Shared.PlacePieces V a_Prefabs _ σ) as [Pieces τ].
  simpl in Hpieces. rewrite <- Hpieces.
  destruct Pieces as [|Root Pieces]; [done|].
  unfold mbind, Shared.OnStore_bind.
  pose proof (SnapToGround_stateless (Root :: Pieces) τ
    (conj Hb (conj Hh (conj Hp (conj Hs (conj Hw Hrun)))))) as Hsnap.
  destruct (Shared.SnapToGround (Root :: Pieces) τ).
  simpl in *. by rewrite Hsnap.
Qed.

Lemma CheckBiomes_deref (DesertVillage PlainsVillage : Shared.cVillagePiecePoolPtr)
    (Biomes : list EMCSBiome)
    (VillagePrefabs : option Shared.cVillagePiecePoolPtr) :
  fmap (M:=option) Shared.deref
    <$> Shared.CheckBiomes DesertVillage PlainsVillage Biomes VillagePrefabs
  = CheckBiomes (Shared.deref DesertVillage) (Shared.deref PlainsVillage) Biomes
                (Shared.deref <$> VillagePrefabs).
Proof.
  revert VillagePrefabs.
  induction Biomes as [|b Biomes IH]; intros VillagePrefabs; [done|].
  destruct b; simpl; by rewrite ?IH.
Qed.

Lemma pool_at_deref (pools : list Shared.cVillagePiecePoolPtr) (index : Z)
    (dflt : Shared.cVillagePiecePoolPtr) :
  Shared.deref (Shared.pool_at pools index dflt)
  = pool_at (Shared.deref <$> pools) index (Shared.deref dflt).
Proof.
  unfold Shared.pool_at, pool_at. destruct (bool_decide (0 <= index)); [|done].
  rewrite list_lookup_fmap. by destruct (pools !! Z.to_nat index).
Qed.

(** When the collaborators keep nothing, [CreateStructure] on the shared
    objects returns what [CreateStructure] of the first part returns. *)
Lemma CreateStructure_stateless (G : cVillageGen.t)
    (a_GridX a_GridZ a_OriginX a_OriginZ : Z) (σ : Shared.Store) :
  Stateless ->
  (Shared.CreateStructure G a_GridX a_GridZ a_OriginX a_OriginZ σ).1
  = CreateStructure G a_GridX a_GridZ a_OriginX a_OriginZ.
Proof.
  intros Hstateless. unfold Shared.CreateStructure, CreateStructure.
  destruct (BlockToChunk a_OriginX a_OriginZ) as [ChunkX ChunkZ].
  unfold mbind at 1. unfold Shared.OnStore_bind, Shared.m_BiomeGen_GenBiomes.
  pose proof (proj1 Hstateless ChunkX ChunkZ (Shared.m_BiomeGen σ)) as Hbiomes.
  destruct (Shared.GenBiomes ChunkX ChunkZ (Shared.m_BiomeGen σ)) as [Biomes s].
  simpl in Hbiomes. rewrite <- Hbiomes.
  set (rnd := IntNoise2DInt (cVillageGen.m_Noise G) a_OriginX a_OriginZ `quot` 11).
  pose proof (CheckBiomes_deref
    (Shared.pool_at Shared.g_DesertVillagePools
       (rnd `rem` Z.of_nat (length Shared.g_DesertVillagePools))
       Shared.addr_g_SandVillage)
    (Shared.pool_at Shared.g_PlainsVillagePools
       (rnd `rem` Z.of_nat (length Shared.g_PlainsVillagePools))
       Shared.addr_g_PlainsVillage)
    Biomes None) as Hcheck.
  rewrite !pool_at_deref in Hcheck.
  change (CheckBiomes _ _ Biomes (Shared.deref <$> None))
    with (CheckBiomes
            (pool_at g_DesertVillagePools
               (rnd `rem` Z.of_nat (length g_DesertVillagePools)) g_SandVillage)
            (pool_at g_PlainsVillagePools
               (rnd `rem` Z.of_nat (length g_PlainsVillagePools)) g_PlainsVillage)
            Biomes None) in Hcheck.
  rewrite <- Hcheck.
  destruct (Shared.CheckBiomes _ _ Biomes None) as [[VillagePrefabs|]|];
    [|done..].
  simpl. unfold mbind, Shared.OnStore_bind.
  match goal with
  | |- (let '(_, _) := ?new ?τ in _).1 = _ =>
      pose proof (cVillage_new_stateless
        (cVillageGen.m_Seed G) a_GridX a_GridZ a_OriginX a_OriginZ
        (cVillageGen.m_MaxDepth G) (cVillageGen.m_MaxSize G)
        (ChooseDensity G rnd) VillagePrefabs E_BLOCK_GRAVEL E_BLOCK_PLANKS
        τ Hstateless) as Hnew;
      destruct (new τ)
  end.
  simpl in *. by rewrite Hnew.
Qed.

End StatelessProofs.

(** * Further properties *)

Section VillageGenMore.
Context `{!ChunkDefs, !cNoise, !Generators, !PieceEngine, !PrefabSets}.

(** ** Ground snapping, piece by piece *)

(** [PlacePieceOnGround] puts the first connector of the piece one block
    above the terrain of the column the connector stands in; the piece keeps
    its column, rotation, parent and depth, and is marked as moved. *)
Theorem PlacePieceOnGround_lands (a_Piece : cPlacedPiece) (c0 : cConnector) :
  m_Connectors (GetPiece a_Piece) !! 0%nat = Some c0 ->
  let before := m_Pos (GetRotatedConnector a_Piece c0) in
  let after := m_Pos (GetRotatedConnector (PlacePieceOnGround a_Piece) c0) in
  Vector3i.x after = Vector3i.x before
  /\ Vector3i.z after = Vector3i.z before
  /\ Vector3i.y after
     = TerrainHeightAt (Vector3i.x before) (Vector3i.z before) + 1
  /\ HasBeenMovedToGround (PlacePieceOnGround a_Piece) = true
  /\ same_but_height a_Piece (PlacePieceOnGround a_Piece).
Proof.
  intros Hc0. simpl. rewrite (PlacePieceOnGround_eq a_Piece c0 Hc0).
  unfold same_but_height, GetRotatedConnector. simpl.
  repeat split; lia.
Qed.

(** Placing a piece on the ground a second time does not move it. *)
Theorem PlacePieceOnGround_idempotent (a_Piece : cPlacedPiece) (c0 : cConnector) :
  m_Connectors (GetPiece a_Piece) !! 0%nat = Some c0 ->
  PlacePieceOnGround (PlacePieceOnGround a_Piece) = PlacePieceOnGround a_Piece.
Proof.
  intros Hc0. rewrite (PlacePieceOnGround_eq a_Piece c0 Hc0).
  rewrite (PlacePieceOnGround_eq _ c0) by exact Hc0.
  unfold MoveToGroundBy, GetRotatedConnector. simpl. f_equal. f_equal. lia.
Qed.

(** ** The cascade, from any pivot *)

(** Whether a piece cascades from a pivot can be told. *)
Lemma Cascades_dec (ps : list cPlacedPiece) (pivot : nat) :
  ParentsFirst ps -> forall k, Cascades ps pivot k \/ ~ Cascades ps pivot k.
Proof.
  intros Hpf k. induction k as [k IH] using lt_wf_ind.
  destruct (ps !! k) as [P|] eqn:HP.
  2:{ right. intros (c & Hc). inversion Hc; congruence. }
  destruct (ShouldMoveToGround (GetPiece P)) eqn:Hground.
  { right. intros (c & Hc). inversion Hc; congruence. }
  destruct (GetParent P) as [j|] eqn:Hparent.
  2:{ right. intros (c & Hc). inversion Hc; congruence. }
  destruct (decide (j = pivot)) as [->|Hj].
  { left. exists k. by apply (chain_child _ _ k P). }
  destruct (IH j (Hpf _ _ _ HP Hparent)) as [(c & Hc)|Hnot].
  - left. exists c. by apply (chain_step _ _ c j k P).
  - right. intros (c & Hc).
    inversion Hc as [? P' HP' Hparent' _|? j' ? P' Hj' HP' Hparent' _]; subst.
    + congruence.
    + apply Hnot. exists c. congruence.
Qed.

(** [MoveAllDescendants], for any pivot: the vector keeps its length; a
    piece that cascades from the pivot is shifted by the height difference,
    once; every other piece stays, in particular the pivot and every piece
    before it. *)
Theorem MoveAllDescendants_contract (a_PlacedPieces : list cPlacedPiece)
    (a_Pivot : nat) (a_HeightDifference : Z) :
  ParentsFirst a_PlacedPieces ->
  let moved := MoveAllDescendants a_PlacedPieces a_Pivot a_HeightDifference in
  length moved = length a_PlacedPieces
  /\ forall k P,
       a_PlacedPieces !! k = Some P ->
       (Cascades a_PlacedPieces a_Pivot k ->
        moved !! k = Some (MoveToGroundBy a_HeightDifference P))
       /\ (~ Cascades a_PlacedPieces a_Pivot k -> moved !! k = Some P)
       /\ ((k <= a_Pivot)%nat -> moved !! k = Some P).
Proof.
  intros Hpf moved.
  destruct (MoveAllDescendants_spec a_PlacedPieces a_Pivot a_HeightDifference Hpf)
    as [Hshape Hmoves].
  split; [symmetry; by apply same_shape_length|].
  intros k P HP. destruct (Hmoves k) as [Hin Hout].
  assert (~ Cascades a_PlacedPieces a_Pivot k -> moved !! k = Some P) as Hstay.
  { intros Hnot. unfold moved. by rewrite Hout. }
  split; [|split; [exact Hstay|]].
  - intros Hc. unfold moved. by rewrite Hin, HP.
  - intros Hk. apply Hstay. intros (c & Hc).
    apply (CascadeChain_bounds _ _ _ _ Hpf) in Hc. lia.
Qed.

(** Two cascades from the same pivot add up. *)
Theorem MoveAllDescendants_compose (a_PlacedPieces : list cPlacedPiece)
    (a_Pivot : nat) (d1 d2 : Z) :
  ParentsFirst a_PlacedPieces ->
  MoveAllDescendants (MoveAllDescendants a_PlacedPieces a_Pivot d1) a_Pivot d2
  = MoveAllDescendants a_PlacedPieces a_Pivot (d1 + d2).
Proof.
  intros Hpf.
  destruct (MoveAllDescendants_spec a_PlacedPieces a_Pivot d1 Hpf)
    as [Hshape1 Hfirst].
  set (ps1 := MoveAllDescendants a_PlacedPieces a_Pivot d1) in *.
  assert (ParentsFirst ps1) as Hpf1 by by apply (ParentsFirst_shape _ _ Hshape1).
  destruct (MoveAllDescendants_spec ps1 a_Pivot d2 Hpf1) as [_ Hsecond].
  destruct (MoveAllDescendants_spec a_PlacedPieces a_Pivot (d1 + d2) Hpf)
    as [_ Hboth].
  apply list_eq. intros k.
  destruct (Hfirst k) as [Hin1 Hout1], (Hsecond k) as [Hin2 Hout2],
           (Hboth k) as [Hin Hout].
  destruct (Cascades_dec a_PlacedPieces a_Pivot Hpf k) as [Hc|Hnot].
  - assert (Cascades ps1 a_Pivot k) as Hc1.
    { destruct Hc as (c & Hc). exists c.
      by apply (CascadeChain_shape _ _ _ _ _ (same_shape_sym _ _ Hshape1)). }
    rewrite Hin2, Hin1, Hin by done.
    destruct (a_PlacedPieces !! k) as [P|]; [|done]. simpl. f_equal.
    unfold MoveToGroundBy. simpl. f_equal. f_equal. lia.
  - assert (~ Cascades ps1 a_Pivot k) as Hnot1.
    { intros (c & Hc). apply Hnot. exists c.
      by apply (CascadeChain_shape _ _ _ _ _ Hshape1). }
    by rewrite Hout2, Hout1, Hout.
Qed.

(** ** What the ground snap keeps *)

Lemma same_but_height_refl (P : cPlacedPiece) : same_but_height P P.
Proof. by repeat split. Qed.

Lemma same_but_height_trans (P P' P'' : cPlacedPiece) :
  same_but_height P P' -> same_but_height P' P'' -> same_but_height P P''.
Proof.
  unfold same_but_height. intros (? & ? & ? & ? & ? & ?) (? & ? & ? & ? & ? & ?).
  repeat split; congruence.
Qed.

Lemma same_but_height_MoveToGroundBy (P : cPlacedPiece) (dh : Z) :
  same_but_height P (MoveToGroundBy dh P).
Proof. by repeat split. Qed.

Lemma same_but_height_PlacePieceOnGround (P : cPlacedPiece) :
  same_but_height P (PlacePieceOnGround P).
Proof.
  unfold PlacePieceOnGround.
  destruct (GetRotatedConnector_at P 0) as [c|];
    [apply same_but_height_MoveToGroundBy | apply same_but_height_refl].
Qed.

Lemma same_but_height_all_refl (ps : list cPlacedPiece) :
  Forall2 same_but_height ps ps.
Proof.
  apply Forall_Forall2_diag, Forall_forall. intros P _.
  apply same_but_height_refl.
Qed.

(** The loop of [MoveAllDescendants] changes heights only, whatever the
    order of the pieces. *)
Lemma MoveAllDescendants_from_heights (dh : Z) (num m : nat) :
  forall (i : nat) (ps : list cPlacedPiece) (pivot : nat),
    (num - i)%nat = m ->
    Forall2 same_but_height ps (MoveAllDescendants_from num ps pivot i dh).
Proof.
  induction m as [m IHm] using lt_wf_ind. intros i ps pivot Hm.
  rewrite MoveAllDescendants_from_eq.
  destruct (decide (i < num)%nat) as [Hlt|Hge];
    [|apply same_but_height_all_refl].
  destruct (match ps !! i with Some _ => _ | None => _ end).
  - eapply Forall2_trans; [apply same_but_height_trans| |].
    + eapply Forall2_trans; [apply same_but_height_trans| |].
      * apply Forall2_alter_r; [apply same_but_height_all_refl|].
        intros P P' _ _ HPP'.
        eapply same_but_height_trans; [exact HPP'|].
        apply same_but_height_MoveToGroundBy.
      * apply (IHm (num - S i)%nat); [lia|reflexivity].
    + apply (IHm (num - S i)%nat); [lia|reflexivity].
  - apply (IHm (num - S i)%nat); [lia|reflexivity].
Qed.

Lemma SnapToGround_heights (a_Pieces : list cPlacedPiece) :
  Forall2 same_but_height a_Pieces (SnapToGround a_Pieces).
Proof.
  unfold SnapToGround.
  destruct (a_Pieces !! 0%nat) as [Root|] eqn:HRoot;
    [|apply same_but_height_all_refl].
  destruct (ShouldMoveToGround (GetPiece Root));
    [|apply same_but_height_all_refl].
  eapply Forall2_trans; [apply same_but_height_trans| |].
  - apply Forall2_same_length_lookup_2.
    + symmetry. apply length_insert.
    + intros k P P' HP HP'.
      destruct (decide (k = 0%nat)) as [->|Hk].
      * rewrite list_lookup_insert_eq in HP' by by eapply lookup_lt_Some.
        injection HP' as <-. rewrite HRoot in HP. injection HP as <-.
        apply same_but_height_PlacePieceOnGround.
      * rewrite list_lookup_insert_ne in HP' by done.
        rewrite HP in HP'. injection HP' as <-. apply same_but_height_refl.
  - unfold MoveAllDescendants. by eapply MoveAllDescendants_from_heights.
Qed.

(** The constructor's ground snap never changes the shape of the village:
    the pieces of a new village are the assembled pieces, one for one, each
    with its piece, parent, depth, rotation, x and z; heights alone move. *)
Theorem cVillage_new_keeps_shape (a_Seed a_GridX a_GridZ a_OriginX a_OriginZ
    a_MaxRoadDepth a_MaxSize a_Density : Z) (a_Prefabs : cVillagePiecePool)
    (a_RoadBlock a_WaterRoadBlock : BLOCKTYPE) :
  let V := cVillage_new a_Seed a_GridX a_GridZ a_OriginX a_OriginZ
             a_MaxRoadDepth a_MaxSize a_Density a_Prefabs
             a_RoadBlock a_WaterRoadBlock in
  let assembled :=
    PlacePieces (cVillage_PiecePool V) a_Seed a_OriginX 0 a_OriginZ
                (a_MaxRoadDepth + 1) in
  Forall2 same_but_height assembled (m_Pieces V).
Proof.
  intros V assembled. unfold assembled, V. rewrite cVillage_new_pieces.
  apply SnapToGround_heights.
Qed.

(** ** Drawing the village *)

(** The pieces after [DrawIntoChunk]: each piece, after its turn of the
    loop. *)
Lemma DrawIntoChunk_pieces (V : cVillage) (a_Chunk : cChunkDesc) :
  (DrawIntoChunk V a_Chunk).1 = set_Pieces V (SnapAtDraw <$> m_Pieces V).
Proof.
  unfold DrawIntoChunk.
  set (hm := GenHeightMap (GetChunkX a_Chunk) (GetChunkZ a_Chunk)).
  match goal with |- context [foldl ?f _ _] => set (step := f) end.
  assert (forall ps acc c,
            (foldl step (acc, c) ps).1 = acc ++ (SnapAtDraw <$> ps)) as Hfold.
  { induction ps as [|itr ps IH]; intros acc c.
    - simpl. by rewrite app_nil_r.
    - change (foldl step (acc, c) (itr :: ps))
        with (foldl step (step (acc, c) itr) ps).
      assert (exists c', step (acc, c) itr = (acc ++ [SnapAtDraw itr], c'))
        as (c' & ->).
      { unfold step, SnapAtDraw, IsRoad.
        destruct (bool_decide (Vector3i.y (GetSize (GetPiece itr)) = 1));
          eauto. }
      rewrite IH. simpl. by rewrite <- app_assoc. }
  specialize (Hfold (m_Pieces V) [] a_Chunk).
  destruct (foldl step ([], a_Chunk) (m_Pieces V)) as [Pieces c'].
  simpl in *. by rewrite Hfold.
Qed.

(** [DrawIntoChunk] visits every piece of the village, not only those in
    the chunk: a piece that is no road, is to be moved to ground and has not
    been moved yet is placed on the ground; a road, a piece that attaches by
    connectors only and a piece already moved stay as they are.  The number
    of pieces does not change. *)
Theorem DrawIntoChunk_snaps (V : cVillage) (a_Chunk : cChunkDesc) (k : nat)
    (P : cPlacedPiece) :
  m_Pieces V !! k = Some P ->
  let V' := (DrawIntoChunk V a_Chunk).1 in
  length (m_Pieces V') = length (m_Pieces V)
  /\ (Vector3i.y (GetSize (GetPiece P)) = 1
      \/ ShouldMoveToGround (GetPiece P) = false
      \/ HasBeenMovedToGround P = true ->
      m_Pieces V' !! k = Some P)
  /\ (Vector3i.y (GetSize (GetPiece P)) <> 1 ->
      ShouldMoveToGround (GetPiece P) = true ->
      HasBeenMovedToGround P = false ->
      m_Pieces V' !! k = Some (PlacePieceOnGround P)).
Proof.
  intros HP. simpl. rewrite DrawIntoChunk_pieces. simpl.
  rewrite length_fmap, list_lookup_fmap, HP. simpl.
  unfold SnapAtDraw, IsRoad. split; [done|]. split.
  - intros [Hroad|[Hfree|Hmoved]].
    + by rewrite bool_decide_eq_true_2.
    + rewrite Hfree. by destruct (bool_decide _).
    + rewrite Hmoved, andb_false_r. by destruct (bool_decide _).
  - intros Hroad Hground Hmoved.
    rewrite bool_decide_eq_false_2 by done. by rewrite Hground, Hmoved.
Qed.

(** The village that [DrawIntoChunk] leaves does not depend on the chunk
    drawn: a piece lands where its own column puts it, whichever chunk is
    drawn first. *)
Theorem DrawIntoChunk_any_chunk (V : cVillage) (a_Chunk a_Chunk' : cChunkDesc) :
  (DrawIntoChunk V a_Chunk).1 = (DrawIntoChunk V a_Chunk').1.
Proof. by rewrite !DrawIntoChunk_pieces. Qed.

Lemma SnapAtDraw_stays (P : cPlacedPiece) :
  IsRoad P = true
  \/ ShouldMoveToGround (GetPiece P) && negb (HasBeenMovedToGround P) = false ->
  SnapAtDraw P = P.
Proof.
  unfold SnapAtDraw. intros [->| ->]; [done|]. by destruct (IsRoad P).
Qed.

Lemma SnapAtDraw_idempotent (P : cPlacedPiece) :
  m_Connectors (GetPiece P) <> [] -> SnapAtDraw (SnapAtDraw P) = SnapAtDraw P.
Proof.
  intros Hconn.
  destruct (m_Connectors (GetPiece P)) as [|c0 cs] eqn:Hcs; [done|].
  assert (m_Connectors (GetPiece P) !! 0%nat = Some c0) as Hc0 by by rewrite Hcs.
  destruct (IsRoad P) eqn:Hroad.
  { rewrite !(SnapAtDraw_stays P) by by left. done. }
  destruct (ShouldMoveToGround (GetPiece P)
            && negb (HasBeenMovedToGround P)) eqn:Hsnap.
  2:{ rewrite !(SnapAtDraw_stays P) by by right. done. }
  assert (SnapAtDraw P = PlacePieceOnGround P) as ->
    by (unfold SnapAtDraw; by rewrite Hroad, Hsnap).
  apply SnapAtDraw_stays. right.
  rewrite (PlacePieceOnGround_eq P c0 Hc0). simpl. apply andb_false_r.
Qed.

(** Drawing a second time, into any chunk, moves no piece: the ground snap
    of [DrawIntoChunk] happens once. *)
Theorem DrawIntoChunk_idempotent (V : cVillage) (a_Chunk a_Chunk' : cChunkDesc) :
  Forall (fun P => m_Connectors (GetPiece P) <> []) (m_Pieces V) ->
  (DrawIntoChunk (DrawIntoChunk V a_Chunk).1 a_Chunk').1
  = (DrawIntoChunk V a_Chunk).1.
Proof.
  intros Hconn. rewrite !DrawIntoChunk_pieces. unfold set_Pieces. simpl.
  f_equal. rewrite <- list_fmap_compose. apply list_fmap_ext.
  intros i P HP. simpl. apply SnapAtDraw_idempotent.
  eapply Forall_lookup_1 in Hconn; [exact Hconn|exact HP].
Qed.

(** What the constructor's cascade placed is not moved again when the
    village is drawn: the root and every piece that cascaded from it are
    after [DrawIntoChunk] where the constructor put them. *)
Theorem cascade_survives_drawing (a_Seed a_GridX a_GridZ a_OriginX a_OriginZ
    a_MaxRoadDepth a_MaxSize a_Density : Z) (a_Prefabs : cVillagePiecePool)
    (a_RoadBlock a_WaterRoadBlock : BLOCKTYPE)
    (Root : cPlacedPiece) (c0 : cConnector) (a_Chunk : cChunkDesc) (k : nat) :
  let V := cVillage_new a_Seed a_GridX a_GridZ a_OriginX a_OriginZ
             a_MaxRoadDepth a_MaxSize a_Density a_Prefabs
             a_RoadBlock a_WaterRoadBlock in
  let assembled :=
    PlacePieces (cVillage_PiecePool V) a_Seed a_OriginX 0 a_OriginZ
                (a_MaxRoadDepth + 1) in
  ParentsFirst assembled ->
  assembled !! 0%nat = Some Root ->
  ShouldMoveToGround (GetPiece Root) = true ->
  m_Connectors (GetPiece Root) !! 0%nat = Some c0 ->
  k = 0%nat \/ Cascades assembled 0 k ->
  m_Pieces (DrawIntoChunk V a_Chunk).1 !! k = m_Pieces V !! k.
Proof.
  intros V assembled Hpf HRoot Hground Hc0 Hk.
  rewrite DrawIntoChunk_pieces. simpl. rewrite list_lookup_fmap.
  assert (exists P delta, m_Pieces V !! k = Some (MoveToGroundBy delta P))
    as (P & delta & ->).
  { unfold V. rewrite cVillage_new_pieces.
    destruct (SnapToGround_spec _ Root c0 Hpf HRoot Hground Hc0)
      as (Root' & delta & Hroot' & -> & _ & _ & Hcasc & _).
    destruct Hk as [->|Hk]; [by exists Root, delta|].
    assert (is_Some (assembled !! k)) as [P HP].
    { apply lookup_lt_is_Some. destruct Hk as (c & Hc).
      apply (CascadeChain_bounds _ _ _ _ Hpf) in Hc. lia. }
    exists P, delta. by apply Hcasc. }
  simpl. f_equal. unfold SnapAtDraw. simpl.
  rewrite andb_false_r. by destruct (IsRoad _).
Qed.

(** ** More on drawing a road *)

Lemma length_for_upto (first last : Z) :
  length (for_upto first last) = Z.to_nat (last - first + 1).
Proof.
  unfold for_upto.
  replace (last - first + 1) with (last + 1 - first) by lia.
  generalize (last + 1). intros limit.
  revert first. apply (for_below_steps_ind limit 1). intros first IH.
  rewrite for_below_eq. destruct (decide (first < limit)) as [Hlt|Hge].
  - cbn [length]. rewrite (IH Hlt). lia.
  - cbn [length]. lia.
Qed.

Lemma length_columns (xs zs : list Z) :
  length (zs ≫= fun z => (fun x => (x, z)) <$> xs) = (length xs * length zs)%nat.
Proof.
  induction zs as [|z zs IH]; [simpl; lia|].
  rewrite bind_cons, length_app, length_fmap, IH. simpl. lia.
Qed.

Lemma DrawRoad_columns_chunk (V : cVillage) (hm : HeightMap)
    (cols : list (Z * Z)) (a_Chunk : cChunkDesc) :
  let after :=
    foldl (fun a_Chunk col => DrawRoad_column V hm a_Chunk col.1 col.2)
          a_Chunk cols in
  m_ChunkX after = m_ChunkX a_Chunk /\ m_ChunkZ after = m_ChunkZ a_Chunk.
Proof.
  revert a_Chunk. induction cols as [|[x z] cols IH]; intros a_Chunk; [done|].
  simpl. destruct (IH (DrawRoad_column V hm a_Chunk x z)) as [-> ->].
  apply DrawRoad_column_chunk.
Qed.

Lemma DrawRoad_chunk (V : cVillage) (a_Chunk : cChunkDesc) (a_Road : cPlacedPiece)
    (hm : HeightMap) :
  GetChunkX (DrawRoad V a_Chunk a_Road hm) = GetChunkX a_Chunk
  /\ GetChunkZ (DrawRoad V a_Chunk a_Road hm) = GetChunkZ a_Chunk.
Proof.
  unfold DrawRoad, GetChunkX, GetChunkZ.
  destruct (ClipRoad a_Chunk a_Road) as [[[MinX MaxX] MinZ] MaxZ].
  rewrite DrawRoad_loops. apply DrawRoad_columns_chunk.
Qed.

(** A road is drawn with one write per column of its clipped footprint:
    the number of writes is the area of the clipped rectangle, never more
    than the area of a chunk. *)
Theorem DrawRoad_write_count (V : cVillage) (a_Chunk : cChunkDesc)
    (a_Road : cPlacedPiece) (a_HeightMap : HeightMap) :
  let writes :=
    writes_between a_Chunk (DrawRoad V a_Chunk a_Road a_HeightMap) in
  let '(MinX, MaxX, MinZ, MaxZ) := ClipRoad a_Chunk a_Road in
  length writes = (Z.to_nat (MaxX - MinX + 1) * Z.to_nat (MaxZ - MinZ + 1))%nat
  /\ (length writes <= Z.to_nat Width * Z.to_nat Width)%nat.
Proof.
  intros writes.
  assert (let '(MinX, MaxX, MinZ, MaxZ) := ClipRoad a_Chunk a_Road in
          0 <= MinX /\ MaxX <= Width - 1 /\ 0 <= MinZ /\ MaxZ <= Width - 1)
    as Hbounds by (unfold ClipRoad; simpl; lia).
  unfold writes, writes_between, DrawRoad.
  destruct (ClipRoad a_Chunk a_Road) as [[[MinX MaxX] MinZ] MaxZ].
  rewrite DrawRoad_loops.
  destruct (DrawRoad_columns V a_HeightMap
              (for_upto MinZ MaxZ ≫= fun z => (fun x => (x, z)) <$> for_upto MinX MaxX)
              a_Chunk) as [Hlog _];
    [apply NoDup_columns; apply NoDup_for_upto|].
  rewrite Hlog, drop_app_length, length_fmap, length_columns, !length_for_upto.
  split; [done|].
  apply Nat.mul_le_mono; lia.
Qed.

(** Drawing a road touches the columns of its clipped footprint only: the
    block of any other column, at any height, is as it was, and the chunk
    is still the same chunk. *)
Theorem DrawRoad_frame (V : cVillage) (a_Chunk : cChunkDesc)
    (a_Road : cPlacedPiece) (a_HeightMap : HeightMap) (x y z : Z) :
  ~ RoadColumn a_Chunk a_Road x z ->
  let after := DrawRoad V a_Chunk a_Road a_HeightMap in
  GetBlockType after x y z = GetBlockType a_Chunk x y z
  /\ GetChunkX after = GetChunkX a_Chunk
  /\ GetChunkZ after = GetChunkZ a_Chunk.
Proof.
  intros Hout after. split; [|apply DrawRoad_chunk].
  destruct (DrawRoad_spec V a_Chunk a_Road a_HeightMap)
    as (cols & _ & Hcols & _ & Hblocks).
  unfold after. rewrite Hblocks, decide_False; [done|].
  intros [Hin _]. by apply Hout, Hcols.
Qed.

Lemma RoadColumn_DrawRoad (V : cVillage) (a_Chunk : cChunkDesc)
    (a_Road a_Road' : cPlacedPiece) (hm : HeightMap) (x z : Z) :
  RoadColumn (DrawRoad V a_Chunk a_Road hm) a_Road' x z
  <-> RoadColumn a_Chunk a_Road' x z.
Proof.
  unfold RoadColumn. by destruct (DrawRoad_chunk V a_Chunk a_Road hm) as [-> ->].
Qed.

(** The blocks after two roads, one drawn after the other. *)
Lemma DrawRoad_twice_blocks (V : cVillage) (a_Chunk : cChunkDesc)
    (r1 r2 : cPlacedPiece) (hm : HeightMap) :
  exists cols1 cols2 : list (Z * Z),
    (forall x z, (x, z) ∈ cols1 <-> RoadColumn a_Chunk r1 x z)
    /\ (forall x z, (x, z) ∈ cols2 <-> RoadColumn a_Chunk r2 x z)
    /\ forall x y z,
         GetBlockType (DrawRoad V (DrawRoad V a_Chunk r1 hm) r2 hm) x y z =
         let b := GetBlockType a_Chunk x y z in
         let b1 := if decide ((x, z) ∈ cols1 /\ y = GetHeight hm x z)
                   then paving V b else b in
         if decide ((x, z) ∈ cols2 /\ y = GetHeight hm x z)
         then paving V b1 else b1.
Proof.
  destruct (DrawRoad_spec V a_Chunk r1 hm) as (cols1 & _ & Hcols1 & _ & Hb1).
  destruct (DrawRoad_spec V (DrawRoad V a_Chunk r1 hm) r2 hm)
    as (cols2 & _ & Hcols2 & _ & Hb2).
  exists cols1, cols2. split; [done|]. split.
  - intros x z. rewrite Hcols2. apply RoadColumn_DrawRoad.
  - intros x y z. simpl. by rewrite Hb2, Hb1.
Qed.

(** Two roads drawn into a chunk give the same blocks in either order.
    Where their footprints overlap the second road paves the paving of the
    first, so a water crossing laid there by the first road is paved over
    with the default material (the two materials not being water). *)
Theorem DrawRoad_two_roads (V : cVillage) (a_Chunk : cChunkDesc)
    (r1 r2 : cPlacedPiece) (a_HeightMap : HeightMap) (x y z : Z) :
  let both := DrawRoad V (DrawRoad V a_Chunk r1 a_HeightMap) r2 a_HeightMap in
  let h := GetHeight a_HeightMap x z in
  GetBlockType both x y z
  = GetBlockType (DrawRoad V (DrawRoad V a_Chunk r2 a_HeightMap) r1 a_HeightMap)
                 x y z
  /\ (RoadColumn a_Chunk r1 x z -> RoadColumn a_Chunk r2 x z ->
      GetBlockType both x h z = paving V (paving V (GetBlockType a_Chunk x h z))
      /\ (IsBlockWater (m_RoadBlock V) = false ->
          IsBlockWater (m_WaterRoadBlock V) = false ->
          GetBlockType both x h z = m_RoadBlock V)).
Proof.
  intros both h.
  destruct (DrawRoad_twice_blocks V a_Chunk r1 r2 a_HeightMap)
    as (cols1 & cols2 & Hcols1 & Hcols2 & H12).
  destruct (DrawRoad_twice_blocks V a_Chunk r2 r1 a_HeightMap)
    as (cols2' & cols1' & Hcols2' & Hcols1' & H21).
  split.
  - unfold both. rewrite H12, H21. simpl.
    assert ((x, z) ∈ cols1 <-> (x, z) ∈ cols1') as Hsame1
      by by rewrite Hcols1, Hcols1'.
    assert ((x, z) ∈ cols2 <-> (x, z) ∈ cols2') as Hsame2
      by by rewrite Hcols2, Hcols2'.
    repeat destruct (decide _); tauto.
  - intros Hr1 Hr2.
    assert (GetBlockType both x h z
            = paving V (paving V (GetBlockType a_Chunk x h z))) as Hboth.
    { unfold both. rewrite H12. simpl.
      rewrite !decide_True; [done| |]; (split; [|done]).
      - by apply Hcols1.
      - by apply Hcols2. }
    split; [exact Hboth|].
    intros HR HW. rewrite Hboth. unfold paving.
    destruct (IsBlockWater (GetBlockType a_Chunk x h z)); by rewrite ?HR, ?HW.
Qed.

(** ** More on the density check *)

(** Raising the density never rejects a candidate: a candidate that a
    village accepts at a connector is accepted, with the same weight, by
    every village of the same noise and a density at least as high. *)
Theorem density_monotone (V V' : cVillage) (a_PlacedPiece : cPlacedPiece)
    (a_ExistingConnector : cConnector) (a_NewPiece : cPrefab) :
  m_Noise V' = m_Noise V ->
  m_Density V <= m_Density V' ->
  cVillage_GetPieceWeight V a_PlacedPiece a_ExistingConnector a_NewPiece <> 0 ->
  cVillage_GetPieceWeight V' a_PlacedPiece a_ExistingConnector a_NewPiece
  = cVillage_GetPieceWeight V a_PlacedPiece a_ExistingConnector a_NewPiece.
Proof.
  unfold cVillage_GetPieceWeight. intros -> Hle.
  destruct (bool_decide (m_Type a_ExistingConnector = 1)); [|done].
  simpl. set (rnd := (_ `quot` 7) `rem` 100).
  destruct (bool_decide (rnd > m_Density V)) eqn:Hrej; [done|].
  intros _. apply bool_decide_eq_false in Hrej.
  rewrite bool_decide_eq_false_2; [done|lia].
Qed.

(** The two ends of the density range.  From density 99 on the check
    rejects nothing, at any connector: the reduced hash is below 100.  With a
    density below 0 every candidate at a building connector is rejected (the
    hash not being negative). *)
Theorem density_extremes (V : cVillage) (a_PlacedPiece : cPlacedPiece)
    (a_ExistingConnector : cConnector) (a_NewPiece : cPrefab) :
  let Coords := m_Pos (GetRotatedConnector a_PlacedPiece a_ExistingConnector) in
  (99 <= m_Density V ->
   cVillage_GetPieceWeight V a_PlacedPiece a_ExistingConnector a_NewPiece
   = cVillagePiecePool_GetPieceWeight a_PlacedPiece a_ExistingConnector a_NewPiece)
  /\ (m_Density V < 0 ->
      m_Type a_ExistingConnector = 1 ->
      0 <= IntNoise3DInt (m_Noise V) (Vector3i.x Coords) (Vector3i.y Coords)
                         (Vector3i.z Coords) ->
      cVillage_GetPieceWeight V a_PlacedPiece a_ExistingConnector a_NewPiece = 0).
Proof.
  simpl. unfold cVillage_GetPieceWeight. split.
  - intros Hfull. destruct (bool_decide (m_Type a_ExistingConnector = 1)); [|done].
    simpl. set (n := IntNoise3DInt _ _ _ _ `quot` 7).
    rewrite bool_decide_eq_false_2; [done|].
    pose proof (Z.rem_bound_abs n 100 ltac:(lia)). lia.
  - intros Hnone Htype Hnoise. rewrite (bool_decide_eq_true_2 _ Htype). simpl.
    rewrite bool_decide_eq_true_2; [done|].
    assert (0 <= (IntNoise3DInt (m_Noise V)
                    (Vector3i.x (m_Pos (GetRotatedConnector a_PlacedPiece
                                          a_ExistingConnector)))
                    (Vector3i.y (m_Pos (GetRotatedConnector a_PlacedPiece
                                          a_ExistingConnector)))
                    (Vector3i.z (m_Pos (GetRotatedConnector a_PlacedPiece
                                          a_ExistingConnector)))
                  `quot` 7) `rem` 100); [|simpl in *; lia].
    apply Z.rem_nonneg; [lia|]. by apply Z.quot_pos.
Qed.

(** ** More on CreateStructure *)

Lemma pool_at_elem (pools : list cVillagePiecePool) (index : Z)
    (dflt : cVillagePiecePool) :
  0 <= index < Z.of_nat (length pools) -> pool_at pools index dflt ∈ pools.
Proof.
  intros Hindex. unfold pool_at. rewrite bool_decide_eq_true_2 by lia.
  destruct (pools !! Z.to_nat index) as [pool|] eqn:Hpool.
  - simpl. by eapply list_elem_of_lookup_2.
  - apply lookup_ge_None in Hpool. lia.
Qed.

(** A structure that [CreateStructure] returns: its sample is friendly and
    not empty, and it is the village built for the family of the last biome
    of the sample. *)
Lemma CreateStructure_Some (G : cVillageGen.t)
    (a_GridX a_GridZ a_OriginX a_OriginZ : Z) (V : cVillage) :
  CreateStructure G a_GridX a_GridZ a_OriginX a_OriginZ = Some V ->
  exists b,
    Forall (fun b => IsVillageFriendly b = true) (origin_biomes a_OriginX a_OriginZ)
    /\ last (origin_biomes a_OriginX a_OriginZ) = Some b
    /\ V = cVillage_new (cVillageGen.m_Seed G) a_GridX a_GridZ a_OriginX a_OriginZ
             (cVillageGen.m_MaxDepth G) (cVillageGen.m_MaxSize G)
             (ChooseDensity G (origin_rnd G a_OriginX a_OriginZ))
             (if IsDesertFamily b then origin_DesertVillage G a_OriginX a_OriginZ
              else origin_PlainsVillage G a_OriginX a_OriginZ)
             E_BLOCK_GRAVEL E_BLOCK_PLANKS.
Proof.
  rewrite CreateStructure_eq. intros Hcreate.
  assert (Forall (fun b => IsVillageFriendly b = true)
                 (origin_biomes a_OriginX a_OriginZ)) as Hall.
  { apply Forall_forall. intros b Hb.
    destruct (IsVillageFriendly b) eqn:Hf; [done|].
    assert (CheckBiomes (origin_DesertVillage G a_OriginX a_OriginZ)
              (origin_PlainsVillage G a_OriginX a_OriginZ)
              (origin_biomes a_OriginX a_OriginZ) None = None) as Hnone
      by (apply CheckBiomes_unfriendly; eauto).
    by rewrite Hnone in Hcreate. }
  rewrite (CheckBiomes_friendly _ _ _ _ Hall) in Hcreate.
  destruct (last (origin_biomes a_OriginX a_OriginZ)) as [b|]; [|done].
  exists b. by injection Hcreate as <-.
Qed.

(** The density of a structure lies in the configured range: from the
    minimum up to, but not including, the maximum when the minimum is below
    the maximum; and within [0, 100] whenever both bounds are (the hash not
    being negative). *)
Theorem village_density_range (G : cVillageGen.t)
    (a_GridX a_GridZ a_OriginX a_OriginZ : Z) (V : cVillage) :
  CreateStructure G a_GridX a_GridZ a_OriginX a_OriginZ = Some V ->
  0 <= IntNoise2DInt (cVillageGen.m_Noise G) a_OriginX a_OriginZ ->
  (cVillageGen.m_MinDensity G < cVillageGen.m_MaxDensity G ->
   cVillageGen.m_MinDensity G <= m_Density V < cVillageGen.m_MaxDensity G)
  /\ (0 <= cVillageGen.m_MinDensity G <= 100 ->
      cVillageGen.m_MaxDensity G <= 100 ->
      0 <= m_Density V <= 100).
Proof.
  intros (b & _ & _ & ->)%CreateStructure_Some Hnoise.
  match goal with |- context [m_Density ?W] =>
    replace (m_Density W)
      with (ChooseDensity G (origin_rnd G a_OriginX a_OriginZ))
      by (symmetry; apply cVillage_new_fields) end.
  assert (0 <= origin_rnd G a_OriginX a_OriginZ) as Hrnd
    by (unfold origin_rnd; by apply Z.quot_pos).
  unfold ChooseDensity.
  destruct (bool_decide (cVillageGen.m_MaxDensity G > cVillageGen.m_MinDensity G))
    eqn:Hcmp.
  - apply bool_decide_eq_true in Hcmp.
    pose proof (Z.rem_bound_pos (origin_rnd G a_OriginX a_OriginZ)
                  (cVillageGen.m_MaxDensity G - cVillageGen.m_MinDensity G)
                  Hrnd ltac:(lia)).
    lia.
  - apply bool_decide_eq_false in Hcmp. lia.
Qed.

(** Whatever the biomes, the roads of a structure are gravel and its water
    crossings planks (a desert village gets no sandstone road); its borders
    are the square of radius [m_MaxSize] around the origin, over the whole
    height of the world; and its noise is seeded with the seed of the
    generator. *)
Theorem village_materials_and_borders (G : cVillageGen.t)
    (a_GridX a_GridZ a_OriginX a_OriginZ : Z) (V : cVillage) :
  CreateStructure G a_GridX a_GridZ a_OriginX a_OriginZ = Some V ->
  m_RoadBlock V = E_BLOCK_GRAVEL
  /\ m_WaterRoadBlock V = E_BLOCK_PLANKS
  /\ m_Borders V =
       mkCuboid
         (Vector3i.mk (a_OriginX - cVillageGen.m_MaxSize G) 0
                      (a_OriginZ - cVillageGen.m_MaxSize G))
         (Vector3i.mk (a_OriginX + cVillageGen.m_MaxSize G) (Height - 1)
                      (a_OriginZ + cVillageGen.m_MaxSize G))
  /\ m_Noise V = cVillageGen.m_Seed G
  /\ (m_GridX V, m_GridZ V, m_OriginX V, m_OriginZ V)
     = (a_GridX, a_GridZ, a_OriginX, a_OriginZ).
Proof.
  intros (b & _ & _ & ->)%CreateStructure_Some.
  unfold cVillage_new. by destruct (PlacePieces _ _ _ _ _ _).
Qed.

(** The style of a structure is taken from the list of its family: a desert
    pool when the last biome of the sample is of the desert family, a plains
    pool otherwise.  The index into the list stays within the list, the
    hash of the origin not being negative. *)
Theorem village_pool_in_family (G : cVillageGen.t)
    (a_GridX a_GridZ a_OriginX a_OriginZ : Z) (V : cVillage) :
  CreateStructure G a_GridX a_GridZ a_OriginX a_OriginZ = Some V ->
  0 <= IntNoise2DInt (cVillageGen.m_Noise G) a_OriginX a_OriginZ ->
  exists b,
    last (origin_biomes a_OriginX a_OriginZ) = Some b
    /\ (IsDesertFamily b = true -> m_Prefabs V ∈ g_DesertVillagePools)
    /\ (IsDesertFamily b = false -> m_Prefabs V ∈ g_PlainsVillagePools).
Proof.
  intros (b & _ & Hlast & ->)%CreateStructure_Some Hnoise.
  exists b. split; [exact Hlast|].
  match goal with |- context [m_Prefabs ?W] =>
    replace (m_Prefabs W)
      with (if IsDesertFamily b then origin_DesertVillage G a_OriginX a_OriginZ
            else origin_PlainsVillage G a_OriginX a_OriginZ)
      by (symmetry; apply cVillage_new_fields) end.
  assert (0 <= origin_rnd G a_OriginX a_OriginZ) as Hrnd
    by (unfold origin_rnd; by apply Z.quot_pos).
  split; intros ->.
  - apply pool_at_elem. simpl.
    pose proof (Z.rem_bound_pos (origin_rnd G a_OriginX a_OriginZ) 3
                  Hrnd ltac:(lia)). lia.
  - apply pool_at_elem. simpl.
    pose proof (Z.rem_bound_pos (origin_rnd G a_OriginX a_OriginZ) 2
                  Hrnd ltac:(lia)). lia.
Qed.

(** The cell of the grid a structure is made for is recorded and nothing
    more: two calls for the same origin and different cells return
    structures with the same pieces, density, style, borders and
    materials, or both none. *)
Theorem CreateStructure_grid_free (G : cVillageGen.t)
    (a_GridX a_GridZ a_GridX' a_GridZ' a_OriginX a_OriginZ : Z) :
  (fun V => (m_Pieces V, m_Density V, m_Prefabs V, m_Borders V,
             m_Seed V, m_RoadBlock V, m_WaterRoadBlock V))
    <$> CreateStructure G a_GridX a_GridZ a_OriginX a_OriginZ
  = (fun V => (m_Pieces V, m_Density V, m_Prefabs V, m_Borders V,
               m_Seed V, m_RoadBlock V, m_WaterRoadBlock V))
      <$> CreateStructure G a_GridX' a_GridZ' a_OriginX a_OriginZ.
Proof.
  rewrite !CreateStructure_eq.
  destruct (CheckBiomes _ _ _ _) as [[pool|]|]; [|done|done].
  simpl. f_equal. unfold cVillage_new. cbv zeta.
  change (cVillage_PiecePool
            (cVillage_init (cVillageGen.m_Seed G) a_GridX a_GridZ a_OriginX
               a_OriginZ (cVillageGen.m_MaxSize G)
               (ChooseDensity G (origin_rnd G a_OriginX a_OriginZ)) pool
               E_BLOCK_GRAVEL E_BLOCK_PLANKS))
    with (cVillage_PiecePool
            (cVillage_init (cVillageGen.m_Seed G) a_GridX' a_GridZ' a_OriginX
               a_OriginZ (cVillageGen.m_MaxSize G)
               (ChooseDensity G (origin_rnd G a_OriginX a_OriginZ)) pool
               E_BLOCK_GRAVEL E_BLOCK_PLANKS)).
  by destruct (PlacePieces _ _ _ _ _ _).
Qed.

(** Whether a village is made depends on the biomes of the chunk of the
    origin and on nothing else: not on the place of the origin within the
    chunk, not on the grid cell, not on the seed or any other setting of the
    generator. *)
Theorem CreateStructure_accepts_by_chunk (G G' : cVillageGen.t)
    (a_GridX a_GridZ a_OriginX a_OriginZ : Z)
    (a_GridX' a_GridZ' a_OriginX' a_OriginZ' : Z) :
  BlockToChunk a_OriginX a_OriginZ = BlockToChunk a_OriginX' a_OriginZ' ->
  CreateStructure G a_GridX a_GridZ a_OriginX a_OriginZ = None
  <-> CreateStructure G' a_GridX' a_GridZ' a_OriginX' a_OriginZ' = None.
Proof.
  intros Hchunk.
  assert (origin_biomes a_OriginX a_OriginZ = origin_biomes a_OriginX' a_OriginZ')
    as Hbiomes.
  { unfold BlockToChunk in Hchunk. unfold origin_biomes.
    by injection Hchunk as -> ->. }
  assert (forall (G0 : cVillageGen.t) gx gz ox oz,
            CreateStructure G0 gx gz ox oz = None <->
            origin_biomes ox oz = []
            \/ exists b, b ∈ origin_biomes ox oz /\ IsVillageFriendly b = false)
    as Hnone.
  { intros G0 gx gz ox oz. split.
    - intros Hcreate.
      destruct (decide (Forall (fun b => IsVillageFriendly b = true)
                               (origin_biomes ox oz))) as [Hall|Hsome].
      + left. rewrite CreateStructure_eq, (CheckBiomes_friendly _ _ _ _ Hall)
          in Hcreate.
        destruct (last (origin_biomes ox oz)) eqn:Hlast; [done|].
        by apply last_None.
      + right. apply not_Forall_Exists in Hsome; [|apply _].
        apply Exists_exists in Hsome as (b & Hb & Hf).
        exists b. split; [done|]. by apply not_true_is_false.
    - rewrite CreateStructure_eq. intros [Hempty|Hbad].
      + by rewrite Hempty.
      + apply (CheckBiomes_unfriendly (origin_DesertVillage G0 ox oz)
                 (origin_PlainsVillage G0 ox oz) _ None) in Hbad.
        by rewrite Hbad. }
  by rewrite !Hnone, Hbiomes.
Qed.

(** ** More on the pool and its roads *)

Lemma lookup_push_back_by_connector (t t' : Z) (P : cPrefab)
    (m : gmap Z (list cPrefab)) :
  default [] (push_back_by_connector t P m !! t')
  = default [] (m !! t') ++ (if decide (t = t') then [P] else []).
Proof.
  unfold push_back_by_connector. destruct (decide (t = t')) as [->|Hne].
  - by rewrite lookup_insert_eq.
  - rewrite lookup_insert_ne by done. by rewrite app_nil_r.
Qed.

Lemma elem_of_RoadPieces (P : cPrefab) :
  P ∈ RoadPieces <-> exists L, (L = 27 \/ L = 39 \/ L = 51) /\ P = RoadPiece L.
Proof.
  rewrite RoadPieces_eq, !elem_of_cons, elem_of_nil. split.
  - intros [->|[->|[->|[]]]]; [exists 27|exists 39|exists 51]; auto.
  - intros (L & [->|[->| ->]] & ->); auto.
Qed.

(** The index of a style pool: the three roads are offered, after the
    pieces of the style, for the connector types -2, 1 and 2 and for no
    other type; every road does have a connector of each type it is offered
    for; and no road is a starting piece. *)
Theorem roads_in_index (a_PieceDefs a_StartingPieceDefs : list cPrefab)
    (a_ConnectorType : Z) :
  let pool :=
    cVillagePiecePool_PiecePool
      (cVillagePiecePool_new a_PieceDefs a_StartingPieceDefs) in
  let base :=
    cVillagePiecePool_PiecePool
      (cPrefabPiecePool_new a_PieceDefs a_StartingPieceDefs) in
  let offered :=
    a_ConnectorType = -2 \/ a_ConnectorType = 1 \/ a_ConnectorType = 2 in
  GetPiecesWithConnector pool a_ConnectorType
  = GetPiecesWithConnector base a_ConnectorType
    ++ (if decide offered then [RoadPiece 27; RoadPiece 39; RoadPiece 51] else [])
  /\ (offered ->
      forall P, P ∈ [RoadPiece 27; RoadPiece 39; RoadPiece 51] ->
                exists c, c ∈ m_Connectors P /\ m_Type c = a_ConnectorType)
  /\ GetStartingPieces pool = a_StartingPieceDefs.
Proof.
  simpl. split; [|split; [|reflexivity]].
  - unfold cVillagePiecePool_new. rewrite road_lengths. cbn [foldl].
    cbn [m_PiecesByConnector]. rewrite !lookup_push_back_by_connector.
    repeat destruct (decide _); try lia; simpl;
      by rewrite ?app_nil_r, <- ?app_assoc.
  - intros Hoffered P HP.
    assert (exists L, (L = 27 \/ L = 39 \/ L = 51) /\ P = RoadPiece L)
      as (L & HL & ->) by (apply elem_of_RoadPieces; by rewrite RoadPieces_eq).
    setoid_rewrite elem_of_RoadPiece_connectors.
    destruct Hoffered as [->|[->| ->]].
    + exists (road_connector 0 1 BLOCK_FACE_XM (-2)). auto.
    + exists (road_connector (7 + 12 * 0) 0 BLOCK_FACE_ZM 1). split; [|done].
      right; right; right. exists 0. split; [lia|]. split; [lia|]. by left.
    + exists (road_connector (1 + 12 * 0) 0 BLOCK_FACE_ZM 2). split; [|done].
      right; right; left. exists 0. split; [lia|]. split; [lia|]. by left.
Qed.

(** Every connector of a road lies on the rim of the road and faces away
    from it: within the block area of the road, at height 0, at the end or
    the edge its direction names; and no two connectors of a road stand at
    the same place. *)
Theorem road_connectors_on_rim (a_PieceDefs a_StartingPieceDefs : list cPrefab)
    (P : cPrefab) (c : cConnector) :
  let pool := cVillagePiecePool_new a_PieceDefs a_StartingPieceDefs in
  P ∈ drop (length a_PieceDefs) (m_AllPieces pool) ->
  c ∈ m_Connectors P ->
  let L := Vector3i.x (GetSize P) in
  (Vector3i.y (m_Pos c) = 0
   /\ 0 <= Vector3i.x (m_Pos c) <= L - 1
   /\ 0 <= Vector3i.z (m_Pos c) <= Vector3i.z (GetSize P) - 1)
  /\ match m_Direction c with
     | BLOCK_FACE_XM => Vector3i.x (m_Pos c) = 0
     | BLOCK_FACE_XP => Vector3i.x (m_Pos c) = L - 1
     | BLOCK_FACE_ZM => Vector3i.z (m_Pos c) = 0
     | BLOCK_FACE_ZP => Vector3i.z (m_Pos c) = Vector3i.z (GetSize P) - 1
     | BLOCK_FACE_YM | BLOCK_FACE_YP => False
     end
  /\ forall c', c' ∈ m_Connectors P -> m_Pos c' = m_Pos c -> c' = c.
Proof.
  simpl. rewrite cVillagePiecePool_new_AllPieces, drop_app_length.
  intros (L & HL & ->)%elem_of_RoadPieces Hc.
  rewrite RoadPiece_size. simpl.
  apply elem_of_RoadPiece_connectors in Hc.
  split; [|split].
  - destruct Hc as [->|[->|[(k & ? & ? & [->| ->])|(k & ? & ? & [->| ->])]]];
      simpl; lia.
  - destruct Hc as [->|[->|[(k & ? & ? & [->| ->])|(k & ? & ? & [->| ->])]]];
      simpl; lia.
  - intros c' Hc' Hpos. apply elem_of_RoadPiece_connectors in Hc'.
    destruct Hc as [->|[->|[(k & ? & ? & [->| ->])|(k & ? & ? & [->| ->])]]];
    destruct Hc' as [->|[->|[(k' & ? & ? & [->| ->])|(k' & ? & ? & [->| ->])]]];
      unfold road_connector in *; simpl in Hpos;
      first [ reflexivity
            | injection Hpos; intros;
              first [ lia | assert (k' = k) as -> by lia; reflexivity ] ].
Qed.

End VillageGenMore.

(** * The properties on the concrete world *)

Import Sample.

(** C5 on the Japanese pool of the concrete world: its road of length 39. *)
Lemma road_pieces_layout_witness :
  RoadPiece 39 ∈ drop (length g_JapaneseVillagePrefabs) (m_AllPieces g_JapaneseVillage)
  /\ exists L,
       (L = 27 \/ L = 39 \/ L = 51) /\
       GetSize (RoadPiece 39) = Vector3i.mk L 1 3 /\
       NoDup (m_Connectors (RoadPiece 39)) /\
       (forall c, c ∈ m_Connectors (RoadPiece 39) ->
          m_Type c = -2 \/ m_Type c = 2 \/ m_Type c = 1) /\
       (forall c, c ∈ m_Connectors (RoadPiece 39) /\ m_Type c = -2 <->
          c = road_connector 0 1 BLOCK_FACE_XM (-2)
          \/ c = road_connector (L - 1) 1 BLOCK_FACE_XP (-2)) /\
       (forall c, c ∈ m_Connectors (RoadPiece 39) /\ m_Type c = 2 <->
          exists k, 0 <= k /\ 1 + 12 * k < L /\
            (c = road_connector (1 + 12 * k) 0 BLOCK_FACE_ZM 2
             \/ c = road_connector (1 + 12 * k) 2 BLOCK_FACE_ZP 2)) /\
       (forall c, c ∈ m_Connectors (RoadPiece 39) /\ m_Type c = 1 <->
          exists k, 0 <= k /\ 7 + 12 * k < L /\
            (c = road_connector (7 + 12 * k) 0 BLOCK_FACE_ZM 1
             \/ c = road_connector (7 + 12 * k) 2 BLOCK_FACE_ZP 1)).
Proof.
  assert (RoadPiece 39 ∈ drop (length g_JapaneseVillagePrefabs)
                          (m_AllPieces g_JapaneseVillage)) as Hin.
  { unfold g_JapaneseVillage.
    rewrite cVillagePiecePool_new_AllPieces, drop_app_length, RoadPieces_eq.
    right. left. }
  split; [exact Hin|].
  exact (road_pieces_layout g_JapaneseVillagePrefabs
           g_JapaneseVillageStartingPrefabs (RoadPiece 39) Hin).
Defined.

(** C1 on the road of the concrete world, at depth 1: no candidate at its
    side connector, the house's own weight at its building slot. *)
Lemma road_branch_weight_witness :
  (Vector3i.y (GetSize (GetPiece road)) = 1 /\ GetDepth road > 0
   /\ m_Type side = 2 /\ m_Type slot = 1)
  /\ (cVillagePiecePool_GetPieceWeight road side (RoadPiece 39) = 0
      /\ forall V : cVillage,
           cVillage_GetPieceWeight V road side (RoadPiece 39) = 0)
  /\ cVillagePiecePool_GetPieceWeight road slot house =
     cPrefab_GetPieceWeight house road slot.
Proof.
  assert (Vector3i.y (GetSize (GetPiece road)) = 1) as Hheight
    by apply (f_equal Vector3i.y (RoadPiece_size 27)).
  assert (GetDepth road > 0) as Hdepth by (vm_compute; reflexivity).
  split; [repeat split; done|].
  split.
  - exact (proj1 (road_branch_weight road side (RoadPiece 39))
             Hheight Hdepth eq_refl).
  - exact (proj2 (road_branch_weight road slot house) eq_refl).
Defined.

(** C2 on the village of the concrete world: the value at the building slot
    of the road is 94, above the density 53, and the house is rejected. *)
Lemma village_piece_weight_witness :
  (m_Type slot = 1
   /\ 0 <= IntNoise3DInt (m_Noise village) 9 65 (-3)
   /\ density_rnd village road slot > m_Density village)
  /\ 0 <= density_rnd village road slot < 100
  /\ cVillage_GetPieceWeight village road slot house = 0
  /\ cVillage_GetPieceWeight village road side house =
     cVillagePiecePool_GetPieceWeight road side house.
Proof.
  assert (0 <= IntNoise3DInt (m_Noise village) 9 65 (-3)) as Hnoise
    by (vm_compute; discriminate).
  assert (density_rnd village road slot > m_Density village) as Hrnd
    by (vm_compute; reflexivity).
  split; [repeat split; done|].
  destruct (village_piece_weight village road slot house) as [Hslot _].
  destruct (Hslot eq_refl) as (Hrange & Hzero & _).
  destruct (village_piece_weight village road side house) as [_ Hside].
  split; [exact (Hrange Hnoise)|].
  split; [exact (Hzero Hrnd)|].
  apply Hside. discriminate.
Defined.

(** C8 at the origin of the concrete world: the density is 53. *)
Lemma village_density_witness :
  CreateStructure gen 0 0 0 0 = Some village
  /\ (cVillageGen.m_MaxDensity gen > cVillageGen.m_MinDensity gen ->
      m_Density village =
      cVillageGen.m_MinDensity gen
      + origin_rnd gen 0 0
          `rem` (cVillageGen.m_MaxDensity gen - cVillageGen.m_MinDensity gen))
  /\ (cVillageGen.m_MaxDensity gen <= cVillageGen.m_MinDensity gen ->
      m_Density village = cVillageGen.m_MinDensity gen).
Proof.
  assert (CreateStructure gen 0 0 0 0 = Some village) as Hcreate
    by (vm_compute; reflexivity).
  split; [exact Hcreate|].
  exact (village_density gen 0 0 0 0 village Hcreate).
Defined.

(** C9 at the origin of the concrete world, on the fresh shared objects and
    on the used ones. *)
Lemma CreateStructure_deterministic_witness :
  Shared.GeneratorsRepeat
  /\ (Shared.ReadOnlyPools \/ (Shared.ResetClears /\ Shared.ResetsFirst))
  /\ (let G := cVillageGen_new 1 384 128 2 128 50 80 in
      let first := Shared.CreateStructure G 0 0 0 0 fresh in
      let second := Shared.CreateStructure G 0 0 0 0 first.2 in
      let other := Shared.CreateStructure G 0 0 0 0 used in
      second.1 = first.1
      /\ other.1 = first.1
      /\ Shared.same_result first.1 second.1
      /\ Shared.same_result first.1 other.1).
Proof.
  assert (Shared.GeneratorsRepeat) as Hgen by (split; intros; reflexivity).
  assert (Shared.ResetClears) as Hclears by (intros ? ? ?; reflexivity).
  assert (Shared.ResetsFirst) as Hfirst
    by (intros ? ? ? ? ?; eexists; reflexivity).
  split; [exact Hgen|]. split; [right; exact (conj Hclears Hfirst)|].
  exact (CreateStructure_deterministic 1 384 128 2 128 50 80 0 0 0 0 fresh used
           Hgen (or_intror (conj Hclears Hfirst))).
Defined.

(** The shared objects of the concrete world do change, and what they keep
    does matter.  The first call at the origin makes a village of two pieces
    and leaves two pieces counted in the Japanese pool and each generator
    asked once; on what it leaves, the run of the piece generator without
    its first [Reset] places nothing.  The pools are not read-only. *)
Lemma shared_objects_matter :
  let first := Shared.CreateStructure gen 0 0 0 0 fresh in
  (length <$> (m_Pieces <$> first.1)) = Some 2%nat
  /\ Shared.pool_state first.2 Shared.addr_g_JapaneseVillage = 2%nat
  /\ Shared.pool_state first.2 Shared.addr_g_PlainsVillage = 0%nat
  /\ Shared.m_BiomeGen first.2 = 1%nat
  /\ Shared.m_HeightGen first.2 = 1%nat
  /\ (Shared.PlacePieces village Shared.addr_g_JapaneseVillage
        (Shared.call_Reset (place 0 0 0)) first.2).1 <> []
  /\ (Shared.PlacePieces village Shared.addr_g_JapaneseVillage
        (place 0 0 0) first.2).1 = []
  /\ ~ Shared.ReadOnlyPools.
Proof.
  intros first. repeat split; try by vm_compute.
  intros (_ & Hstarting & _).
  specialize (Hstarting g_JapaneseVillage 0%nat 5%nat).
  vm_compute in Hstarting. discriminate Hstarting.
Qed.

(** The collaborators of the concrete world, as shared objects that keep
    nothing: [CreateStructure] on them is [CreateStructure] of the first
    part, at any origin. *)
Lemma CreateStructure_stateless_sample
    (a_GridX a_GridZ a_OriginX a_OriginZ : Z)
    (σ : @Shared.Store stateless) :
  (@Shared.CreateStructure _ _ _ _ stateless gen a_GridX a_GridZ
     a_OriginX a_OriginZ σ).1
  = CreateStructure gen a_GridX a_GridZ a_OriginX a_OriginZ.
Proof.
  apply (@CreateStructure_stateless _ _ _ _ _ stateless).
  repeat split; intros; reflexivity.
Qed.

(** Counterexample to C3 as stated: the chunk of the origin (16, 0) holds
    desert and plains, all of it village-friendly, and a structure is made. *)
Lemma mixed_biomes_not_rejected :
  Forall (fun b => IsVillageFriendly b = true) (origin_biomes 16 0)
  /\ biDesert ∈ origin_biomes 16 0
  /\ biPlains ∈ origin_biomes 16 0
  /\ CreateStructure gen 0 0 16 0 <> None.
Proof.
  split; [|split; [|split]].
  - by_computation.
  - by_computation.
  - by_computation.
  - vm_compute. discriminate.
Qed.

(** C3, as the code has it, at the origin (16, 0) of the concrete world. *)
Lemma mixed_biomes_last_wins_witness :
  (Forall (fun b => IsVillageFriendly b = true) (origin_biomes 16 0)
   /\ (exists b, b ∈ origin_biomes 16 0 /\ IsDesertFamily b = true)
   /\ (exists b, b ∈ origin_biomes 16 0 /\ IsPlainsFamily b = true))
  /\ exists V b,
       CreateStructure gen 0 0 16 0 = Some V
       /\ last (origin_biomes 16 0) = Some b
       /\ m_Prefabs V =
            if IsDesertFamily b then origin_DesertVillage gen 16 0
            else origin_PlainsVillage gen 16 0.
Proof.
  assert (Forall (fun b => IsVillageFriendly b = true) (origin_biomes 16 0))
    as Hall by by_computation.
  assert (exists b, b ∈ origin_biomes 16 0 /\ IsDesertFamily b = true) as Hdesert.
  { exists biDesert. split; [|reflexivity].
    by_computation. }
  assert (exists b, b ∈ origin_biomes 16 0 /\ IsPlainsFamily b = true) as Hplains.
  { exists biPlains. split; [|reflexivity].
    by_computation. }
  split; [repeat split; assumption|].
  exact (mixed_biomes_last_wins gen 0 0 16 0 Hall Hdesert Hplains).
Defined.

(** Counterexample to C6 as stated: at the origin (5, 0) the assembly yields
    no piece, and a structure is returned. *)
Lemma empty_assembly_not_rejected :
  exists V,
    CreateStructure gen 0 0 5 0 = Some V
    /\ PlacePieces (cVillage_PiecePool V) (cVillageGen.m_Seed gen) 5 0 0
                   (cVillageGen.m_MaxDepth gen + 1) = []
    /\ m_Pieces V = [].
Proof.
  eexists. split; [vm_compute; reflexivity|]. split; reflexivity.
Qed.

(** C6, as the code has it, at the origin (5, 0) of the concrete world. *)
Lemma CreateStructure_none_iff_witness :
  origin_biomes 5 0 <> []
  /\ (CreateStructure gen 0 0 5 0 = None <->
      exists b, b ∈ origin_biomes 5 0 /\ IsVillageFriendly b = false)
  /\ (forall V,
        CreateStructure gen 0 0 5 0 = Some V ->
        PlacePieces (cVillage_PiecePool V) (cVillageGen.m_Seed gen) 5 0 0
                    (cVillageGen.m_MaxDepth gen + 1) = [] ->
        m_Pieces V = []).
Proof.
  assert (origin_biomes 5 0 <> []) as Hne by (vm_compute; discriminate).
  split; [exact Hne|].
  exact (CreateStructure_none_iff gen 0 0 5 0 Hne).
Defined.

(** C4 on the village of the concrete world: the well goes up by 6, and so
    do the road and the house on it; the farm and its shed stay. *)
Lemma ground_snap_cascade_witness :
  (ParentsFirst pieces
   /\ pieces !! 0%nat = Some (placed None well 0 64 0 0)
   /\ ShouldMoveToGround (GetPiece (placed None well 0 64 0 0)) = true
   /\ m_Connectors (GetPiece (placed None well 0 64 0 0)) !! 0%nat
      = Some (mkConnector (Vector3i.mk 2 1 0) 2 BLOCK_FACE_ZM))
  /\ exists (Root' : cPlacedPiece) (delta : Z),
       m_Pieces village !! 0%nat = Some Root'
       /\ Root' = MoveToGroundBy delta (placed None well 0 64 0 0)
       /\ delta = Vector3i.y (GetCoords Root') - 64
       /\ Vector3i.y
            (m_Pos (GetRotatedConnector Root'
                      (mkConnector (Vector3i.mk 2 1 0) 2 BLOCK_FACE_ZM)))
          = TerrainHeightAt 2 0 + 1
       /\ (forall k P,
             pieces !! k = Some P -> Cascades pieces 0 k ->
             m_Pieces village !! k = Some (MoveToGroundBy delta P))
       /\ (forall k P,
             pieces !! k = Some P -> k <> 0%nat -> ~ Cascades pieces 0 k ->
             m_Pieces village !! k = Some P)
       /\ (forall j k Pj P,
             j <> 0%nat -> pieces !! j = Some Pj ->
             ShouldMoveToGround (GetPiece Pj) = true ->
             BelowOrAt pieces j k -> pieces !! k = Some P ->
             m_Pieces village !! k = Some P).
Proof.
  assert (ParentsFirst pieces) as Hpf.
  { intros i j P HP Hparent.
    do 5 (destruct i as [|i];
          [injection HP as <-; vm_compute in Hparent;
           first [discriminate Hparent | injection Hparent as <-; lia]|]).
    discriminate HP. }
  split; [repeat split; done|].
  exact (ground_snap_cascade 1 0 0 0 0 2 128 53 g_JapaneseVillage
           E_BLOCK_GRAVEL E_BLOCK_PLANKS (placed None well 0 64 0 0)
           (mkConnector (Vector3i.mk 2 1 0) 2 BLOCK_FACE_ZM)
           Hpf eq_refl eq_refl eq_refl).
Defined.

(** C7, as the code has it, on the column (3, 14) of the chunk (0, -1),
    whose surface block is water. *)
Lemma road_paving_witness :
  RoadColumn (chunk 0 (-1)) road 3 14
  /\ GetBlockType (DrawRoad village (chunk 0 (-1)) road (GenHeightMap 1 (-1)))
                  3 (GetHeight (GenHeightMap 1 (-1)) 3 14) 14
     = (if IsBlockWater (GetBlockType (chunk 0 (-1)) 3
                           (GetHeight (GenHeightMap 1 (-1)) 3 14) 14)
        then m_WaterRoadBlock village else m_RoadBlock village)
  /\ (forall y b,
        (3, y, 14, b) ∈ writes_between (chunk 0 (-1))
                          (DrawRoad village (chunk 0 (-1)) road
                                    (GenHeightMap 1 (-1))) <->
        y = GetHeight (GenHeightMap 1 (-1)) 3 14
        /\ b = if IsBlockWater (GetBlockType (chunk 0 (-1)) 3
                                  (GetHeight (GenHeightMap 1 (-1)) 3 14) 14)
               then m_WaterRoadBlock village else m_RoadBlock village)
  /\ (forall y, y <> GetHeight (GenHeightMap 1 (-1)) 3 14 ->
        GetBlockType (DrawRoad village (chunk 0 (-1)) road (GenHeightMap 1 (-1)))
                     3 y 14
        = GetBlockType (chunk 0 (-1)) 3 y 14).
Proof.
  assert (RoadColumn (chunk 0 (-1)) road 3 14) as Hcol.
  { apply ClipRoad_column. vm_compute. intuition discriminate. }
  split; [exact Hcol|].
  exact (road_paving village (chunk 0 (-1)) road (GenHeightMap 1 (-1)) 3 14 Hcol).
Defined.

(** C10 on the chunk (5, -1), which the road does not meet, and on the chunk
    (0, -1), which it crosses. *)
Lemma road_writes_in_chunk_witness :
  ((ClipRoad (chunk 5 (-1)) road).1.1.2 < (ClipRoad (chunk 5 (-1)) road).1.1.1
   /\ writes_between (chunk 5 (-1))
        (DrawRoad village (chunk 5 (-1)) road (GenHeightMap 5 (-1))) = []
   /\ forall x y z,
        GetBlockType (DrawRoad village (chunk 5 (-1)) road (GenHeightMap 5 (-1)))
                     x y z
        = GetBlockType (chunk 5 (-1)) x y z)
  /\ (forall x y z b,
        (x, y, z, b) ∈ writes_between (chunk 0 (-1))
                         (DrawRoad village (chunk 0 (-1)) road
                                   (GenHeightMap 0 (-1))) ->
        (2 <= x <= 15 /\ 13 <= z <= 15)
        /\ 0 <= x <= Width - 1 /\ 0 <= z <= Width - 1).
Proof.
  assert (ClipRoad (chunk 5 (-1)) road = (0, -52, 13, 15)) as Hfar
    by (vm_compute; reflexivity).
  assert (ClipRoad (chunk 0 (-1)) road = (2, 15, 13, 15)) as Hnear
    by (vm_compute; reflexivity).
  pose proof (road_writes_in_chunk village (chunk 5 (-1)) road
                (GenHeightMap 5 (-1))) as Hempty.
  pose proof (road_writes_in_chunk village (chunk 0 (-1)) road
                (GenHeightMap 0 (-1))) as Hwrites.
  cbv zeta in Hempty, Hwrites. rewrite Hfar in *. rewrite Hnear in Hwrites.
  destruct Hempty as (_ & _ & _ & Hempty).
  destruct Hwrites as (_ & _ & Hwrites & _).
  split; [|exact Hwrites].
  split; [simpl; lia|]. apply Hempty. left. lia.
Defined.

(** Counterexample to C7 as stated: the surface block of the column (4, 14)
    of the chunk is lava, a liquid, and the road paves it with the default
    paving material, not with the water-crossing material. *)
Lemma lava_not_water_crossing :
  RoadColumn (chunk 0 (-1)) road 4 14
  /\ IsBlockLiquid (GetBlockType (chunk 0 (-1)) 4
                      (GetHeight (GenHeightMap 1 (-1)) 4 14) 14) = true
  /\ GetBlockType (DrawRoad village (chunk 0 (-1)) road (GenHeightMap 1 (-1)))
                  4 (GetHeight (GenHeightMap 1 (-1)) 4 14) 14
     = m_RoadBlock village
  /\ m_RoadBlock village <> m_WaterRoadBlock village.
Proof.
  split; [|split; [|split]].
  - apply ClipRoad_column. vm_compute. intuition discriminate.
  - vm_compute. reflexivity.
  - vm_compute. reflexivity.
  - vm_compute. discriminate.
Qed.

(** * The further properties on the concrete world *)

Lemma pieces_ParentsFirst : ParentsFirst pieces.
Proof.
  intros i j P HP Hparent.
  do 5 (destruct i as [|i];
        [injection HP as <-; vm_compute in Hparent;
         first [discriminate Hparent | injection Hparent as <-; lia]|]).
  discriminate HP.
Qed.

(** The farm is placed on the ground of its column: terrain 64, connector
    at 65. *)
Lemma PlacePieceOnGround_lands_witness :
  m_Connectors (GetPiece farm_piece) !! 0%nat
  = Some (mkConnector (Vector3i.mk 3 0 0) (-1) BLOCK_FACE_ZM)
  /\ Vector3i.x (m_Pos (GetRotatedConnector (PlacePieceOnGround farm_piece)
                          (mkConnector (Vector3i.mk 3 0 0) (-1) BLOCK_FACE_ZM)))
     = 24
  /\ Vector3i.z (m_Pos (GetRotatedConnector (PlacePieceOnGround farm_piece)
                          (mkConnector (Vector3i.mk 3 0 0) (-1) BLOCK_FACE_ZM)))
     = -12
  /\ Vector3i.y (m_Pos (GetRotatedConnector (PlacePieceOnGround farm_piece)
                          (mkConnector (Vector3i.mk 3 0 0) (-1) BLOCK_FACE_ZM)))
     = TerrainHeightAt 24 (-12) + 1
  /\ HasBeenMovedToGround (PlacePieceOnGround farm_piece) = true
  /\ same_but_height farm_piece (PlacePieceOnGround farm_piece).
Proof.
  split; [reflexivity|].
  exact (PlacePieceOnGround_lands farm_piece
           (mkConnector (Vector3i.mk 3 0 0) (-1) BLOCK_FACE_ZM) eq_refl).
Defined.

Lemma PlacePieceOnGround_idempotent_witness :
  m_Connectors (GetPiece farm_piece) !! 0%nat
  = Some (mkConnector (Vector3i.mk 3 0 0) (-1) BLOCK_FACE_ZM)
  /\ PlacePieceOnGround (PlacePieceOnGround farm_piece)
     = PlacePieceOnGround farm_piece.
Proof.
  split; [reflexivity|].
  exact (PlacePieceOnGround_idempotent farm_piece
           (mkConnector (Vector3i.mk 3 0 0) (-1) BLOCK_FACE_ZM) eq_refl).
Defined.

(** A cascade from the road (index 1): the house on it moves, the farm and
    the well do not. *)
Lemma MoveAllDescendants_contract_witness :
  ParentsFirst pieces
  /\ length (MoveAllDescendants pieces 1 5) = length pieces
  /\ forall k P,
       pieces !! k = Some P ->
       (Cascades pieces 1 k ->
        MoveAllDescendants pieces 1 5 !! k = Some (MoveToGroundBy 5 P))
       /\ (~ Cascades pieces 1 k -> MoveAllDescendants pieces 1 5 !! k = Some P)
       /\ ((k <= 1)%nat -> MoveAllDescendants pieces 1 5 !! k = Some P).
Proof.
  split; [exact pieces_ParentsFirst|].
  exact (MoveAllDescendants_contract pieces 1 5 pieces_ParentsFirst).
Defined.

Lemma MoveAllDescendants_compose_witness :
  ParentsFirst pieces
  /\ MoveAllDescendants (MoveAllDescendants pieces 0 6) 0 (-2)
     = MoveAllDescendants pieces 0 (6 + -2).
Proof.
  split; [exact pieces_ParentsFirst|].
  exact (MoveAllDescendants_compose pieces 0 6 (-2) pieces_ParentsFirst).
Defined.

(** At the first draw the farm (index 3) is placed on the ground; the road
    (index 1) stays. *)
Lemma DrawIntoChunk_snaps_witness :
  (m_Pieces village !! 3%nat = Some farm_piece
   /\ Vector3i.y (GetSize (GetPiece farm_piece)) <> 1
   /\ ShouldMoveToGround (GetPiece farm_piece) = true
   /\ HasBeenMovedToGround farm_piece = false)
  /\ length (m_Pieces (DrawIntoChunk village (chunk 0 0)).1)
     = length (m_Pieces village)
  /\ m_Pieces (DrawIntoChunk village (chunk 0 0)).1 !! 3%nat
     = Some (PlacePieceOnGround farm_piece).
Proof.
  assert (m_Pieces village !! 3%nat = Some farm_piece) as HP
    by (vm_compute; reflexivity).
  assert (Vector3i.y (GetSize (GetPiece farm_piece)) <> 1) as Hroad
    by (vm_compute; discriminate).
  split; [repeat split; done|].
  destruct (DrawIntoChunk_snaps village (chunk 0 0) 3 farm_piece HP)
    as (Hlen & _ & Hsnap).
  split; [exact Hlen|]. exact (Hsnap Hroad eq_refl eq_refl).
Defined.

Lemma DrawIntoChunk_idempotent_witness :
  Forall (fun P => m_Connectors (GetPiece P) <> []) (m_Pieces village)
  /\ (DrawIntoChunk (DrawIntoChunk village (chunk 0 0)).1 (chunk 1 0)).1
     = (DrawIntoChunk village (chunk 0 0)).1.
Proof.
  assert (Forall (fun P => m_Connectors (GetPiece P) <> []) (m_Pieces village))
    as Hconn.
  { apply Forall_forall. intros P HP Hnone.
    assert (P ∈ m_Pieces village /\ m_Connectors (GetPiece P) = []) as Hboth
      by done.
    revert Hboth. clear. intros [HP Hnone].
    revert HP Hnone. vm_compute.
    intros HP. repeat (apply elem_of_cons in HP as [->|HP]; [discriminate|]).
    inversion HP. }
  split; [exact Hconn|].
  exact (DrawIntoChunk_idempotent village (chunk 0 0) (chunk 1 0) Hconn).
Defined.

(** The house on the road (index 2) cascaded at construction and is not
    moved when the village is drawn. *)
Lemma cascade_survives_drawing_witness :
  (ParentsFirst pieces
   /\ pieces !! 0%nat = Some (placed None well 0 64 0 0)
   /\ ShouldMoveToGround (GetPiece (placed None well 0 64 0 0)) = true
   /\ m_Connectors (GetPiece (placed None well 0 64 0 0)) !! 0%nat
      = Some (mkConnector (Vector3i.mk 2 1 0) 2 BLOCK_FACE_ZM)
   /\ Cascades pieces 0 2)
  /\ m_Pieces (DrawIntoChunk village (chunk 0 0)).1 !! 2%nat
     = m_Pieces village !! 2%nat.
Proof.
  assert (Cascades pieces 0 2) as Hcasc.
  { exists 1%nat.
    apply (chain_step pieces 0 1 1 2 (placed (Some 1%nat) house 9 65 (-8) 2));
      [|reflexivity|reflexivity|reflexivity].
    apply (chain_child pieces 0 1 road); reflexivity. }
  split; [repeat split; first [exact pieces_ParentsFirst | exact Hcasc | done]|].
  exact (cascade_survives_drawing 1 0 0 0 0 2 128 53 g_JapaneseVillage
           E_BLOCK_GRAVEL E_BLOCK_PLANKS (placed None well 0 64 0 0)
           (mkConnector (Vector3i.mk 2 1 0) 2 BLOCK_FACE_ZM) (chunk 0 0) 2
           pieces_ParentsFirst eq_refl eq_refl eq_refl (or_intror Hcasc)).
Defined.

(** The column (0, 14) of the chunk (0, -1) is not under the road. *)
Lemma DrawRoad_frame_witness :
  ~ RoadColumn (chunk 0 (-1)) road 0 14
  /\ GetBlockType (DrawRoad village (chunk 0 (-1)) road (GenHeightMap 1 (-1)))
                  0 64 14
     = GetBlockType (chunk 0 (-1)) 0 64 14
  /\ GetChunkX (DrawRoad village (chunk 0 (-1)) road (GenHeightMap 1 (-1)))
     = GetChunkX (chunk 0 (-1))
  /\ GetChunkZ (DrawRoad village (chunk 0 (-1)) road (GenHeightMap 1 (-1)))
     = GetChunkZ (chunk 0 (-1)).
Proof.
  assert (~ RoadColumn (chunk 0 (-1)) road 0 14) as Hout.
  { intros Hcol%ClipRoad_column. revert Hcol. vm_compute. intuition. }
  split; [exact Hout|].
  exact (DrawRoad_frame village (chunk 0 (-1)) road (GenHeightMap 1 (-1))
           0 64 14 Hout).
Defined.

(** The column (3, 14) is under both roads and its surface is water: the
    second road leaves it paved with gravel. *)
Lemma DrawRoad_two_roads_witness :
  (RoadColumn (chunk 0 (-1)) road 3 14
   /\ RoadColumn (chunk 0 (-1)) cross_road 3 14
   /\ IsBlockWater (m_RoadBlock village) = false
   /\ IsBlockWater (m_WaterRoadBlock village) = false)
  /\ GetBlockType
       (DrawRoad village (DrawRoad village (chunk 0 (-1)) road (GenHeightMap 1 (-1)))
                 cross_road (GenHeightMap 1 (-1))) 3 64 14
     = GetBlockType
         (DrawRoad village
            (DrawRoad village (chunk 0 (-1)) cross_road (GenHeightMap 1 (-1)))
            road (GenHeightMap 1 (-1))) 3 64 14
  /\ GetBlockType
       (DrawRoad village (DrawRoad village (chunk 0 (-1)) road (GenHeightMap 1 (-1)))
                 cross_road (GenHeightMap 1 (-1))) 3 64 14
     = m_RoadBlock village.
Proof.
  assert (RoadColumn (chunk 0 (-1)) road 3 14) as H1
    by (apply ClipRoad_column; vm_compute; intuition discriminate).
  assert (RoadColumn (chunk 0 (-1)) cross_road 3 14) as H2
    by (apply ClipRoad_column; vm_compute; intuition discriminate).
  split; [repeat split; done|].
  destruct (DrawRoad_two_roads village (chunk 0 (-1)) road cross_road
              (GenHeightMap 1 (-1)) 3 64 14) as [Horder Hover].
  split; [exact Horder|].
  exact (proj2 (Hover H1 H2) eq_refl eq_refl).
Defined.

(** The house is accepted at the southern slot at density 53 (the value
    there is 22), and so it is at density 80. *)
Lemma density_monotone_witness :
  (m_Noise (village_at 80) = m_Noise village
   /\ m_Density village <= m_Density (village_at 80)
   /\ cVillage_GetPieceWeight village road slot_south house <> 0)
  /\ cVillage_GetPieceWeight (village_at 80) road slot_south house
     = cVillage_GetPieceWeight village road slot_south house.
Proof.
  assert (m_Density village <= m_Density (village_at 80)) as Hle
    by (vm_compute; discriminate).
  assert (cVillage_GetPieceWeight village road slot_south house <> 0) as Hacc
    by (vm_compute; discriminate).
  split; [repeat split; done|].
  exact (density_monotone village (village_at 80) road slot_south house
           eq_refl Hle Hacc).
Defined.

(** The northern slot, rejected at density 53, is open at density 99; the
    southern slot is closed at density -1. *)
Lemma density_extremes_witness :
  (99 <= m_Density (village_at 99)
   /\ m_Density (village_at (-1)) < 0
   /\ m_Type slot_south = 1
   /\ 0 <= IntNoise3DInt (m_Noise (village_at (-1))) 9 65 (-1))
  /\ cVillage_GetPieceWeight (village_at 99) road slot house
     = cVillagePiecePool_GetPieceWeight road slot house
  /\ cVillage_GetPieceWeight (village_at (-1)) road slot_south house = 0.
Proof.
  assert (99 <= m_Density (village_at 99)) as Hfull
    by (vm_compute; discriminate).
  assert (m_Density (village_at (-1)) < 0) as Hnone
    by (vm_compute; reflexivity).
  assert (0 <= IntNoise3DInt (m_Noise (village_at (-1))) 9 65 (-1)) as Hnoise
    by (vm_compute; discriminate).
  split; [repeat split; done|].
  split.
  - exact (proj1 (density_extremes (village_at 99) road slot house) Hfull).
  - exact (proj2 (density_extremes (village_at (-1)) road slot_south house)
             Hnone eq_refl Hnoise).
Defined.

Lemma village_density_range_witness :
  (CreateStructure gen 0 0 0 0 = Some village
   /\ 0 <= IntNoise2DInt (cVillageGen.m_Noise gen) 0 0
   /\ cVillageGen.m_MinDensity gen < cVillageGen.m_MaxDensity gen
   /\ 0 <= cVillageGen.m_MinDensity gen <= 100
   /\ cVillageGen.m_MaxDensity gen <= 100)
  /\ cVillageGen.m_MinDensity gen <= m_Density village
     < cVillageGen.m_MaxDensity gen
  /\ 0 <= m_Density village <= 100.
Proof.
  assert (CreateStructure gen 0 0 0 0 = Some village) as Hcreate
    by (vm_compute; reflexivity).
  assert (0 <= IntNoise2DInt (cVillageGen.m_Noise gen) 0 0) as Hnoise
    by (vm_compute; discriminate).
  assert (cVillageGen.m_MinDensity gen < cVillageGen.m_MaxDensity gen) as Hlt
    by (vm_compute; reflexivity).
  assert (0 <= cVillageGen.m_MinDensity gen <= 100) as Hmin
    by (split; vm_compute; discriminate).
  assert (cVillageGen.m_MaxDensity gen <= 100) as Hmax
    by (vm_compute; discriminate).
  split; [repeat split; first [done | apply Hmin]|].
  destruct (village_density_range gen 0 0 0 0 village Hcreate Hnoise)
    as [Hrange Hpercent].
  split; [exact (Hrange Hlt) | exact (Hpercent Hmin Hmax)].
Defined.

Lemma village_materials_and_borders_witness :
  CreateStructure gen 0 0 16 0 = Some (default village (CreateStructure gen 0 0 16 0))
  /\ m_RoadBlock (default village (CreateStructure gen 0 0 16 0)) = E_BLOCK_GRAVEL
  /\ m_WaterRoadBlock (default village (CreateStructure gen 0 0 16 0))
     = E_BLOCK_PLANKS
  /\ m_Borders (default village (CreateStructure gen 0 0 16 0)) =
       mkCuboid
         (Vector3i.mk (16 - cVillageGen.m_MaxSize gen) 0
                      (0 - cVillageGen.m_MaxSize gen))
         (Vector3i.mk (16 + cVillageGen.m_MaxSize gen) (Height - 1)
                      (0 + cVillageGen.m_MaxSize gen))
  /\ m_Noise (default village (CreateStructure gen 0 0 16 0))
     = cVillageGen.m_Seed gen
  /\ (m_GridX (default village (CreateStructure gen 0 0 16 0)),
      m_GridZ (default village (CreateStructure gen 0 0 16 0)),
      m_OriginX (default village (CreateStructure gen 0 0 16 0)),
      m_OriginZ (default village (CreateStructure gen 0 0 16 0)))
     = (0, 0, 16, 0).
Proof.
  assert (CreateStructure gen 0 0 16 0
          = Some (default village (CreateStructure gen 0 0 16 0))) as Hcreate
    by (vm_compute; reflexivity).
  split; [exact Hcreate|].
  exact (village_materials_and_borders gen 0 0 16 0 _ Hcreate).
Defined.

(** At the origin (16, 0) the sample ends with plains: the style is one of
    the plains styles. *)
Lemma village_pool_in_family_witness :
  (CreateStructure gen 0 0 16 0
   = Some (default village (CreateStructure gen 0 0 16 0))
   /\ 0 <= IntNoise2DInt (cVillageGen.m_Noise gen) 16 0)
  /\ exists b,
       last (origin_biomes 16 0) = Some b
       /\ (IsDesertFamily b = true ->
           m_Prefabs (default village (CreateStructure gen 0 0 16 0))
           ∈ g_DesertVillagePools)
       /\ (IsDesertFamily b = false ->
           m_Prefabs (default village (CreateStructure gen 0 0 16 0))
           ∈ g_PlainsVillagePools).
Proof.
  assert (CreateStructure gen 0 0 16 0
          = Some (default village (CreateStructure gen 0 0 16 0))) as Hcreate
    by (vm_compute; reflexivity).
  assert (0 <= IntNoise2DInt (cVillageGen.m_Noise gen) 16 0) as Hnoise
    by (vm_compute; discriminate).
  split; [split; assumption|].
  exact (village_pool_in_family gen 0 0 16 0 _ Hcreate Hnoise).
Defined.

(** The origins (0, 0) and (5, 3) lie in the same chunk. *)
Lemma CreateStructure_accepts_by_chunk_witness :
  BlockToChunk 0 0 = BlockToChunk 5 3
  /\ (CreateStructure gen 0 0 0 0 = None
      <-> CreateStructure (cVillageGen_new 7 384 128 3 64 10 20) 2 1 5 3 = None).
Proof.
  assert (BlockToChunk 0 0 = BlockToChunk 5 3) as Hchunk
    by (vm_compute; reflexivity).
  split; [exact Hchunk|].
  exact (CreateStructure_accepts_by_chunk gen
           (cVillageGen_new 7 384 128 3 64 10 20) 0 0 0 0 2 1 5 3 Hchunk).
Defined.

Lemma roads_in_index_witness :
  (2 = -2 \/ 2 = 1 \/ 2 = 2)
  /\ GetPiecesWithConnector (cVillagePiecePool_PiecePool g_JapaneseVillage) 2
     = GetPiecesWithConnector
         (cVillagePiecePool_PiecePool
            (cPrefabPiecePool_new g_JapaneseVillagePrefabs
                                  g_JapaneseVillageStartingPrefabs)) 2
       ++ (if decide (2 = -2 \/ 2 = 1 \/ 2 = 2)
           then [RoadPiece 27; RoadPiece 39; RoadPiece 51] else [])
  /\ (forall P, P ∈ [RoadPiece 27; RoadPiece 39; RoadPiece 51] ->
                exists c, c ∈ m_Connectors P /\ m_Type c = 2)
  /\ GetStartingPieces (cVillagePiecePool_PiecePool g_JapaneseVillage)
     = g_JapaneseVillageStartingPrefabs.
Proof.
  assert (2 = -2 \/ 2 = 1 \/ 2 = 2) as Hoffered by (right; right; reflexivity).
  split; [exact Hoffered|].
  destruct (roads_in_index g_JapaneseVillagePrefabs
              g_JapaneseVillageStartingPrefabs 2) as (Hindex & Hconn & Hstart).
  split; [exact Hindex|]. split; [exact (Hconn Hoffered) | exact Hstart].
Defined.

Lemma road_connectors_on_rim_witness :
  (RoadPiece 39 ∈ drop (length g_JapaneseVillagePrefabs)
                       (m_AllPieces g_JapaneseVillage)
   /\ side ∈ m_Connectors (RoadPiece 39))
  /\ (Vector3i.y (m_Pos side) = 0
      /\ 0 <= Vector3i.x (m_Pos side) <= Vector3i.x (GetSize (RoadPiece 39)) - 1
      /\ 0 <= Vector3i.z (m_Pos side) <= Vector3i.z (GetSize (RoadPiece 39)) - 1)
  /\ Vector3i.z (m_Pos side) = 0
  /\ forall c', c' ∈ m_Connectors (RoadPiece 39) ->
                m_Pos c' = m_Pos side -> c' = side.
Proof.
  assert (RoadPiece 39 ∈ drop (length g_JapaneseVillagePrefabs)
                            (m_AllPieces g_JapaneseVillage)) as HP.
  { unfold g_JapaneseVillage.
    rewrite cVillagePiecePool_new_AllPieces, drop_app_length, RoadPieces_eq.
    right. left. }
  assert (side ∈ m_Connectors (RoadPiece 39)) as Hc.
  { apply elem_of_RoadPiece_connectors. right; right; left. exists 1.
    split; [lia|]. split; [lia|]. by left. }
  split; [split; assumption|].
  exact (road_connectors_on_rim g_JapaneseVillagePrefabs
           g_JapaneseVillageStartingPrefabs (RoadPiece 39) side HP Hc).
Defined.
